(** * Cooked-mode line editor (src/host/readDataCooked.cpp)

    A shallow embedding of [COOKED_READ_DATA]: the edit buffer and its caret,
    the word motions, the echo engine, the popup stack, the input loop and the
    post-commit pipeline, followed by the properties proved about them.

    Conventions.
    - [wchar_t] is a UTF-16 code unit, a [Z] in [0, 65536).
    - [std::wstring] and [std::wstring_view] are [list wchar]; an index or a
      length ([size_t]) is a [nat], and the only [size_t] operation that can
      leave the range of a length, the subtraction, is [size_sub], which wraps
      modulo 2^64 as the source does.
    - [til::CoordType], [int] and [CommandHistory::Index] are 32-bit signed
      integers: a [Z] passed through [i32] after each arithmetic operation.
    - A C++ exception is the [Throw] result of [Res]. *)

From Stdlib Require Import ZArith List Bool Lia PeanoNat.
Import ListNotations.

Local Open Scope Z_scope.

(* ------------------------------------------------------------------ *)
(** ** Machine integers *)

Definition wchar := Z.
Definition wstring := list wchar.

(** [a - b] on [size_t]. *)
Definition size_sub (a b : nat) : nat :=
  if (b <=? a)%nat then (a - b)%nat
  else N.to_nat (2 ^ 64 - N.of_nat (b - a)).

(** Two's complement wrap-around of a 32-bit signed integer. *)
Definition i32 (x : Z) : Z := (x + 2 ^ 31) mod 2 ^ 32 - 2 ^ 31.

Definition INT_MAX : Z := 2 ^ 31 - 1.

(** [std::clamp(v, lo, hi)]. *)
Definition clamp (v lo hi : Z) : Z :=
  if v <? lo then lo else if hi <? v then hi else v.

(** [WI_IsFlagSet] and [WI_IsAnyFlagSet]. *)
Definition WI_IsFlagSet (v flag : Z) : bool := Z.land v flag =? flag.
Definition WI_IsAnyFlagSet (v flags : Z) : bool := negb (Z.land v flags =? 0).

(* ------------------------------------------------------------------ *)
(** ** Exceptions *)

Inductive Exn : Type :=
| out_of_range        (* std::out_of_range: a string position past the end *)
| invalid_argument    (* std::invalid_argument: std::stoi found no digits *)
| stoi_out_of_range   (* std::out_of_range: std::stoi overflowed int *)
| null_history        (* a dereference of _history while it is nullptr *)
| failed_status.      (* THROW_IF_FAILED / THROW_IF_NTSTATUS_FAILED *)

Inductive Res (A : Type) : Type :=
| Ok (a : A)
| Throw (e : Exn).
Arguments Ok {A} a.
Arguments Throw {A} e.

Definition bind {A B} (m : Res A) (k : A -> Res B) : Res B :=
  match m with
  | Ok a => k a
  | Throw e => Throw e
  end.

Notation "x <- m ;; k" := (bind m (fun x => k))
  (at level 61, m at next level, right associativity).

(* ------------------------------------------------------------------ *)
(** ** std::wstring *)

Module Str.

Definition size (s : wstring) : nat := length s.

(** [s[i]]; the source only indexes below [size]. *)
Definition at_ (s : wstring) (i : nat) : wchar := nth i s 0.

(** [s.substr(pos, n)] of a view. *)
Definition substr (s : wstring) (pos n : nat) : Res wstring :=
if (size s <? pos)%nat then Throw out_of_range
else Ok (firstn n (skipn pos s)).

(** [s.insert(pos, 1, ch)]. *)
Definition insert (s : wstring) (pos : nat) (ch : wchar) : Res wstring :=
if (size s <? pos)%nat then Throw out_of_range
else Ok (firstn pos s ++ ch :: skipn pos s).

(** [s.erase(pos, n)]: removes [min(n, size - pos)] code units. *)
Definition erase (s : wstring) (pos n : nat) : Res wstring :=
if (size s <? pos)%nat then Throw out_of_range
else Ok (firstn pos s ++ skipn (pos + n) s).

(** [s.erase(pos)]: removes everything from [pos] on. *)
Definition erase_from (s : wstring) (pos : nat) : Res wstring :=
if (size s <? pos)%nat then Throw out_of_range
else Ok (firstn pos s).

(** [s.replace(pos, n, 1, ch)]. *)
Definition replace_char (s : wstring) (pos n : nat) (ch : wchar) : Res wstring :=
if (size s <? pos)%nat then Throw out_of_range
else Ok (firstn pos s ++ ch :: skipn (pos + n) s).

(** [s.replace(pos, n, str, subpos, sublen)]. *)
Definition replace (s : wstring) (pos n : nat) (str : wstring) (subpos sublen : nat)
: Res wstring :=
if (size s <? pos)%nat then Throw out_of_range
else
  sub <- substr str subpos sublen ;;
  Ok (firstn pos s ++ sub ++ skipn (pos + n) s).

(** [s.append(str, subpos, sublen)]. *)
Definition append_sub (s str : wstring) (subpos sublen : nat) : Res wstring :=
sub <- substr str subpos sublen ;;
Ok (s ++ sub).

(** [s.find(ch, pos)]; [None] is [npos]. *)
Fixpoint find_from (s : wstring) (ch : wchar) (idx : nat) : option nat :=
match s with
| [] => None
| c :: rest => if c =? ch then Some idx else find_from rest ch (S idx)
end.

Definition find (s : wstring) (ch : wchar) (pos : nat) : option nat :=
find_from (skipn pos s) ch pos.

(** [s.ends_with(suffix)]. *)
Definition ends_with (s suffix : wstring) : bool :=
(size suffix <=? size s)%nat &&
if list_eq_dec Z.eq_dec (skipn (size s - size suffix) s) suffix then true else false.

(** [s.remove_suffix(n)] of a view; called with [n <= size]. *)
Definition remove_suffix (s : wstring) (n : nat) : wstring :=
firstn (size s - n) s.

End Str.

(* ------------------------------------------------------------------ *)
(** ** Word motion *)

Definition SPACE : wchar := 32.   (* L' ' *)

Section WordMotion.

(** [DelimiterClass] is declared outside this file; the word motions only
  compare its results for equality. *)
Variable DelimiterClass : wchar -> Z.

(** [while (position != 0 && cond(position)) --position;] *)
Fixpoint back_while (cond : nat -> bool) (position : nat) : nat :=
match position with
| O => O
| S p => if cond position then back_while cond p else position
end.

(** [while (position != size && cond(position)) ++position;] run for at most
  [fuel] iterations; [size - position] iterations always suffice. *)
Fixpoint forth_while (cond : nat -> bool) (size : nat) (fuel : nat) (position : nat) : nat :=
match fuel with
| O => position
| S f =>
    if negb (position =? size)%nat && cond position
    then forth_while cond size f (S position)
    else position
end.

Definition _wordPrev (chars : wstring) (position : nat) : nat :=
if (position =? 0)%nat then position
else
  let position := (position - 1)%nat in
  let position := back_while (fun p => Str.at_ chars p =? SPACE) position in
  let dc := DelimiterClass (Str.at_ chars position) in
  back_while (fun p => DelimiterClass (Str.at_ chars (p - 1)) =? dc) position.

Definition _wordNext (chars : wstring) (position : nat) : nat :=
if (position <? Str.size chars)%nat then
  let position := S position in
  let dc := DelimiterClass (Str.at_ chars (position - 1)) in
  let size := Str.size chars in
  let position :=
    forth_while (fun p => dc =? DelimiterClass (Str.at_ chars p)) size (size - position) position in
  forth_while (fun p => Str.at_ chars p =? SPACE) size (size - position) position
else position.

End WordMotion.

(* ------------------------------------------------------------------ *)
(** ** Geometry and the collaborators of the editor *)

Record point := { pt_x : Z; pt_y : Z }.
Record size2 := { sz_width : Z; sz_height : Z }.
Record rect := { left : Z; top : Z; right : Z; bottom : Z }.

Definition rect_width (r : rect) : Z := i32 (right r - left r).
Definition rect_height (r : rect) : Z := i32 (bottom r - top r).

(** The row-major offset of a position in a grid [w] cells wide, the
    [w * pos.y + pos.x] of [_offsetPosition]. *)
Definition linearOffset (w : Z) (p : point) : Z := w * pt_y p + pt_x p.

(** Win32 [CHAR_INFO]. *)
Record CHAR_INFO := { ci_char : wchar; ci_attributes : Z }.

Inductive SearchDirection := Previous | Next.

(** [TextBuffer::GraphemeNext], [TextBuffer::GraphemePrev] and
    [DelimiterClass]: the Unicode and delimiter tables of the host. *)
Class TextApi := {
  GraphemeNext : wstring -> nat -> nat;
  GraphemePrev : wstring -> nat -> nat;
  DelimiterClass : wchar -> Z;
}.

(** What the editor asks of [SCREEN_INFORMATION], its text buffer and cursor. *)
Class ScreenApi (Screen : Type) := {
  CursorPosition : Screen -> point;
  BufferDimensions : Screen -> size2;
  ViewportOrigin : Screen -> point;
  ViewportDimensions : Screen -> size2;
  (* WriteCharsLegacy(screen, text, true, &scrollY) *)
  WriteCharsLegacy : Screen -> wstring -> Screen * Z;
  SetCursorPosition : Screen -> point -> Screen;
  MakeCursorVisible : Screen -> point -> Screen;
  SetCursorDBMode : Screen -> bool -> Screen;
  SetIsPopupShown : Screen -> bool -> Screen;
  (* ReadConsoleOutputWImpl; None is a failed HRESULT *)
  ReadConsoleOutputW : Screen -> list CHAR_INFO -> rect -> option (list CHAR_INFO * rect);
  (* WriteConsoleOutputWImpl under LOG_IF_FAILED *)
  WriteConsoleOutputW : Screen -> list CHAR_INFO -> rect -> Screen;
  (* textBuffer.Write(row, attributes, state); the flag selects the inverted attributes *)
  TextBufferWrite : Screen -> Z -> bool -> wstring -> Z -> Z -> Screen;
  LoadString : Z -> wstring;
  (* the UIA_Text_TextChangedEventId signal, when accessibility eventing is on *)
  SignalTextChanged : Screen -> Screen;
}.

(** What the editor asks of [CommandHistory]. *)
Class HistoryApi (History : Type) := {
  GetLastCommand : History -> wstring;
  AtFirstCommand : History -> bool;
  AtLastCommand : History -> bool;
  Retrieve : History -> SearchDirection -> wstring * History;
  RetrieveNth : History -> Z -> wstring * History;
  GetNth : History -> Z -> wstring;
  GetNumberOfCommands : History -> Z;
  GetCommands : History -> list wstring;
  LastDisplayed : History -> Z;
  Empty : History -> History;
  SetAllocated : History -> History;     (* Flags |= CLE_ALLOCATED *)
  FindMatchingCommand : History -> wstring -> Z -> option Z;
  Remove : History -> Z -> History;
  Swap : History -> Z -> Z -> History;
  Add : History -> wstring -> bool -> History;
}.

(** The client side: the alias table and the encoder into the client's buffer. *)
Class ClientApi (Aliases Writer : Type) := {
  (* Alias::s_MatchAndCopyAlias(input, exeName, lineCount): the expansion and
     the line count it reports *)
  MatchAndCopyAlias : Aliases -> wstring -> wstring -> nat -> wstring * nat;
  (* Alias::s_ClearCmdExeAliases() *)
  ClearCmdExeAliases : Aliases -> Aliases;
  (* InputBuffer::Consume(isUnicode, input, writer): what is left of both *)
  Consume : bool -> wstring -> Writer -> wstring * Writer;
  writer_size : Writer -> nat;
}.

(** Modelled from the spec: INPUT_READ_HANDLE_DATA is not part of the sources
    here; the spec names its two slots, "pending input" and "pending
    multi-line input", each holding the text saved for the next read. *)
Inductive PendingInput :=
| NoPending
| SavedPending (text : wstring)
| SavedMultilinePending (text : wstring).

(* ------------------------------------------------------------------ *)
(** ** Constants of the Windows headers *)

Definition UNICODE_BACKSPACE : wchar := 8.
Definition UNICODE_LINEFEED : wchar := 10.
Definition UNICODE_CARRIAGERETURN : wchar := 13.
Definition EXTKEY_ERASE_PREV_WORD : wchar := 127.

Definition VK_ESCAPE := 27.
Definition VK_PRIOR := 33.
Definition VK_NEXT := 34.
Definition VK_END := 35.
Definition VK_HOME := 36.
Definition VK_LEFT := 37.
Definition VK_UP := 38.
Definition VK_RIGHT := 39.
Definition VK_DOWN := 40.
Definition VK_INSERT := 45.
Definition VK_DELETE := 46.
Definition VK_F1 := 112.
Definition VK_F2 := 113.
Definition VK_F3 := 114.
Definition VK_F4 := 115.
Definition VK_F5 := 116.
Definition VK_F6 := 117.
Definition VK_F7 := 118.
Definition VK_F8 := 119.
Definition VK_F9 := 120.
Definition VK_F10 := 121.

Definition RIGHT_ALT_PRESSED := 1.
Definition LEFT_ALT_PRESSED := 2.
Definition RIGHT_CTRL_PRESSED := 4.
Definition LEFT_CTRL_PRESSED := 8.
Definition SHIFT_PRESSED := 16.

Definition ENABLE_PROCESSED_INPUT := 1.
Definition ENABLE_ECHO_INPUT := 4.

Definition CONSOLE_IGNORE_NEXT_KEYUP := 512.
Definition CONSOLE_HISTORY_NODUP := 1024.

Definition ID_CONSOLE_MSGCMDLINEF2 := 0x1010.
Definition ID_CONSOLE_MSGCMDLINEF4 := 0x1011.
Definition ID_CONSOLE_MSGCMDLINEF9 := 0x1012.

(** Modelled from the spec: readDataCooked.hpp is not part of the sources
    here; the spec gives the CommandNumber popup a digit buffer of at most 5
    characters. The array itself has one more slot, the one the Enter path
    writes its terminating NUL into. *)
Definition CommandNumberMaxInputLength : nat := 5.

(** As per https://graphics.stanford.edu/~seander/bithacks.html#IntegerLog10Obvious *)
Definition integerLog10 (v : Z) : Z :=
  let v := v mod 2 ^ 32 in
  if v >=? 1000000000 then 9 else
  if v >=? 100000000 then 8 else
  if v >=? 10000000 then 7 else
  if v >=? 1000000 then 6 else
  if v >=? 100000 then 5 else
  if v >=? 10000 then 4 else
  if v >=? 1000 then 3 else
  if v >=? 100 then 2 else
  if v >=? 10 then 1 else 0.

(* ------------------------------------------------------------------ *)
(** ** Popups *)

(** Modelled from the spec: the [Popup] struct is declared in
    readDataCooked.hpp. A popup is a tagged variant of four kinds with a
    shared header; CommandNumber carries the digit buffer and its length,
    CommandList carries [top], [selected] and [dirtyHeight]. *)
Inductive PopupKind := CopyToChar | CopyFromChar | CommandNumber | CommandList.

Record CommandNumberData := {
  cn_buffer : list wchar;
  cn_bufferSize : nat;
}.

Record CommandListData := {
  cl_top : Z;
  cl_selected : Z;
  cl_dirtyHeight : Z;
}.

Record Popup := {
  kind : PopupKind;
  contentRect : rect;
  backupRect : rect;
  backup : list CHAR_INFO;
  commandNumber : CommandNumberData;
  commandList : CommandListData;
}.

Definition PopupKind_eqb (a b : PopupKind) : bool :=
  match a, b with
  | CopyToChar, CopyToChar | CopyFromChar, CopyFromChar
  | CommandNumber, CommandNumber | CommandList, CommandList => true
  | _, _ => false
  end.

Definition with_commandNumber (cn : CommandNumberData) (p : Popup) : Popup :=
  {| kind := kind p; contentRect := contentRect p; backupRect := backupRect p;
     backup := backup p; commandNumber := cn; commandList := commandList p |}.

Definition with_commandList (cl : CommandListData) (p : Popup) : Popup :=
  {| kind := kind p; contentRect := contentRect p; backupRect := backupRect p;
     backup := backup p; commandNumber := commandNumber p; commandList := cl |}.

Definition with_backup (b : list CHAR_INFO) (r : rect) (p : Popup) : Popup :=
  {| kind := kind p; contentRect := contentRect p; backupRect := r;
     backup := b; commandNumber := commandNumber p; commandList := commandList p |}.

(** [array[i] = v] on a [std::array]; the source only writes below its size. *)
Fixpoint array_set (a : list wchar) (i : nat) (v : wchar) : list wchar :=
  match a, i with
  | [], _ => []
  | _ :: rest, O => v :: rest
  | c :: rest, S j => c :: array_set rest j v
  end.

(* ------------------------------------------------------------------ *)
(** ** The editor state *)

Section Editor.

Context {Screen History Aliases Writer : Type}.
Context {text_api : TextApi}.
Context {screen_api : ScreenApi Screen}.
Context {history_api : HistoryApi History}.
Context {client_api : ClientApi Aliases Writer}.

(** The members of [COOKED_READ_DATA] and the globals it reaches. *)
Record State := {
_buffer : wstring;
_bufferCursor : nat;
_bufferDirty : bool;
_insertMode : bool;
_controlKeyState : Z;
_distanceCursor : Z;
_distanceEnd : Z;
_popups : list Popup;              (* front is the bottom, back is the top *)
_history : option History;         (* None is nullptr *)
_screenInfo : Screen;
_ctrlWakeupMask : Z;
_exeName : wstring;
_userBuffer : Writer;
InputMode : Z;                     (* _pInputBuffer->InputMode *)
gciInsertMode : bool;              (* gci.GetInsertMode() *)
gciFlags : Z;                      (* gci.Flags *)
aliases : Aliases;
pendingInput : PendingInput;       (* GetInputReadHandleData() *)
}.

Definition with_buffer (v : wstring) (s : State) : State :=
{| _buffer := v; _bufferCursor := _bufferCursor s; _bufferDirty := _bufferDirty s;
   _insertMode := _insertMode s; _controlKeyState := _controlKeyState s;
   _distanceCursor := _distanceCursor s; _distanceEnd := _distanceEnd s;
   _popups := _popups s; _history := _history s; _screenInfo := _screenInfo s;
   _ctrlWakeupMask := _ctrlWakeupMask s; _exeName := _exeName s;
   _userBuffer := _userBuffer s; InputMode := InputMode s;
   gciInsertMode := gciInsertMode s; gciFlags := gciFlags s;
   aliases := aliases s; pendingInput := pendingInput s |}.

Definition with_cursor (v : nat) (s : State) : State :=
{| _buffer := _buffer s; _bufferCursor := v; _bufferDirty := _bufferDirty s;
   _insertMode := _insertMode s; _controlKeyState := _controlKeyState s;
   _distanceCursor := _distanceCursor s; _distanceEnd := _distanceEnd s;
   _popups := _popups s; _history := _history s; _screenInfo := _screenInfo s;
   _ctrlWakeupMask := _ctrlWakeupMask s; _exeName := _exeName s;
   _userBuffer := _userBuffer s; InputMode := InputMode s;
   gciInsertMode := gciInsertMode s; gciFlags := gciFlags s;
   aliases := aliases s; pendingInput := pendingInput s |}.

Definition with_dirty (v : bool) (s : State) : State :=
{| _buffer := _buffer s; _bufferCursor := _bufferCursor s; _bufferDirty := v;
   _insertMode := _insertMode s; _controlKeyState := _controlKeyState s;
   _distanceCursor := _distanceCursor s; _distanceEnd := _distanceEnd s;
   _popups := _popups s; _history := _history s; _screenInfo := _screenInfo s;
   _ctrlWakeupMask := _ctrlWakeupMask s; _exeName := _exeName s;
   _userBuffer := _userBuffer s; InputMode := InputMode s;
   gciInsertMode := gciInsertMode s; gciFlags := gciFlags s;
   aliases := aliases s; pendingInput := pendingInput s |}.

Definition with_insertMode (v : bool) (s : State) : State :=
{| _buffer := _buffer s; _bufferCursor := _bufferCursor s; _bufferDirty := _bufferDirty s;
   _insertMode := v; _controlKeyState := _controlKeyState s;
   _distanceCursor := _distanceCursor s; _distanceEnd := _distanceEnd s;
   _popups := _popups s; _history := _history s; _screenInfo := _screenInfo s;
   _ctrlWakeupMask := _ctrlWakeupMask s; _exeName := _exeName s;
   _userBuffer := _userBuffer s; InputMode := InputMode s;
   gciInsertMode := gciInsertMode s; gciFlags := gciFlags s;
   aliases := aliases s; pendingInput := pendingInput s |}.

Definition with_controlKeyState (v : Z) (s : State) : State :=
{| _buffer := _buffer s; _bufferCursor := _bufferCursor s; _bufferDirty := _bufferDirty s;
   _insertMode := _insertMode s; _controlKeyState := v;
   _distanceCursor := _distanceCursor s; _distanceEnd := _distanceEnd s;
   _popups := _popups s; _history := _history s; _screenInfo := _screenInfo s;
   _ctrlWakeupMask := _ctrlWakeupMask s; _exeName := _exeName s;
   _userBuffer := _userBuffer s; InputMode := InputMode s;
   gciInsertMode := gciInsertMode s; gciFlags := gciFlags s;
   aliases := aliases s; pendingInput := pendingInput s |}.

Definition with_distances (dc de : Z) (s : State) : State :=
{| _buffer := _buffer s; _bufferCursor := _bufferCursor s; _bufferDirty := _bufferDirty s;
   _insertMode := _insertMode s; _controlKeyState := _controlKeyState s;
   _distanceCursor := dc; _distanceEnd := de;
   _popups := _popups s; _history := _history s; _screenInfo := _screenInfo s;
   _ctrlWakeupMask := _ctrlWakeupMask s; _exeName := _exeName s;
   _userBuffer := _userBuffer s; InputMode := InputMode s;
   gciInsertMode := gciInsertMode s; gciFlags := gciFlags s;
   aliases := aliases s; pendingInput := pendingInput s |}.

Definition with_popups (v : list Popup) (s : State) : State :=
{| _buffer := _buffer s; _bufferCursor := _bufferCursor s; _bufferDirty := _bufferDirty s;
   _insertMode := _insertMode s; _controlKeyState := _controlKeyState s;
   _distanceCursor := _distanceCursor s; _distanceEnd := _distanceEnd s;
   _popups := v; _history := _history s; _screenInfo := _screenInfo s;
   _ctrlWakeupMask := _ctrlWakeupMask s; _exeName := _exeName s;
   _userBuffer := _userBuffer s; InputMode := InputMode s;
   gciInsertMode := gciInsertMode s; gciFlags := gciFlags s;
   aliases := aliases s; pendingInput := pendingInput s |}.

Definition with_history (v : option History) (s : State) : State :=
{| _buffer := _buffer s; _bufferCursor := _bufferCursor s; _bufferDirty := _bufferDirty s;
   _insertMode := _insertMode s; _controlKeyState := _controlKeyState s;
   _distanceCursor := _distanceCursor s; _distanceEnd := _distanceEnd s;
   _popups := _popups s; _history := v; _screenInfo := _screenInfo s;
   _ctrlWakeupMask := _ctrlWakeupMask s; _exeName := _exeName s;
   _userBuffer := _userBuffer s; InputMode := InputMode s;
   gciInsertMode := gciInsertMode s; gciFlags := gciFlags s;
   aliases := aliases s; pendingInput := pendingInput s |}.

Definition with_screen (v : Screen) (s : State) : State :=
{| _buffer := _buffer s; _bufferCursor := _bufferCursor s; _bufferDirty := _bufferDirty s;
   _insertMode := _insertMode s; _controlKeyState := _controlKeyState s;
   _distanceCursor := _distanceCursor s; _distanceEnd := _distanceEnd s;
   _popups := _popups s; _history := _history s; _screenInfo := v;
   _ctrlWakeupMask := _ctrlWakeupMask s; _exeName := _exeName s;
   _userBuffer := _userBuffer s; InputMode := InputMode s;
   gciInsertMode := gciInsertMode s; gciFlags := gciFlags s;
   aliases := aliases s; pendingInput := pendingInput s |}.

Definition with_gciFlags (v : Z) (s : State) : State :=
{| _buffer := _buffer s; _bufferCursor := _bufferCursor s; _bufferDirty := _bufferDirty s;
   _insertMode := _insertMode s; _controlKeyState := _controlKeyState s;
   _distanceCursor := _distanceCursor s; _distanceEnd := _distanceEnd s;
   _popups := _popups s; _history := _history s; _screenInfo := _screenInfo s;
   _ctrlWakeupMask := _ctrlWakeupMask s; _exeName := _exeName s;
   _userBuffer := _userBuffer s; InputMode := InputMode s;
   gciInsertMode := gciInsertMode s; gciFlags := v;
   aliases := aliases s; pendingInput := pendingInput s |}.

Definition with_aliases (v : Aliases) (s : State) : State :=
{| _buffer := _buffer s; _bufferCursor := _bufferCursor s; _bufferDirty := _bufferDirty s;
   _insertMode := _insertMode s; _controlKeyState := _controlKeyState s;
   _distanceCursor := _distanceCursor s; _distanceEnd := _distanceEnd s;
   _popups := _popups s; _history := _history s; _screenInfo := _screenInfo s;
   _ctrlWakeupMask := _ctrlWakeupMask s; _exeName := _exeName s;
   _userBuffer := _userBuffer s; InputMode := InputMode s;
   gciInsertMode := gciInsertMode s; gciFlags := gciFlags s;
   aliases := v; pendingInput := pendingInput s |}.

Definition with_pendingInput (v : PendingInput) (s : State) : State :=
{| _buffer := _buffer s; _bufferCursor := _bufferCursor s; _bufferDirty := _bufferDirty s;
   _insertMode := _insertMode s; _controlKeyState := _controlKeyState s;
   _distanceCursor := _distanceCursor s; _distanceEnd := _distanceEnd s;
   _popups := _popups s; _history := _history s; _screenInfo := _screenInfo s;
   _ctrlWakeupMask := _ctrlWakeupMask s; _exeName := _exeName s;
   _userBuffer := _userBuffer s; InputMode := InputMode s;
   gciInsertMode := gciInsertMode s; gciFlags := gciFlags s;
   aliases := aliases s; pendingInput := v |}.

Definition processedInput (s : State) : bool := WI_IsFlagSet (InputMode s) ENABLE_PROCESSED_INPUT.
Definition echoInput (s : State) : bool := WI_IsFlagSet (InputMode s) ENABLE_ECHO_INPUT.

(* ---------------------------------------------------------------- *)
(** ** Echo engine *)

Definition _markAsDirty (s : State) : State := with_dirty true s.

(** Returns the number of cells written; the sum is a [til::CoordType]. *)
Definition _writeChars (scr : Screen) (text : wstring) : Screen * Z :=
match text with
| [] => (scr, 0)
| _ =>
    let width := sz_width (BufferDimensions scr) in
    let initialCursorPos := CursorPosition scr in
    let '(scr', scrollY) := WriteCharsLegacy scr text in
    let finalCursorPos := CursorPosition scr' in
    (scr', i32 ((pt_y finalCursorPos - pt_y initialCursorPos + scrollY) * width
                + pt_x finalCursorPos - pt_x initialCursorPos))
end.

(** The offset is computed on [ptrdiff_t], which the 32-bit operands cannot
  overflow; [%] and [/] truncate. *)
Definition _offsetPosition (scr : Screen) (pos : point) (distance : Z) : point :=
let size := BufferDimensions scr in
let w := sz_width size in
let h := sz_height size in
let area := w * h in
let off := w * pt_y pos + pt_x pos in
let off := off + distance in
let off := if off <? 0 then 0 else if off >? area then area else off in
{| pt_x := i32 (Z.rem off w); pt_y := i32 (Z.quot off w) |}.

Definition _unwindCursorPosition (scr : Screen) (distance : Z) : Screen :=
if distance <=? 0 then scr
else
  let pos := _offsetPosition scr (CursorPosition scr) (i32 (- distance)) in
  MakeCursorVisible (SetCursorPosition scr pos) pos.

Definition _erase (scr : Screen) (distance : Z) : Screen :=
if distance >? 0 then fst (_writeChars scr (repeat SPACE (Z.to_nat distance)))
else scr.

Definition _flushBuffer (s : State) : State :=
let s := with_cursor (Nat.min (_bufferCursor s) (Str.size (_buffer s))) s in
if negb (_bufferDirty s) then s
else
  let s :=
    if echoInput s then
      let scr := _unwindCursorPosition (_screenInfo s) (_distanceCursor s) in
      (* both substr calls are in range: the caret was clamped above *)
      let '(scr, distanceBeforeCursor) := _writeChars scr (firstn (_bufferCursor s) (_buffer s)) in
      let '(scr, distanceAfterCursor) := _writeChars scr (skipn (_bufferCursor s) (_buffer s)) in
      let distanceEnd := i32 (distanceBeforeCursor + distanceAfterCursor) in
      let eraseDistance := Z.max 0 (i32 (_distanceEnd s - distanceEnd)) in
      let scr := _erase scr eraseDistance in
      let scr := _unwindCursorPosition scr (i32 (distanceAfterCursor + eraseDistance)) in
      with_distances distanceBeforeCursor distanceEnd (with_screen scr s)
    else s in
  with_dirty false s.

Definition _replaceBuffer (str : wstring) (s : State) : State :=
_markAsDirty (with_cursor (Str.size str) (with_buffer str s)).

Definition _newlineSuffix (s : State) : wstring :=
if processedInput s then [UNICODE_CARRIAGERETURN; UNICODE_LINEFEED]
else [UNICODE_CARRIAGERETURN].

Definition _popupsDone (s : State) : State :=
let restore scr popup :=
  match backup popup with
  | [] => scr
  | _ => WriteConsoleOutputW scr (backup popup) (backupRect popup)
  end in
let scr := fold_left restore (rev (_popups s)) (_screenInfo s) in
with_popups [] (with_screen (SetIsPopupShown scr false) s).

Definition EraseBeforeResize (s : State) : State :=
let s := _popupsDone s in
if _distanceEnd s =? 0 then s
else
  let scr := _unwindCursorPosition (_screenInfo s) (_distanceCursor s) in
  let scr := _erase scr (_distanceEnd s) in
  let scr := _unwindCursorPosition scr (_distanceEnd s) in
  with_distances 0 0 (with_screen scr s).

Definition RedrawAfterResize (s : State) : State := _flushBuffer (_markAsDirty s).

(* ---------------------------------------------------------------- *)
(** ** Character input *)

(** [_handleChar]; the boolean is the commit signal. In the wakeup test
  [1 << wch] is an [int] converted to [ULONG], the bit [wch] of the mask. *)
Definition _handleChar (wch : wchar) (modifiers : Z) (s : State) : Res (bool * State) :=
if negb (_ctrlWakeupMask s =? 0) && (wch <? SPACE)
   && negb (Z.land (_ctrlWakeupMask s) (Z.shiftl 1 wch) =? 0)
then
  let s := _flushBuffer s in
  b <- Str.insert (_buffer s) (_bufferCursor s) wch ;;
  let s := with_cursor (S (_bufferCursor s)) (with_buffer b s) in
  Ok (true, with_controlKeyState modifiers s)
else if wch =? UNICODE_CARRIAGERETURN then
  let s := with_buffer (_buffer s ++ _newlineSuffix s) s in
  let s := with_cursor (Str.size (_buffer s)) s in
  Ok (true, _markAsDirty s)
else if ((wch =? EXTKEY_ERASE_PREV_WORD) || (wch =? UNICODE_BACKSPACE)) && processedInput s
then
  let pos :=
    if wch =? EXTKEY_ERASE_PREV_WORD
    then _wordPrev DelimiterClass (_buffer s) (_bufferCursor s)
    else GraphemePrev (_buffer s) (_bufferCursor s) in
  b <- Str.erase (_buffer s) pos (size_sub (_bufferCursor s) pos) ;;
  let s := _markAsDirty (with_cursor pos (with_buffer b s)) in
  Ok (false, with_screen (SignalTextChanged (_screenInfo s)) s)
else
  b <- (if _insertMode s
        then Str.insert (_buffer s) (_bufferCursor s) wch
        else
          let nextGraphemeLength :=
            size_sub (GraphemeNext (_buffer s) (_bufferCursor s)) (_bufferCursor s) in
          Str.replace_char (_buffer s) (_bufferCursor s) nextGraphemeLength wch) ;;
  let s := with_cursor (S (_bufferCursor s)) (with_buffer b s) in
  Ok (false, _markAsDirty s).

(* ---------------------------------------------------------------- *)
(** ** Popups: drawing, push and dismissal *)

Fixpoint uint_chars (d : Decimal.uint) : wstring :=
match d with
| Decimal.Nil => []
| Decimal.D0 r => 48 :: uint_chars r
| Decimal.D1 r => 49 :: uint_chars r
| Decimal.D2 r => 50 :: uint_chars r
| Decimal.D3 r => 51 :: uint_chars r
| Decimal.D4 r => 52 :: uint_chars r
| Decimal.D5 r => 53 :: uint_chars r
| Decimal.D6 r => 54 :: uint_chars r
| Decimal.D7 r => 55 :: uint_chars r
| Decimal.D8 r => 56 :: uint_chars r
| Decimal.D9 r => 57 :: uint_chars r
end.

(** [std::to_wstring(int)]. *)
Definition to_wstring (z : Z) : wstring :=
match Z.to_int z with
| Decimal.Pos d => uint_chars d
| Decimal.Neg d => 45 :: uint_chars d
end.

(** [s.front() = v] and [s.back() = v]. *)
Definition set_front (v : wchar) (s : wstring) : wstring :=
match s with
| [] => []
| _ :: rest => v :: rest
end.

Definition set_back (v : wchar) (s : wstring) : wstring :=
match s with
| [] => []
| _ => removelast s ++ [v]
end.

Definition _popupDrawPrompt (scr : Screen) (popup : Popup) (id : Z) : Screen :=
TextBufferWrite scr (top (contentRect popup)) false (LoadString id)
  (left (contentRect popup)) (right (contentRect popup)).

Definition _popupDrawCommandList (h : History) (scr : Screen) (popup : Popup)
: Screen * Popup :=
let cl := commandList popup in
let max := GetNumberOfCommands h in
let width := Z.to_nat (rect_width (contentRect popup)) in
let height := Z.min (rect_height (contentRect popup)) (GetNumberOfCommands h) in
let dirtyHeight := Z.max height (cl_dirtyHeight cl) in
let selected := clamp (cl_selected cl) 0 (i32 (max - 1)) in
let top_ :=
  if selected <? cl_top cl then selected
  else if selected >=? i32 (cl_top cl + height) then i32 (selected - height + 1)
  else cl_top cl in
let top_ := clamp top_ 0 (i32 (max - height)) in
let row scr (off : nat) :=
  let y := i32 (top (contentRect popup) + Z.of_nat off) in
  let historyIndex := i32 (top_ + Z.of_nat off) in
  let str := GetNth h historyIndex in
  let buffer :=
    match str with
    | [] => []
    | _ => to_wstring historyIndex ++ [58; SPACE] ++ str
    end ++ repeat SPACE width in
  TextBufferWrite scr y (historyIndex =? selected) buffer
    (left (contentRect popup)) (right (contentRect popup)) in
let scr := fold_left row (seq 0 (Z.to_nat dirtyHeight)) scr in
(scr, with_commandList
        {| cl_top := top_; cl_selected := selected; cl_dirtyHeight := height |} popup).

(** The size a popup of this kind asks for. *)
Definition proposedSize (kind : PopupKind) (s : State) : Res size2 :=
match kind with
| CopyToChar => Ok {| sz_width := 26; sz_height := 1 |}
| CopyFromChar => Ok {| sz_width := 28; sz_height := 1 |}
| CommandNumber =>
    Ok {| sz_width := 22 + Z.of_nat CommandNumberMaxInputLength; sz_height := 1 |}
| CommandList =>
    match _history s with
    | None => Throw null_history
    | Some h =>
        let commandCount := GetNumberOfCommands h in
        let maxStringLength :=
          fold_left (fun m c => Nat.max m (Str.size c)) (GetCommands h) O in
        let maxStringLength := (maxStringLength + Z.to_nat (integerLog10 commandCount))%nat in
        let maxStringLength := (maxStringLength + 3)%nat in
        Ok {| sz_width := clamp (Z.of_nat maxStringLength) 40 INT_MAX;
              sz_height := clamp commandCount 10 20 |}
    end
end.

Definition _popupPush (kind : PopupKind) (s : State) : Res State :=
let viewportOrigin := ViewportOrigin (_screenInfo s) in
let viewportSize := ViewportDimensions (_screenInfo s) in
proposed <- proposedSize kind s ;;
let contentSize :=
  {| sz_width := Z.min (sz_width proposed) (i32 (sz_width viewportSize - 2));
     sz_height := Z.min (sz_height proposed) (i32 (sz_height viewportSize - 2)) |} in
if negb ((sz_width contentSize >? 0) && (sz_height contentSize >? 0)) then Ok s
else
  let widthSizeT := Z.to_nat (i32 (sz_width contentSize + 2)) in
  let heightSizeT := Z.to_nat (i32 (sz_height contentSize + 2)) in
  let contentOrigin :=
    {| pt_x := i32 (Z.quot (sz_width viewportSize - sz_width contentSize) 2 + pt_x viewportOrigin);
       pt_y := i32 (Z.quot (sz_height viewportSize - sz_height contentSize) 2 + pt_y viewportOrigin) |} in
  let contentRect :=
    {| left := pt_x contentOrigin; top := pt_y contentOrigin;
       right := i32 (pt_x contentOrigin + sz_width contentSize);
       bottom := i32 (pt_y contentOrigin + sz_height contentSize) |} in
  let backupRect :=
    {| left := i32 (left contentRect - 1); top := i32 (top contentRect - 1);
       right := i32 (right contentRect + 1); bottom := i32 (bottom contentRect + 1) |} in
  let popup :=
    {| kind := kind; contentRect := contentRect; backupRect := backupRect;
       backup := repeat {| ci_char := 0; ci_attributes := 0 |} (widthSizeT * heightSizeT);
       commandNumber := {| cn_buffer := repeat 0 (S CommandNumberMaxInputLength);
                           cn_bufferSize := O |};
       commandList := {| cl_top := 0; cl_selected := 0; cl_dirtyHeight := 0 |} |} in
  (* _popups.emplace_back(...) *)
  let s := with_popups (_popups s ++ [popup]) s in
  let s := _flushBuffer s in
  match ReadConsoleOutputW (_screenInfo s) (backup popup) backupRect with
  | None =>
      (* THROW_IF_FAILED, caught by the function's catch (...) *)
      Ok (_popupsDone s)
  | Some (cells, readRect) =>
      let popup := with_backup cells readRect popup in
      let scr := _screenInfo s in
      (* top line, bottom line, middle lines *)
      let columnBegin := i32 (left contentRect - 1) in
      let columnLimit := i32 (right contentRect + 1) in
      let buffer := set_back 0x2510 (set_front 0x250C (repeat 0x2500 widthSizeT)) in
      let scr := TextBufferWrite scr (i32 (top contentRect - 1)) false buffer columnBegin columnLimit in
      let buffer := set_back 0x2518 (set_front 0x2514 buffer) in
      let scr := TextBufferWrite scr (bottom contentRect) false buffer columnBegin columnLimit in
      let buffer := set_back 0x2502 (set_front 0x2502 (repeat SPACE widthSizeT)) in
      let scr :=
        fold_left
          (fun scr off => TextBufferWrite scr (i32 (top contentRect + Z.of_nat off)) false buffer
                            columnBegin columnLimit)
          (seq 0 (Z.to_nat (bottom contentRect - top contentRect))) scr in
      drawn <-
        match kind with
        | CopyToChar => Ok (_popupDrawPrompt scr popup ID_CONSOLE_MSGCMDLINEF2, popup)
        | CopyFromChar => Ok (_popupDrawPrompt scr popup ID_CONSOLE_MSGCMDLINEF4, popup)
        | CommandNumber =>
            let popup :=
              with_commandNumber
                {| cn_buffer := repeat SPACE (S CommandNumberMaxInputLength);
                   cn_bufferSize := O |} popup in
            Ok (_popupDrawPrompt scr popup ID_CONSOLE_MSGCMDLINEF9, popup)
        | CommandList =>
            match _history s with
            | None => Throw null_history
            | Some h =>
                let selected := LastDisplayed h in
                let popup :=
                  with_commandList
                    {| cl_top := i32 (selected - Z.quot (sz_height contentSize) 2);
                       cl_selected := selected;
                       cl_dirtyHeight := cl_dirtyHeight (commandList popup) |} popup in
                Ok (_popupDrawCommandList h scr popup)
            end
        end ;;
      let '(scr, popup) := drawn in
      let popups := removelast (_popups s) ++ [popup] in
      let scr := if (length popups =? 1)%nat then SetIsPopupShown scr true else scr in
      Ok (with_popups popups (with_screen scr s))
  end.

(* ---------------------------------------------------------------- *)
(** ** Virtual keys while no popup is shown *)

(** The loop of the VK_RIGHT case that pastes one grapheme of the last
  command once the walk has passed the end of the buffer. [None] means the
  loop ended without pasting; running out of [fuel] is [hang], which needs
  a [GraphemeNext] that does not advance. *)
Inductive Exhausted := hang.

Fixpoint pasteLoop (fuel : nat) (cmd : wstring) (s : State) (bufferSize cmdBeg bufferBeg : nat)
: Exhausted + Res State :=
match fuel with
| O => inl hang
| S fuel =>
    if (cmdBeg <? Str.size cmd)%nat then
      let cmdEnd := GraphemeNext cmd cmdBeg in
      if (bufferSize <=? bufferBeg)%nat then
        inr (b <- Str.append_sub (_buffer s) cmd cmdBeg (size_sub cmdEnd cmdBeg) ;;
             let s := with_buffer b s in
             Ok (_markAsDirty (with_cursor (Str.size (_buffer s)) s)))
      else
        pasteLoop fuel cmd s bufferSize cmdEnd (GraphemeNext (_buffer s) bufferBeg)
    else inr (Ok s)
end.

Definition with_history_of {A} (s : State) (k : History -> A) (otherwise : A) : A :=
match _history s with
| Some h => k h
| None => otherwise
end.

Definition _handleVkey (fuel : nat) (vkey : Z) (modifiers : Z) (s : State)
: Exhausted + Res State :=
let ctrlPressed := WI_IsAnyFlagSet modifiers (Z.lor LEFT_CTRL_PRESSED RIGHT_CTRL_PRESSED) in
let altPressed := WI_IsAnyFlagSet modifiers (Z.lor LEFT_ALT_PRESSED RIGHT_ALT_PRESSED) in
if vkey =? VK_ESCAPE then
  inr (Ok (match _buffer s with
           | [] => s
           | _ => _markAsDirty (with_cursor O (with_buffer [] s))
           end))
else if vkey =? VK_HOME then
  inr (if (0 <? _bufferCursor s)%nat then
         b <- (if ctrlPressed then Str.erase (_buffer s) 0 (_bufferCursor s)
               else Ok (_buffer s)) ;;
         Ok (_markAsDirty (with_cursor O (with_buffer b s)))
       else Ok s)
else if vkey =? VK_END then
  inr (if (_bufferCursor s <? Str.size (_buffer s))%nat then
         b <- (if ctrlPressed then Str.erase_from (_buffer s) (_bufferCursor s)
               else Ok (_buffer s)) ;;
         let s := with_buffer b s in
         Ok (_markAsDirty (with_cursor (Str.size (_buffer s)) s))
       else Ok s)
else if vkey =? VK_LEFT then
  inr (Ok (if negb (_bufferCursor s =? 0)%nat then
             let pos :=
               if ctrlPressed then _wordPrev DelimiterClass (_buffer s) (_bufferCursor s)
               else GraphemePrev (_buffer s) (_bufferCursor s) in
             _markAsDirty (with_cursor pos s)
           else s))
else if (vkey =? VK_F1) || (vkey =? VK_RIGHT) then
  if negb (_bufferCursor s =? Str.size (_buffer s))%nat then
    let pos :=
      if ctrlPressed && (vkey =? VK_RIGHT)
      then _wordNext DelimiterClass (_buffer s) (_bufferCursor s)
      else GraphemeNext (_buffer s) (_bufferCursor s) in
    inr (Ok (_markAsDirty (with_cursor pos s)))
  else
    with_history_of s
      (fun h => pasteLoop fuel (GetLastCommand h) s (Str.size (_buffer s)) O O)
      (inr (Ok s))
else if vkey =? VK_INSERT then
  let s := with_insertMode (negb (_insertMode s)) s in
  let scr := SetCursorDBMode (_screenInfo s) (negb (Bool.eqb (_insertMode s) (gciInsertMode s))) in
  inr (Ok (_markAsDirty (with_screen scr s)))
else if vkey =? VK_DELETE then
  inr (if (_bufferCursor s <? Str.size (_buffer s))%nat then
         b <- Str.erase (_buffer s) (_bufferCursor s)
                (size_sub (GraphemeNext (_buffer s) (_bufferCursor s)) (_bufferCursor s)) ;;
         Ok (_markAsDirty (with_buffer b s))
       else Ok s)
else if (vkey =? VK_UP) || (vkey =? VK_F5) then
  inr (Ok (with_history_of s
             (fun h =>
                if negb (AtFirstCommand h) then
                  let '(str, h) := Retrieve h Previous in
                  _replaceBuffer str (with_history (Some h) s)
                else s) s))
else if vkey =? VK_DOWN then
  inr (Ok (with_history_of s
             (fun h =>
                if negb (AtLastCommand h) then
                  let '(str, h) := Retrieve h Next in
                  _replaceBuffer str (with_history (Some h) s)
                else s) s))
else if vkey =? VK_PRIOR then
  inr (Ok (with_history_of s
             (fun h =>
                if negb (AtFirstCommand h) then
                  let '(str, h) := RetrieveNth h 0 in
                  _replaceBuffer str (with_history (Some h) s)
                else s) s))
else if vkey =? VK_NEXT then
  inr (Ok (with_history_of s
             (fun h =>
                if negb (AtLastCommand h) then
                  let '(str, h) := RetrieveNth h INT_MAX in
                  _replaceBuffer str (with_history (Some h) s)
                else s) s))
else if vkey =? VK_F2 then
  inr (with_history_of s (fun _ => _popupPush CopyToChar s) (Ok s))
else if vkey =? VK_F3 then
  inr (with_history_of s
         (fun h =>
            let last := GetLastCommand h in
            if (_bufferCursor s <? Str.size last)%nat then
              let count := size_sub (Str.size last) (_bufferCursor s) in
              b <- Str.replace (_buffer s) (_bufferCursor s) count last (_bufferCursor s) count ;;
              Ok (_markAsDirty (with_cursor (_bufferCursor s + count) (with_buffer b s)))
            else Ok s)
         (Ok s))
else if vkey =? VK_F4 then
  inr (_popupPush CopyFromChar s)
else if vkey =? VK_F6 then
  (* the commit signal of _handleChar is dropped *)
  inr (r <- _handleChar 0x1a modifiers s ;; Ok (snd r))
else if vkey =? VK_F7 then
  inr (if negb ctrlPressed && negb altPressed then
         with_history_of s
           (fun h => if negb (GetNumberOfCommands h =? 0) then _popupPush CommandList s else Ok s)
           (Ok s)
       else if altPressed then
         Ok (with_history_of s
               (fun h => with_history (Some (SetAllocated (Empty h))) s) s)
       else Ok s)
else if vkey =? VK_F8 then
  inr (Ok (with_history_of s
             (fun h =>
                let prefix := firstn (_bufferCursor s) (_buffer s) in
                match FindMatchingCommand h prefix (LastDisplayed h) with
                | Some index =>
                    let '(str, h) := RetrieveNth h index in
                    let s := with_buffer str (with_history (Some h) s) in
                    _markAsDirty
                      (with_cursor (Nat.min (_bufferCursor s) (Str.size (_buffer s))) s)
                | None => s
                end) s))
else if vkey =? VK_F9 then
  inr (with_history_of s
         (fun h => if negb (GetNumberOfCommands h =? 0) then _popupPush CommandNumber s else Ok s)
         (Ok s))
else if vkey =? VK_F10 then
  inr (Ok (if altPressed then with_aliases (ClearCmdExeAliases (aliases s)) s else s))
else
  (* assert(false): an unrecognized VK does nothing *)
  inr (Ok s).

(* ---------------------------------------------------------------- *)
(** ** Popup input *)

(** [std::stoi] on a [wchar_t] array: the text up to the first NUL, parsed as
  [wcstol] does in base 10: leading white space, an optional sign, digits. *)
Fixpoint c_str (a : list wchar) : wstring :=
match a with
| [] => []
| c :: rest => if c =? 0 then [] else c :: c_str rest
end.

Definition iswspace (c : wchar) : bool := ((9 <=? c) && (c <=? 13)) || (c =? SPACE).
Definition iswdigit (c : wchar) : bool := (48 <=? c) && (c <=? 57).

Fixpoint skip_space (s : wstring) : wstring :=
match s with
| c :: rest => if iswspace c then skip_space rest else s
| [] => []
end.

(** The value of the leading digits and how many there are. *)
Fixpoint digits (s : wstring) (acc : Z) (count : nat) : Z * nat :=
match s with
| c :: rest => if iswdigit c then digits rest (acc * 10 + (c - 48)) (S count) else (acc, count)
| [] => (acc, count)
end.

Definition stoi (a : list wchar) : Res Z :=
let s := skip_space (c_str a) in
let '(negative, s) :=
  match s with
  | 45 :: rest => (true, rest)
  | 43 :: rest => (false, rest)
  | _ => (false, s)
  end in
let '(value, count) := digits s 0 O in
if (count =? 0)%nat then Throw invalid_argument
else
  let value := if negative then - value else value in
  if (value <? - 2 ^ 31) || (value >? INT_MAX) then Throw stoi_out_of_range
  else Ok value.

(** The number a run of decimal digits denotes. *)
Definition decimalValue (ds : list wchar) : Z :=
  fold_left (fun acc d => acc * 10 + (d - 48)) ds 0.

(** [_popups.back()], and [_popups.back() = popup]. *)
Definition back (popups : list Popup) : option Popup :=
match rev popups with
| popup :: _ => Some popup
| [] => None
end.

Definition set_back_popup (popup : Popup) (s : State) : State :=
with_popups (removelast (_popups s) ++ [popup]) s.

Definition _popupHandleCopyToCharInput (wch : wchar) (vkey : Z) (s : State) : Res State :=
if negb (vkey =? 0) then
  Ok (if vkey =? VK_ESCAPE then _popupsDone s else s)
else
  match _history s with
  | None => Throw null_history
  | Some h =>
      let cmd := GetLastCommand h in
      s <- match Str.find cmd wch (_bufferCursor s) with
           | Some idx =>
               let count := size_sub idx (_bufferCursor s) in
               b <- Str.replace (_buffer s) (_bufferCursor s) count cmd (_bufferCursor s) count ;;
               Ok (_markAsDirty (with_cursor (_bufferCursor s + count) (with_buffer b s)))
           | None => Ok s
           end ;;
      Ok (_popupsDone s)
  end.

Definition _popupHandleCopyFromCharInput (wch : wchar) (vkey : Z) (s : State) : Res State :=
if negb (vkey =? 0) then
  Ok (if vkey =? VK_ESCAPE then _popupsDone s else s)
else
  let idx := Str.find (_buffer s) wch (_bufferCursor s) in
  let stop :=
    match idx with
    | Some idx => Nat.min idx (Str.size (_buffer s))
    | None => Str.size (_buffer s)          (* std::min(npos, size) *)
    end in
  b <- Str.erase (_buffer s) (_bufferCursor s) (size_sub stop (_bufferCursor s)) ;;
  Ok (_popupsDone (_markAsDirty (with_buffer b s))).

Definition _popupHandleCommandNumberInput (popup : Popup) (wch : wchar) (vkey : Z) (s : State)
: Res State :=
let cn := commandNumber popup in
if negb (vkey =? 0) then
  Ok (if vkey =? VK_ESCAPE then _popupsDone s else s)
else if wch =? UNICODE_CARRIAGERETURN then
  let cn := {| cn_buffer := array_set (cn_buffer cn) (cn_bufferSize cn) 0;
               cn_bufferSize := S (cn_bufferSize cn) |} in
  let s := set_back_popup (with_commandNumber cn popup) s in
  n <- stoi (cn_buffer cn) ;;
  match _history s with
  | None => Throw null_history
  | Some h =>
      let '(str, h) := RetrieveNth h n in
      Ok (_popupsDone (_replaceBuffer str (with_history (Some h) s)))
  end
else
  let edited :=
    if (48 <=? wch) && (wch <=? 57) then
      Some (if (cn_bufferSize cn <? CommandNumberMaxInputLength)%nat
            then {| cn_buffer := array_set (cn_buffer cn) (cn_bufferSize cn) wch;
                    cn_bufferSize := S (cn_bufferSize cn) |}
            else cn)
    else if wch =? UNICODE_BACKSPACE then
      Some (if (0 <? cn_bufferSize cn)%nat
            then {| cn_buffer := array_set (cn_buffer cn) (cn_bufferSize cn - 1) SPACE;
                    cn_bufferSize := (cn_bufferSize cn - 1)%nat |}
            else cn)
    else None in
  match edited with
  | None => Ok s
  | Some cn =>
      let s := set_back_popup (with_commandNumber cn popup) s in
      let scr :=
        TextBufferWrite (_screenInfo s) (top (contentRect popup)) false
          (firstn CommandNumberMaxInputLength (cn_buffer cn))
          (i32 (right (contentRect popup) - Z.of_nat CommandNumberMaxInputLength))
          (right (contentRect popup)) in
      Ok (with_screen scr s)
  end.

Definition _popupHandleCommandListInput (popup : Popup) (wch : wchar) (vkey : Z) (modifiers : Z)
                                      (s : State) : Res (bool * State) :=
let cl := commandList popup in
match _history s with
| None => if (wch =? UNICODE_CARRIAGERETURN) || (vkey =? VK_DELETE) || (vkey =? VK_LEFT)
             || (vkey =? VK_RIGHT) || (vkey =? VK_UP) || (vkey =? VK_DOWN)
             || (vkey =? VK_HOME) || (vkey =? VK_END) || (vkey =? VK_PRIOR) || (vkey =? VK_NEXT)
          then Throw null_history
          else if vkey =? VK_ESCAPE then Ok (false, _popupsDone s)
          else if vkey =? VK_F9 then s <- _popupPush CommandNumber s ;; Ok (false, s)
          else Ok (false, s)
| Some h =>
    let redraw h (selected : Z) (s : State) :=
      let popup := with_commandList
                     {| cl_top := cl_top cl; cl_selected := selected;
                        cl_dirtyHeight := cl_dirtyHeight cl |} popup in
      let '(scr, popup) := _popupDrawCommandList h (_screenInfo s) popup in
      Ok (false, set_back_popup popup (with_screen scr (with_history (Some h) s))) in
    if wch =? UNICODE_CARRIAGERETURN then
      let '(str, h) := RetrieveNth h (cl_selected cl) in
      let s := with_buffer str (with_history (Some h) s) in
      _handleChar UNICODE_CARRIAGERETURN modifiers (_popupsDone s)
    else if vkey =? VK_ESCAPE then Ok (false, _popupsDone s)
    else if vkey =? VK_F9 then s <- _popupPush CommandNumber s ;; Ok (false, s)
    else if vkey =? VK_DELETE then
      let h := Remove h (cl_selected cl) in
      if GetNumberOfCommands h <=? 0 then Ok (false, _popupsDone (with_history (Some h) s))
      else redraw h (cl_selected cl) s
    else if (vkey =? VK_LEFT) || (vkey =? VK_RIGHT) then
      let '(str, h) := RetrieveNth h (cl_selected cl) in
      Ok (false, _popupsDone (_replaceBuffer str (with_history (Some h) s)))
    else if vkey =? VK_UP then
      let h := if WI_IsFlagSet modifiers SHIFT_PRESSED
               then Swap h (cl_selected cl) (i32 (cl_selected cl - 1)) else h in
      redraw h (i32 (cl_selected cl - 1)) s
    else if vkey =? VK_DOWN then
      let h := if WI_IsFlagSet modifiers SHIFT_PRESSED
               then Swap h (cl_selected cl) (i32 (cl_selected cl + 1)) else h in
      redraw h (i32 (cl_selected cl + 1)) s
    else if vkey =? VK_HOME then redraw h 0 s
    else if vkey =? VK_END then redraw h INT_MAX s
    else if vkey =? VK_PRIOR then redraw h (i32 (cl_selected cl - rect_height (contentRect popup))) s
    else if vkey =? VK_NEXT then redraw h (i32 (cl_selected cl + rect_height (contentRect popup))) s
    else Ok (false, s)
end.

Definition _popupHandleInput (wch : wchar) (vkey : Z) (modifiers : Z) (s : State)
: Res (bool * State) :=
match back (_popups s) with
| None => Ok (false, s)                  (* assert(false): no popup *)
| Some popup =>
    match kind popup with
    | CopyToChar => s <- _popupHandleCopyToCharInput wch vkey s ;; Ok (false, s)
    | CopyFromChar => s <- _popupHandleCopyFromCharInput wch vkey s ;; Ok (false, s)
    | CommandNumber => s <- _popupHandleCommandNumberInput popup wch vkey s ;; Ok (false, s)
    | CommandList => _popupHandleCommandListInput popup wch vkey modifiers s
    end
end.

(* ---------------------------------------------------------------- *)
(** ** The input loop *)

(** What [GetChar] hands over: the character or virtual key, the flag it
  stored through whichever of [pCommandLineEditingKeys] and [pPopupKeys]
  it was given, and the modifiers. *)
Record Token := {
charOrVkey : Z;
isKey : bool;
modifiers : Z;
}.

(** One answer of [GetChar] that is not CONSOLE_STATUS_WAIT. *)
Inductive InputEvent :=
| Input (token : Token)
| InputFailed.                 (* a failed NTSTATUS *)

(** What one turn of the loop decides. *)
Inductive Turn :=
| Continue (s : State)
| Commit (s : State).

(** The body of the [for (;;)] of [_readCharInputLoop] after [GetChar]. *)
Definition loopBody (fuel : nat) (event : InputEvent) (s : State) : Exhausted + Res Turn :=
let hasPopup := match _popups s with [] => false | _ => true end in
match event with
| InputFailed => inr (Throw failed_status)
| Input token =>
    if hasPopup then
      let wch := if isKey token then 0 else charOrVkey token in
      let vkey := if isKey token then charOrVkey token else 0 in
      inr (r <- _popupHandleInput wch vkey (modifiers token) s ;;
           Ok (if fst r then Commit (snd r) else Continue (snd r)))
    else if isKey token then
      match _handleVkey fuel (charOrVkey token) (modifiers token) s with
      | inl hang => inl hang
      | inr r => inr (s <- r ;; Ok (Continue s))
      end
    else
      inr (r <- _handleChar (charOrVkey token) (modifiers token) s ;;
           Ok (if fst r then Commit (snd r) else Continue (snd r)))
end.

(** [_readCharInputLoop] over the events queued in the input buffer; an
  empty queue is CONSOLE_STATUS_WAIT. Returns the commit signal, the state
  and the events left in the queue. *)
Fixpoint _readCharInputLoop (fuel : nat) (input : list InputEvent) (s : State)
: Exhausted + Res (bool * State * list InputEvent) :=
match input with
| [] => inr (Ok (false, s, []))
| event :: input =>
    match loopBody fuel event s with
    | inl hang => inl hang
    | inr (Throw e) => inr (Throw e)
    | inr (Ok (Commit s)) => inr (Ok (true, s, input))
    | inr (Ok (Continue s)) => _readCharInputLoop fuel input s
    end
end.

(* ---------------------------------------------------------------- *)
(** ** After the loop *)

(** What [_handlePostCharInputLoop] leaves behind: the state, the view it
  handed to [Consume], the line count of the alias expansion, and the two
  out-parameters. *)
Record PostResult := {
post_state : State;
post_consumeInput : wstring;
post_lineCount : nat;
post_numBytes : nat;
post_controlKeyState : Z;
}.

Definition _handlePostCharInputLoop (isUnicode : bool) (s : State) : PostResult :=
let writer := _userBuffer s in
let input := _buffer s in
let '(s, input, lineCount) :=
  if echoInput s then
    let suffix := _newlineSuffix s in
    if Str.ends_with input suffix then
      let input := Str.remove_suffix input (Str.size suffix) in
      let s :=
        with_history_of s
          (fun h => with_history
                      (Some (Add h input (WI_IsFlagSet (gciFlags s) CONSOLE_HISTORY_NODUP))) s) s in
      let '(alias_, lineCount) := MatchAndCopyAlias (aliases s) input (_exeName s) 1%nat in
      let s := match alias_ with [] => s | _ => with_buffer alias_ s end in
      let input := _buffer s in
      let input :=
        if (1 <? lineCount)%nat then
          (* find(UNICODE_LINEFEED) + 1, where npos + 1 wraps to 0 *)
          let firstLineEnd :=
            match Str.find input UNICODE_LINEFEED 0 with
            | Some idx => S idx
            | None => O
            end in
          firstn (Nat.min (Str.size input) firstLineEnd) input
        else input in
      (s, input, lineCount)
    else (s, input, 1%nat)
  else (s, input, 1%nat) in
let handed := input in
let inputSizeBefore := Str.size input in
let '(input, writer) := Consume isUnicode input writer in
let pending :=
  if (1 <? lineCount)%nat then
    let inputSizeAfter := Str.size input in
    let amountConsumed := size_sub inputSizeBefore inputSizeAfter in
    let input := _buffer s in
    SavedMultilinePending (skipn (Nat.min (Str.size input) amountConsumed) input)
  else
    match input with
    | [] => pendingInput s
    | _ => SavedPending input
    end in
let s := with_pendingInput pending s in
let s := with_gciFlags (Z.lor (gciFlags s) CONSOLE_IGNORE_NEXT_KEYUP) s in
let s := with_screen (SetCursorDBMode (_screenInfo s) false) s in
{| post_state := s;
   post_consumeInput := handed;
   post_lineCount := lineCount;
   post_numBytes := size_sub (writer_size (_userBuffer s)) (writer_size writer);
   post_controlKeyState := _controlKeyState s |}.

(** [Read]: the commit signal, the state, the events left, and the result of
  the post-commit pipeline when the read is done. *)
Definition Read (fuel : nat) (isUnicode : bool) (input : list InputEvent) (s : State)
: Exhausted + Res (bool * State * list InputEvent * option PostResult) :=
match _readCharInputLoop fuel input s with
| inl hang => inl hang
| inr (Throw e) => inr (Throw e)
| inr (Ok (done, s, input)) =>
    let s := _flushBuffer s in
    if done then
      let post := _handlePostCharInputLoop isUnicode s in
      inr (Ok (done, post_state post, input, Some post))
    else inr (Ok (done, s, input, None))
end.

(* ---------------------------------------------------------------- *)
(** ** Invariants and reachable states *)

Definition caretInBounds (s : State) : Prop :=
  (_bufferCursor s <= Str.size (_buffer s))%nat.

Definition turnState (turn : Turn) : State :=
  match turn with
  | Continue s => s
  | Commit s => s
  end.

(** The states the editor can be in between two input events: it starts
    without popups, and moves by a turn of the input loop, by the flush that
    ends every [Read], or by one of the two resize entry points. *)
Inductive reachable : State -> Prop :=
| reach_start s :
    _popups s = [] -> reachable s
| reach_turn s fuel event turn :
    reachable s -> loopBody fuel event s = inr (Ok turn) -> reachable (turnState turn)
| reach_flush s :
    reachable s -> reachable (_flushBuffer s)
| reach_erase s :
    reachable s -> reachable (EraseBeforeResize s)
| reach_redraw s :
    reachable s -> reachable (RedrawAfterResize s).

(** At most two popups, and two only as CommandNumber on top of CommandList. *)
Definition popupStackShape (popups : list Popup) : Prop :=
  (length popups <= 2)%nat
  /\ (length popups = 2%nat ->
      option_map kind (nth_error popups 0) = Some CommandList
      /\ option_map kind (nth_error popups 1) = Some CommandNumber).



End Editor.

Arguments State : clear implicits.
Arguments Token : clear implicits.

(* ------------------------------------------------------------------ *)
(** ** Grapheme boundaries *)

(** The positions visited by [for (i = 0; i < size; i = GraphemeNext(text, i))],
    the walk the constructor uses to count graphemes, and the end of the text:
    [pos] is a grapheme boundary when the walk from [i] meets it. *)
Fixpoint onBoundaryFrom {text_api : TextApi} (fuel : nat) (text : wstring) (i pos : nat) : bool :=
  match fuel with
  | O => false
  | S fuel =>
      if (i =? pos)%nat then true
      else if (i <? Str.size text)%nat && (i <? pos)%nat
           then onBoundaryFrom fuel text (GraphemeNext text i) pos
           else false
  end.

Definition onGraphemeBoundary {text_api : TextApi} (text : wstring) (pos : nat) : bool :=
  onBoundaryFrom (S (Str.size text)) text O pos.

(* ------------------------------------------------------------------ *)
(** ** A small host

    The text buffer, the command history, the alias table and the client
    buffer live in other files of the host. The instances below follow what
    the spec says of them and serve to run the editor on concrete inputs. *)

Module Host.

(** Modelled from the spec: TextBuffer::GraphemeNext and GraphemePrev are not
  part of the sources here. "grapheme_next(text, i): smallest j > i such
  that [i, j) is one extended grapheme cluster (or j = len if none)"; the
  clusters kept here are a code unit followed by the combining marks
  U+0300..U+036F that extend it. *)
Definition isCombining (c : wchar) : bool := (0x300 <=? c) && (c <=? 0x36F).

Definition graphemeNext (text : wstring) (i : nat) : nat :=
if (i <? Str.size text)%nat then
  forth_while (fun p => isCombining (Str.at_ text p)) (Str.size text)
    (Str.size text - S i) (S i)
else Str.size text.

Definition graphemePrev (text : wstring) (i : nat) : nat :=
match i with
| O => O
| S j => back_while (fun p => isCombining (Str.at_ text p)) (Nat.min j (Str.size text))
end.

(** Modelled from the spec: DelimiterClass is not part of the sources here.
  "delim_class(cp) -> {Space, Word, Other} where Space is U+0020 only;
  Word is identifier-like (letters/digits/underscore and anything above
  the ASCII punctuation band); Other is everything else." *)
Definition delimiterClass (c : wchar) : Z :=
if c =? SPACE then 1
else if ((48 <=? c) && (c <=? 57)) || ((65 <=? c) && (c <=? 90)) || (c =? 95)
        || ((97 <=? c) && (c <=? 122)) || (128 <=? c) then 0
else 2.

#[global] Instance text : TextApi := {|
GraphemeNext := graphemeNext;
GraphemePrev := graphemePrev;
DelimiterClass := delimiterClass;
|}.

(** Modelled from the spec: the text buffer is a grid of [W x H] cells with
  a cursor; writing advances the cursor one cell per code unit in
  row-major order and never scrolls. *)
Record Grid := {
g_cursor : point;
g_size : size2;
g_viewportOrigin : point;
g_viewportSize : size2;
g_popupShown : bool;
g_doubleCursor : bool;
g_signals : nat;
}.

Definition grid_with_cursor (p : point) (g : Grid) : Grid :=
{| g_cursor := p; g_size := g_size g; g_viewportOrigin := g_viewportOrigin g;
   g_viewportSize := g_viewportSize g; g_popupShown := g_popupShown g;
   g_doubleCursor := g_doubleCursor g; g_signals := g_signals g |}.

Definition grid_write (g : Grid) (text : wstring) : Grid * Z :=
let w := sz_width (g_size g) in
let off := w * pt_y (g_cursor g) + pt_x (g_cursor g) + Z.of_nat (length text) in
(grid_with_cursor {| pt_x := off mod w; pt_y := off / w |} g, 0).

#[global] Instance screen : ScreenApi Grid := {|
CursorPosition := g_cursor;
BufferDimensions := g_size;
ViewportOrigin := g_viewportOrigin;
ViewportDimensions := g_viewportSize;
WriteCharsLegacy := grid_write;
SetCursorPosition := fun g p => grid_with_cursor p g;
MakeCursorVisible := fun g _ => g;
SetCursorDBMode := fun g b =>
  {| g_cursor := g_cursor g; g_size := g_size g; g_viewportOrigin := g_viewportOrigin g;
     g_viewportSize := g_viewportSize g; g_popupShown := g_popupShown g;
     g_doubleCursor := b; g_signals := g_signals g |};
SetIsPopupShown := fun g b =>
  {| g_cursor := g_cursor g; g_size := g_size g; g_viewportOrigin := g_viewportOrigin g;
     g_viewportSize := g_viewportSize g; g_popupShown := b;
     g_doubleCursor := g_doubleCursor g; g_signals := g_signals g |};
ReadConsoleOutputW := fun _ cells r => Some (cells, r);
WriteConsoleOutputW := fun g _ _ => g;
TextBufferWrite := fun g _ _ _ _ _ => g;
LoadString := fun _ => [];
SignalTextChanged := fun g =>
  {| g_cursor := g_cursor g; g_size := g_size g; g_viewportOrigin := g_viewportOrigin g;
     g_viewportSize := g_viewportSize g; g_popupShown := g_popupShown g;
     g_doubleCursor := g_doubleCursor g; g_signals := S (g_signals g) |};
|}.

(** Modelled from the spec: the command history is an indexed list of
  commands with a last-displayed index; "retrieve_nth(i)" clamps [i] to
  the last command and moves the index there. *)
Record Hist := {
h_commands : list wstring;
h_lastDisplayed : Z;
h_allocated : bool;
}.

Definition hist_count (h : Hist) : Z := Z.of_nat (length (h_commands h)).

Definition hist_nth (h : Hist) (i : Z) : wstring :=
if (i <? 0) || (hist_count h <=? i) then [] else nth (Z.to_nat i) (h_commands h) [].

Definition hist_at (i : Z) (h : Hist) : Hist :=
{| h_commands := h_commands h; h_lastDisplayed := i; h_allocated := h_allocated h |}.

Definition hist_retrieveNth (h : Hist) (i : Z) : wstring * Hist :=
let i := Z.max 0 (Z.min i (hist_count h - 1)) in
(hist_nth h i, hist_at i h).

#[global] Instance history : HistoryApi Hist := {|
GetLastCommand := fun h => hist_nth h (hist_count h - 1);
AtFirstCommand := fun h => h_lastDisplayed h <=? 0;
AtLastCommand := fun h => hist_count h - 1 <=? h_lastDisplayed h;
Retrieve := fun h d =>
  hist_retrieveNth h (match d with
                      | Previous => h_lastDisplayed h - 1
                      | Next => h_lastDisplayed h + 1
                      end);
RetrieveNth := hist_retrieveNth;
GetNth := hist_nth;
GetNumberOfCommands := hist_count;
GetCommands := h_commands;
LastDisplayed := h_lastDisplayed;
Empty := fun h => {| h_commands := []; h_lastDisplayed := -1; h_allocated := h_allocated h |};
SetAllocated := fun h =>
  {| h_commands := h_commands h; h_lastDisplayed := h_lastDisplayed h; h_allocated := true |};
FindMatchingCommand := fun _ _ _ => None;
Remove := fun h i =>
  {| h_commands := firstn (Z.to_nat i) (h_commands h) ++ skipn (S (Z.to_nat i)) (h_commands h);
     h_lastDisplayed := h_lastDisplayed h; h_allocated := h_allocated h |};
Swap := fun h _ _ => h;
Add := fun h text _ =>
  {| h_commands := h_commands h ++ [text];
     h_lastDisplayed := hist_count h; h_allocated := h_allocated h |};
|}.

(** Modelled from the spec: the alias table maps a whole line to its
  expansion and the number of lines in it; [Consume] copies UTF-16 code
  units, two bytes each, while the client buffer has room. *)
Definition AliasTable := list (wstring * (wstring * nat)).

Fixpoint alias_lookup (table : AliasTable) (input : wstring) : option (wstring * nat) :=
match table with
| [] => None
| (source, target) :: rest =>
    if list_eq_dec Z.eq_dec source input then Some target else alias_lookup rest input
end.

#[global] Instance client : ClientApi AliasTable nat := {|
MatchAndCopyAlias := fun table input _ lineCount =>
  match alias_lookup table input with
  | Some target => target
  | None => ([], lineCount)
  end;
ClearCmdExeAliases := fun table => table;
Consume := fun _ input writer =>
  let n := Nat.min (length input) (Nat.div writer 2) in
  (skipn n input, (writer - 2 * n)%nat);
writer_size := fun writer => writer;
|}.

Definition grid0 : Grid :=
{| g_cursor := {| pt_x := 0; pt_y := 0 |};
   g_size := {| sz_width := 80; sz_height := 300 |};
   g_viewportOrigin := {| pt_x := 0; pt_y := 0 |};
   g_viewportSize := {| sz_width := 80; sz_height := 25 |};
   g_popupShown := false; g_doubleCursor := false; g_signals := O |}.

(** A fresh read: empty buffer, insert mode, processed and echoed input. *)
Definition fresh (mask : Z) (h : option Hist) (table : AliasTable) (room : nat)
: State Grid Hist AliasTable nat :=
{| _buffer := []; _bufferCursor := O; _bufferDirty := false;
   _insertMode := true; _controlKeyState := 0;
   _distanceCursor := 0; _distanceEnd := 0;
   _popups := []; _history := h; _screenInfo := grid0;
   _ctrlWakeupMask := mask; _exeName := [120];
   _userBuffer := room;
   InputMode := Z.lor ENABLE_PROCESSED_INPUT ENABLE_ECHO_INPUT;
   gciInsertMode := true; gciFlags := 0;
   aliases := table; pendingInput := NoPending |}.

(** The same read after [text] was typed, the caret at [caret] and the echo
    not yet flushed. *)
Definition editing (mask : Z) (h : option Hist) (text : wstring) (caret : nat)
  : State Grid Hist AliasTable nat :=
  with_dirty true (with_cursor caret (with_buffer text (fresh mask h [] 64%nat))).

(** A history of three commands, "one", "two" and "three". *)
Definition history3 : Hist :=
  {| h_commands := [[111; 110; 101]; [116; 119; 111]; [116; 104; 114; 101; 101]];
     h_lastDisplayed := 2; h_allocated := false |}.

(** The turn the input loop takes on [event], when it takes one. *)
Definition turnOf (event : InputEvent) (s : State Grid Hist AliasTable nat) : Turn :=
  match loopBody 8 event s with
  | inr (Ok turn) => turn
  | _ => Continue s
  end.

Definition char (c : wchar) : InputEvent :=
Input {| charOrVkey := c; isKey := false; modifiers := 0 |}.
Definition key (vk : Z) (mods : Z) : InputEvent :=
Input {| charOrVkey := vk; isKey := true; modifiers := mods |}.










End Host.

(* ------------------------------------------------------------------ *)
(** ** The WSL distribution generator
    (src/cascadia/TerminalSettingsModel/WslDistroGenerator.cpp)

    [_legacyGenerate] runs [wsl.exe --list] and turns each line of its output
    after the header into a profile. The model is the body of that loop: what
    one line becomes. *)

Module WslDistroGenerator.

(** L"docker-desktop" *)
Definition DockerDistributionPrefix : wstring :=
  [100; 111; 99; 107; 101; 114; 45; 100; 101; 115; 107; 116; 111; 112].

(** L"wsl.exe -d " *)
Definition CommandlinePrefix : wstring :=
  [119; 115; 108; 46; 101; 120; 101; 32; 45; 100; 32].

(** L"Campbell" *)
Definition Campbell : wstring := [67; 97; 109; 112; 98; 101; 108; 108].

(** [std::getline(stream, line, delim)] on a stream holding [s]: the
    characters before the first [delim], or all of them. *)
Fixpoint getline (s : wstring) (delim : wchar) : wstring :=
  match s with
  | [] => []
  | c :: rest => if c =? delim then [] else c :: getline rest delim
  end.

(** [s.find_first_of(set)], counting from [idx]; [None] is [npos]. *)
Fixpoint find_first_of (s set : wstring) (idx : nat) : option nat :=
  match s with
  | [] => None
  | c :: rest =>
      if existsb (Z.eqb c) set then Some idx else find_first_of rest set (S idx)
  end.

(** [a == b] on strings. *)
Definition wstring_eqb (a b : wstring) : bool :=
  if list_eq_dec Z.eq_dec a b then true else false.

(** What the loop sets on a profile: the name it hands to
    [CreateDefaultProfile], the command line and the colour scheme. The
    starting directory and the icon are constants of other headers. *)
Record Profile := {
  Name : wstring;
  Commandline : wstring;
  ColorSchemeName : wstring;
}.

(** The body of the [while] loop for the line [wline]: [None] is [continue],
    [Some] is the profile appended to [profiles]. *)
Definition profileOfLine (wline : wstring) : option Profile :=
  let distName := getline wline 13 in
  if wstring_eqb
       (firstn (Nat.min (Str.size distName) (Str.size DockerDistributionPrefix)) distName)
       DockerDistributionPrefix
  then None
  else
    let firstChar := find_first_of distName [40; 32] O in
    let distName :=
      match firstChar with
      | Some firstChar =>
          if (firstChar <? Str.size distName)%nat then firstn firstChar distName else distName
      | None => distName
      end in
    Some {| Name := distName;
            Commandline := CommandlinePrefix ++ distName;
            ColorSchemeName := Campbell |}.

(** The profiles collected from the lines that follow the header. *)
Fixpoint profilesOfLines (lines : list wstring) : list Profile :=
  match lines with
  | [] => []
  | wline :: lines =>
      match profileOfLine wline with
      | Some profile => profile :: profilesOfLines lines
      | None => profilesOfLines lines
      end
  end.

End WslDistroGenerator.

(* ================================================================== *)
(** * Properties *)

(* ------------------------------------------------------------------ *)
(** ** The two loops of the word motions *)

Lemma back_while_le (cond : nat -> bool) (position : nat) :
  (back_while cond position <= position)%nat.
Proof.
  induction position as [|p IH]; simpl; [lia|].
  destruct (cond (S p)); lia.
Qed.

(** Where the backward loop stops its condition fails, unless it reached 0. *)
Lemma back_while_stop (cond : nat -> bool) (position : nat) :
  back_while cond position = O \/ cond (back_while cond position) = false.
Proof.
  induction position as [|p IH]; simpl; [now left|].
  destruct (cond (S p)) eqn:E; [exact IH | now right].
Qed.

(** Everything the backward loop stepped over satisfied its condition. *)
Lemma back_while_run (cond : nat -> bool) (position j : nat) :
  (back_while cond position < j <= position)%nat -> cond j = true.
Proof.
  induction position as [|p IH]; simpl; [lia|].
  destruct (cond (S p)) eqn:E; [|lia].
  intros H. destruct (Nat.eq_dec j (S p)) as [->|Hne]; [exact E|].
  apply IH; lia.
Qed.

Lemma forth_while_ge (cond : nat -> bool) (size fuel position : nat) :
  (position <= forth_while cond size fuel position)%nat.
Proof.
  revert position; induction fuel as [|f IH]; intros position; simpl; [lia|].
  destruct (negb (position =? size)%nat && cond position); [|lia].
  specialize (IH (S position)); lia.
Qed.

Lemma forth_while_le (cond : nat -> bool) (size fuel position : nat) :
  (position <= size)%nat -> (forth_while cond size fuel position <= size)%nat.
Proof.
  revert position; induction fuel as [|f IH]; intros position Hle; simpl; [lia|].
  destruct (position =? size)%nat eqn:E; simpl; [lia|].
  apply Nat.eqb_neq in E.
  destruct (cond position); [apply IH|]; lia.
Qed.

(** With [size - position] iterations to spend the forward loop ends because
    its condition fails or the end of the text is reached, never for lack of
    fuel. *)
Lemma forth_while_stop (cond : nat -> bool) (size fuel position : nat) :
  (position <= size)%nat -> (size - position <= fuel)%nat ->
  forth_while cond size fuel position = size
  \/ cond (forth_while cond size fuel position) = false.
Proof.
  revert position; induction fuel as [|f IH]; intros position Hle Hfuel; simpl.
  - left; lia.
  - destruct (position =? size)%nat eqn:E; simpl.
    + apply Nat.eqb_eq in E; now left.
    + apply Nat.eqb_neq in E.
      destruct (cond position) eqn:C; [apply IH; lia | now right].
Qed.

(** The forward loop runs through every stretch on which its condition holds. *)
Lemma forth_while_through (cond : nat -> bool) (size fuel position bound : nat) :
  (bound <= size)%nat -> (size - position <= fuel)%nat ->
  (forall j, (position <= j < bound)%nat -> cond j = true) ->
  (bound <= forth_while cond size fuel position \/ bound <= position)%nat.
Proof.
  revert position; induction fuel as [|f IH]; intros position Hb Hfuel Hrun; simpl.
  - right; lia.
  - destruct (Nat.le_gt_cases bound position) as [Hdone|Hlt]; [now right|].
    assert (E : (position =? size)%nat = false) by (apply Nat.eqb_neq; lia).
    rewrite E, (Hrun position) by lia; simpl.
    destruct (IH (S position)) as [H|H]; try lia.
    + intros j Hj; apply Hrun; lia.
    + left. pose proof (forth_while_ge cond size f (S position)); lia.
Qed.

Lemma forth_while_reaches (cond : nat -> bool) (size fuel position bound : nat) :
  (bound <= size)%nat -> (size - position <= fuel)%nat ->
  (forall j, (position <= j < bound)%nat -> cond j = true) ->
  (bound <= forth_while cond size fuel position \/ bound <= position)%nat ->
  (bound <= Nat.max position (forth_while cond size fuel position))%nat.
Proof. intros; lia. Qed.

(** Everything the forward loop stepped over satisfied its condition. *)
Lemma forth_while_run (cond : nat -> bool) (size fuel position j : nat) :
  (position <= j < forth_while cond size fuel position)%nat -> cond j = true.
Proof.
  revert position; induction fuel as [|f IH]; intros position; simpl; [lia|].
  destruct (negb (position =? size)%nat && cond position) eqn:E; [|lia].
  apply andb_prop in E as [_ C]. intros H.
  destruct (Nat.eq_dec j position) as [->|Hne]; [exact C|].
  apply (IH (S position)); lia.
Qed.

Section WordMotionFacts.

Variable DC : wchar -> Z.

Lemma _wordPrev_le (chars : wstring) (position : nat) :
(_wordPrev DC chars position <= position)%nat.
Proof.
unfold _wordPrev. destruct (position =? 0)%nat eqn:E; [lia|].
apply Nat.eqb_neq in E.
etransitivity; [apply back_while_le|].
etransitivity; [apply back_while_le|]. lia.
Qed.

Lemma _wordNext_ge (chars : wstring) (position : nat) :
(position <= _wordNext DC chars position)%nat.
Proof.
unfold _wordNext. destruct (position <? Str.size chars)%nat; [|lia].
etransitivity; [|apply forth_while_ge].
etransitivity; [|apply forth_while_ge]. lia.
Qed.

Lemma _wordNext_le (chars : wstring) (position : nat) :
(position <= Str.size chars)%nat -> (_wordNext DC chars position <= Str.size chars)%nat.
Proof.
intros Hle. unfold _wordNext.
destruct (position <? Str.size chars)%nat eqn:E; [|lia].
apply Nat.ltb_lt in E.
apply forth_while_le, forth_while_le. lia.
Qed.

(** Going a word back and then a word forth does not fall short of the start. *)
Lemma _wordNext_wordPrev (chars : wstring) (i : nat) :
(i <= Str.size chars)%nat -> (i <= _wordNext DC chars (_wordPrev DC chars i))%nat.
Proof.
intros Hi. destruct i as [|i]; [lia|].
unfold _wordPrev; simpl (S i =? 0)%nat; cbv iota.
replace (S i - 1)%nat with i by lia.
set (isSpace := fun p => Str.at_ chars p =? SPACE).
set (q := back_while isSpace i).
set (dc := DC (Str.at_ chars q)).
set (sameBefore := fun p => DC (Str.at_ chars (p - 1)) =? dc).
set (r := back_while sameBefore q).
assert (Hq : (q <= i)%nat) by apply back_while_le.
assert (Hr : (r <= q)%nat) by apply back_while_le.
assert (Hspaces : forall j, (q < j <= i)%nat -> isSpace j = true)
  by (intros; now apply (back_while_run isSpace i)).
assert (Hclass : forall j, (r <= j <= q)%nat -> DC (Str.at_ chars j) = dc).
{ intros j Hj. destruct (Nat.eq_dec j q) as [->|Hne]; [reflexivity|].
  assert (H : sameBefore (S j) = true) by (apply (back_while_run sameBefore q); fold r; lia).
  unfold sameBefore in H. replace (S j - 1)%nat with j in H by lia.
  now apply Z.eqb_eq in H. }
unfold _wordNext.
assert (E : (r <? Str.size chars)%nat = true) by (apply Nat.ltb_lt; lia).
rewrite E. replace (S r - 1)%nat with r by lia.
rewrite (Hclass r) by lia.
set (sameAfter := fun p => dc =? DC (Str.at_ chars p)).
set (a := forth_while sameAfter (Str.size chars) (Str.size chars - S r) (S r)).
assert (Ha : (S q <= a)%nat).
{ assert (Hrun : forall j, (S r <= j < S q)%nat -> sameAfter j = true).
  { intros j Hj. unfold sameAfter. apply Z.eqb_eq. symmetry. apply Hclass; lia. }
  pose proof (forth_while_through sameAfter (Str.size chars) (Str.size chars - S r) (S r) (S q)
                ltac:(lia) ltac:(lia) Hrun) as H.
  fold a in H.
  pose proof (forth_while_ge sameAfter (Str.size chars) (Str.size chars - S r) (S r)) as H0.
  fold a in H0. lia. }
assert (Hale : (a <= Str.size chars)%nat) by (apply forth_while_le; lia).
assert (Hrun : forall j, (a <= j < S i)%nat -> isSpace j = true)
  by (intros j Hj; apply Hspaces; lia).
change (S i <= forth_while isSpace (Str.size chars) (Str.size chars - a) a)%nat.
assert (B1 : (S i <= Str.size chars)%nat) by lia.
assert (B2 : (Str.size chars - a <= Str.size chars - a)%nat) by lia.
pose proof (forth_while_through isSpace (Str.size chars) (Str.size chars - a) a (S i)
              B1 B2 Hrun) as H.
pose proof (forth_while_ge isSpace (Str.size chars) (Str.size chars - a) a). lia.
Qed.

(** Going a word forth and then a word back does not overshoot the start. *)
Lemma _wordPrev_wordNext (chars : wstring) (i : nat) :
(i <= Str.size chars)%nat -> (_wordPrev DC chars (_wordNext DC chars i) <= i)%nat.
Proof.
intros Hi. unfold _wordNext.
destruct (i <? Str.size chars)%nat eqn:E; [|apply _wordPrev_le].
apply Nat.ltb_lt in E.
replace (S i - 1)%nat with i by lia.
set (dc := DC (Str.at_ chars i)).
set (sameAfter := fun p => dc =? DC (Str.at_ chars p)).
set (isSpace := fun p => Str.at_ chars p =? SPACE).
set (a := forth_while sameAfter (Str.size chars) (Str.size chars - S i) (S i)).
set (n := forth_while isSpace (Str.size chars) (Str.size chars - a) a).
assert (Ha : (S i <= a)%nat) by apply forth_while_ge.
assert (Hn : (a <= n)%nat) by apply forth_while_ge.
assert (Hclass : forall j, (i <= j < a)%nat -> DC (Str.at_ chars j) = dc).
{ intros j Hj. destruct (Nat.eq_dec j i) as [->|Hne]; [reflexivity|].
  assert (H : sameAfter j = true)
    by (apply (forth_while_run sameAfter (Str.size chars) (Str.size chars - S i) (S i));
        fold a; lia).
  unfold sameAfter in H. apply Z.eqb_eq in H. now symmetry. }
assert (Hspaces : forall j, (a <= j < n)%nat -> isSpace j = true).
{ intros j Hj.
  apply (forth_while_run isSpace (Str.size chars) (Str.size chars - a) a). fold n. lia. }
change (_wordPrev DC chars n <= i)%nat.
unfold _wordPrev.
assert (En : (n =? 0)%nat = false) by (apply Nat.eqb_neq; lia).
rewrite En.
set (q := back_while isSpace (n - 1)).
set (dc' := DC (Str.at_ chars q)).
set (sameBefore := fun p => DC (Str.at_ chars (p - 1)) =? dc').
set (r := back_while sameBefore q).
assert (Hq : (q <= n - 1)%nat) by apply back_while_le.
assert (Hr : (r <= q)%nat) by apply back_while_le.
change (r <= i)%nat.
destruct (Nat.le_gt_cases q i) as [|Hqi]; [lia|].
assert (Hqa : (q < a)%nat).
{ destruct (Nat.le_gt_cases a q) as [Haq|]; [|assumption].
  destruct (back_while_stop isSpace (n - 1)) as [H|H]; fold q in H; [lia|].
  rewrite Hspaces in H by lia. discriminate. }
assert (Hdc : dc' = dc) by (apply Hclass; lia).
destruct (Nat.le_gt_cases r i) as [|Hri]; [assumption|].
destruct (back_while_stop sameBefore q) as [H|H]; fold r in H; [lia|].
unfold sameBefore in H. rewrite Hdc, Hclass in H by lia.
rewrite Z.eqb_refl in H. discriminate.
Qed.

End WordMotionFacts.

(** C2, as stated, fails: on the text "a b" at position 1 a word back leads to
    0 and a word forth from there to 2, past the start; a word forth from 1
    leads to 2 and a word back from there to 0, short of the start. *)
Lemma C2_roundTrips_stated_fail :
  let text : wstring := [97; 32; 98] in
  ~ (_wordNext Host.delimiterClass text (_wordPrev Host.delimiterClass text 1) <= 1)%nat
  /\ ~ (1 <= _wordPrev Host.delimiterClass text (_wordNext Host.delimiterClass text 1))%nat.
Proof. vm_compute. split; lia. Qed.

(** C2 (amended). For every delimiter classification, every text and every
    position [i] in it, the round trips bracket the start from the other
    side: a word back then a word forth ends at or after [i], and a word
    forth then a word back ends at or before [i]. *)
Theorem C2_roundTrips (DC : wchar -> Z) (text : wstring) (i : nat) :
  (i <= Str.size text)%nat ->
  (i <= _wordNext DC text (_wordPrev DC text i))%nat
  /\ (_wordPrev DC text (_wordNext DC text i) <= i)%nat.
Proof.
  intros Hi. split.
  - now apply _wordNext_wordPrev.
  - now apply _wordPrev_wordNext.
Qed.

Lemma C2_roundTrips_witness :
  let text : wstring := [97; 32; 98] in
  (1 <= _wordNext Host.delimiterClass text (_wordPrev Host.delimiterClass text 1))%nat
  /\ (_wordPrev Host.delimiterClass text (_wordNext Host.delimiterClass text 1) <= 1)%nat.
Proof. apply (C2_roundTrips Host.delimiterClass [97; 32; 98] 1). simpl. lia. Defined.
(* ------------------------------------------------------------------ *)
(** ** Bits of the wakeup mask *)

Lemma testbit_one (k : Z) : Z.testbit 1 k = (k =? 0).
Proof.
  destruct k as [|p|p]; reflexivity.
Qed.

Lemma wakeup_bit (mask wch : Z) :
  0 <= wch -> (Z.land mask (Z.shiftl 1 wch) =? 0) = negb (Z.testbit mask wch).
Proof.
  intros Hw. destruct (Z.testbit mask wch) eqn:B; simpl.
  - apply Z.eqb_neq. intros H.
    assert (T : Z.testbit (Z.land mask (Z.shiftl 1 wch)) wch = true).
    { rewrite Z.land_spec, B, Z.shiftl_spec, Z.sub_diag by lia. reflexivity. }
    rewrite H, Z.bits_0 in T. discriminate.
  - apply Z.eqb_eq. apply Z.bits_inj_iff. intros n.
    rewrite Z.bits_0, Z.land_spec.
    destruct (Z.eq_dec n wch) as [->|Hne]; [now rewrite B|].
    destruct (Z.neg_nonneg_cases n) as [Hn|Hn].
    + rewrite (Z.testbit_neg_r _ n) by lia. reflexivity.
    + rewrite Z.shiftl_spec, testbit_one by lia.
      replace (n - wch =? 0) with false by (symmetry; apply Z.eqb_neq; lia).
      apply andb_false_r.
Qed.

Lemma i32_small (x : Z) : - 2 ^ 31 <= x <= INT_MAX -> i32 x = x.
Proof.
  unfold i32, INT_MAX. intros H.
  rewrite Z.mod_small by lia. lia.
Qed.


Section EchoFacts.

Context {Screen History Aliases Writer : Type}.
Context {text_api : TextApi}.
Context {screen_api : ScreenApi Screen}.
Context {history_api : HistoryApi History}.
Context {client_api : ClientApi Aliases Writer}.

Implicit Types s : State Screen History Aliases Writer.


(** What a flush leaves outside the echo: buffer, popups, history, modes. *)
Lemma _flushBuffer_frame s :
  _buffer (_flushBuffer s) = _buffer s
  /\ _bufferCursor (_flushBuffer s) = Nat.min (_bufferCursor s) (Str.size (_buffer s))
  /\ _popups (_flushBuffer s) = _popups s
  /\ _history (_flushBuffer s) = _history s
  /\ _insertMode (_flushBuffer s) = _insertMode s
  /\ _controlKeyState (_flushBuffer s) = _controlKeyState s
  /\ _ctrlWakeupMask (_flushBuffer s) = _ctrlWakeupMask s
  /\ InputMode (_flushBuffer s) = InputMode s.
Proof.
  unfold _flushBuffer. cbn.
  destruct (_bufferDirty s); cbn; [|repeat split].
  unfold echoInput; cbn.
  destruct (WI_IsFlagSet (InputMode s) ENABLE_ECHO_INPUT); cbn; [|repeat split].
  repeat match goal with |- context [let '(_, _) := ?x in _] => destruct x end.
  cbn. repeat split.
Qed.

Lemma _flushBuffer_clean s : _bufferDirty (_flushBuffer s) = false.
Proof.
  unfold _flushBuffer. cbn.
  destruct (_bufferDirty s) eqn:D; cbn; [|exact D].
  reflexivity.
Qed.

End EchoFacts.

(* ------------------------------------------------------------------ *)
(** ** The two commit conditions of [_handleChar] *)

Section CommitFacts.

Context {Screen History Aliases Writer : Type}.
Context {text_api : TextApi}.
Context {screen_api : ScreenApi Screen}.
Context {history_api : HistoryApi History}.
Context {client_api : ClientApi Aliases Writer}.

Implicit Types s : State Screen History Aliases Writer.

(** The guard of the wakeup branch, in terms of the bit of the mask. *)
Lemma wakeup_guard s (wch : wchar) :
  0 <= wch ->
  negb (_ctrlWakeupMask s =? 0) && (wch <? SPACE)
    && negb (Z.land (_ctrlWakeupMask s) (Z.shiftl 1 wch) =? 0)
  = (wch <? SPACE) && Z.testbit (_ctrlWakeupMask s) wch.
Proof.
  intros Hw. rewrite wakeup_bit, negb_involutive by assumption.
  destruct (_ctrlWakeupMask s =? 0) eqn:E; simpl; [|reflexivity].
  apply Z.eqb_eq in E. rewrite E, Z.bits_0. now rewrite andb_false_r.
Qed.

(** C3. For a control character below 0x20 whose bit is set in the wakeup
    mask, [_handleChar] flushes the echo, inserts the character at the caret
    whatever the insert mode, moves the caret one code unit on, stores the
    modifiers in [_controlKeyState] and signals the commit. *)
Theorem C3_ctrlWakeup s (wch : wchar) (modifiers : Z) :
  0 <= wch < 32 ->
  Z.testbit (_ctrlWakeupMask s) wch = true ->
  (_bufferCursor s <= Str.size (_buffer s))%nat ->
  let flushed := _flushBuffer s in
  let caret := _bufferCursor s in
  _handleChar wch modifiers s =
    Ok (true,
        with_controlKeyState modifiers
          (with_cursor (S caret)
             (with_buffer (firstn caret (_buffer s) ++ wch :: skipn caret (_buffer s)) flushed)))
  /\ _bufferDirty flushed = false.
Proof.
  intros Hw Hbit Hcaret flushed caret.
  split; [|apply _flushBuffer_clean].
  unfold _handleChar.
  rewrite wakeup_guard, Hbit by lia.
  replace (wch <? SPACE) with true by (symmetry; apply Z.ltb_lt; unfold SPACE; lia).
  cbn [andb].
  destruct (_flushBuffer_frame s) as (Hb & Hc & _).
  fold flushed in Hb, Hc |- *.
  rewrite Hb, Hc, Nat.min_l by assumption. fold caret.
  unfold Str.insert.
  replace (Str.size (_buffer s) <? caret)%nat with false
    by (symmetry; apply Nat.ltb_ge; assumption).
  reflexivity.
Qed.

(** C4 (amended). When carriage return is not itself a wakeup character,
    [_handleChar] appends "\r\n" if processed input is enabled and "\r"
    otherwise, puts the caret at the end of the buffer, marks the buffer dirty
    and signals the commit. *)
Theorem C4_carriageReturn s (modifiers : Z) :
  Z.testbit (_ctrlWakeupMask s) UNICODE_CARRIAGERETURN = false ->
  let suffix := if processedInput s then [UNICODE_CARRIAGERETURN; UNICODE_LINEFEED]
                else [UNICODE_CARRIAGERETURN] in
  _handleChar UNICODE_CARRIAGERETURN modifiers s =
    Ok (true,
        with_dirty true
          (with_cursor (Str.size (_buffer s ++ suffix)) (with_buffer (_buffer s ++ suffix) s))).
Proof.
  intros Hbit suffix. unfold _handleChar.
  rewrite wakeup_guard, Hbit by (unfold UNICODE_CARRIAGERETURN; lia).
  rewrite andb_false_r. reflexivity.
Qed.

End CommitFacts.

Lemma C3_ctrlWakeup_witness :
  let s := Host.editing 512 None [97; 98] 2 in
  _handleChar 9 16 s =
    Ok (true,
        with_controlKeyState 16
          (with_cursor 3 (with_buffer [97; 98; 9] (_flushBuffer s))))
  /\ _bufferDirty (_flushBuffer s) = false.
Proof.
  intros s. apply (C3_ctrlWakeup s 9 16).
  - lia.
  - reflexivity.
  - simpl. lia.
Defined.

(** C4, as stated, fails when carriage return is a wakeup character: with
    bit 13 of the mask set, "ab" and the caret at 0, the wakeup branch runs
    first and the read ends on "\rab", the caret at 1 and the echo flushed. *)
Lemma C4_carriageReturn_stated_fail :
  let s := Host.editing 8192 None [97; 98] 0 in
  exists s',
    _handleChar UNICODE_CARRIAGERETURN 0 s = Ok (true, s')
    /\ _buffer s' = [13; 97; 98]
    /\ _buffer s' <> _buffer s ++ [13; 10]
    /\ _bufferCursor s' = 1%nat
    /\ _bufferDirty s' = false.
Proof.
  eexists. split; [vm_compute; reflexivity|].
  vm_compute. repeat split; discriminate.
Qed.

Lemma C4_carriageReturn_witness :
  let s := Host.editing 512 None [104; 105] 2 in
  _handleChar UNICODE_CARRIAGERETURN 0 s =
    Ok (true, with_dirty true (with_cursor 4 (with_buffer [104; 105; 13; 10] s))).
Proof.
  intros s. apply (C4_carriageReturn s 0). reflexivity.
Defined.

(* ------------------------------------------------------------------ *)
(** ** What the popup machinery changes *)

Lemma Ok_inj {A} (a b : A) : Ok a = Ok b -> a = b.
Proof. intros H; injection H; auto. Qed.

Lemma Ok_pair_inj {A B} (a c : A) (b d : B) : Ok (a, b) = Ok (c, d) -> a = c /\ b = d.
Proof. intros H; injection H; auto. Qed.

Lemma removelast_snoc {A} (l : list A) (x : A) : removelast (l ++ [x]) = l.
Proof. apply removelast_last. Qed.

(** Reduces the projections of a state built by the setters, and nothing else. *)
Ltac fields :=
  cbn [_buffer _bufferCursor _bufferDirty _insertMode _controlKeyState _distanceCursor
       _distanceEnd _popups _history _screenInfo _ctrlWakeupMask _exeName _userBuffer
       InputMode gciInsertMode gciFlags aliases pendingInput
       with_buffer with_cursor with_dirty with_insertMode with_controlKeyState
       with_distances with_popups with_history with_screen with_gciFlags with_aliases
       with_pendingInput _markAsDirty _replaceBuffer _popupsDone set_back_popup
       kind with_backup with_commandNumber with_commandList
       fst snd bind turnState] in *.

(** Splits the goal on the first test or match it contains. *)
Ltac branch :=
  match goal with
  | |- context [match ?x with _ => _ end] =>
      lazymatch x with
      | context [match _ with _ => _ end] => fail
      | _ => destruct x eqn:?
      end
  end.

(** Turns [Ok x = Ok y] hypotheses into substitutions. *)
Ltac ok_inv :=
  repeat match goal with
  | H : Throw _ = Ok _ |- _ => discriminate H
  | H : inl _ = inr _ |- _ => discriminate H
  | H : inr _ = inr _ |- _ => injection H as H
  | H : Ok (_, _) = Ok (_, _) |- _ => apply Ok_pair_inj in H; destruct H
  | H : Ok _ = Ok _ |- _ => apply Ok_inj in H
  end; subst.

Section PopupFacts.

Context {Screen History Aliases Writer : Type}.
Context {text_api : TextApi}.
Context {screen_api : ScreenApi Screen}.
Context {history_api : HistoryApi History}.
Context {client_api : ClientApi Aliases Writer}.

Implicit Types s : State Screen History Aliases Writer.

Lemma back_snoc (popups : list Popup) (popup : Popup) : back (popups ++ [popup]) = Some popup.
Proof. unfold back. rewrite rev_app_distr. reflexivity. Qed.

Lemma back_some (popups : list Popup) (popup : Popup) :
  back popups = Some popup -> popups = removelast popups ++ [popup].
Proof.
  unfold back. destruct (rev popups) as [|p rest] eqn:E; [discriminate|].
  intros H; injection H as ->.
  apply (f_equal (@rev Popup)) in E. rewrite rev_involutive in E. simpl in E.
  rewrite E, removelast_snoc. reflexivity.
Qed.

Lemma back_none (popups : list Popup) : back popups = None -> popups = [].
Proof.
  unfold back. destruct (rev popups) as [|p rest] eqn:E; [|discriminate].
  intros _. apply (f_equal (@rev Popup)) in E. now rewrite rev_involutive in E.
Qed.

Lemma _popupDrawCommandList_kind (h : History) (scr : Screen) (popup : Popup) :
  kind (snd (_popupDrawCommandList h scr popup)) = kind popup.
Proof. reflexivity. Qed.

(** A push leaves the stack as it was, or empties it (a failed backup), or
    adds one popup of the kind asked for; the buffer is untouched and the
    caret is at most clamped by the flush. *)
Lemma _popupPush_effect (k : PopupKind) s s' :
  _popupPush k s = Ok s' ->
  (_popups s' = _popups s \/ _popups s' = []
   \/ exists popup, _popups s' = _popups s ++ [popup] /\ kind popup = k)
  /\ _buffer s' = _buffer s
  /\ (_bufferCursor s' = _bufferCursor s
      \/ _bufferCursor s' = Nat.min (_bufferCursor s) (Str.size (_buffer s)))
  /\ _history s' = _history s.
Proof.
  unfold _popupPush.
  destruct (proposedSize k s) as [proposed|e]; [|discriminate]. cbn [bind].
  match goal with |- (if ?c then _ else _) = _ -> _ => destruct c end.
  { intros H; apply Ok_inj in H; subst s'. repeat split; auto. }
  set (popup0 := Build_Popup _ _ _ _ _ _).
  set (s1 := _flushBuffer (with_popups (_popups s ++ [popup0]) s)).
  destruct (_flushBuffer_frame (with_popups (_popups s ++ [popup0]) s))
    as (Hb & Hc & Hp & Hh & _).
  fold s1 in Hb, Hc, Hp, Hh.
  cbn [_buffer _bufferCursor _popups _history with_popups] in Hb, Hc, Hp, Hh.
  destruct (ReadConsoleOutputW _ _ _) as [[cells readRect]|].
  2:{ intros H; apply Ok_inj in H; subst s'.
      cbn [_buffer _bufferCursor _popups _history _popupsDone with_popups with_screen].
      rewrite Hb, Hc, Hh. repeat split; auto. }
  match goal with
  | |- bind ?d _ = _ -> _ => destruct d as [[scr popup]|e] eqn:D; [|discriminate]
  end.
  cbn [bind]. intros H; apply Ok_inj in H; subst s'.
  cbn [_buffer _bufferCursor _popups _history with_popups with_screen].
  rewrite Hb, Hc, Hh, Hp, removelast_snoc.
  split; [|repeat split; auto].
  right; right. exists popup. split; [reflexivity|].
  destruct k.
  - apply Ok_inj, (f_equal snd) in D. cbn [snd] in D. now rewrite <- D.
  - apply Ok_inj, (f_equal snd) in D. cbn [snd] in D. now rewrite <- D.
  - apply Ok_inj, (f_equal snd) in D. cbn [snd] in D. now rewrite <- D.
  - destruct (_history s1); [|discriminate].
    apply Ok_inj, (f_equal snd) in D. cbn [snd] in D.
    rewrite <- D, _popupDrawCommandList_kind. reflexivity.
Qed.

(** Character input never touches the popup stack or swaps the history. *)
Lemma _handleChar_popups (wch : wchar) (mods : Z) s (commit : bool) s' :
  _handleChar wch mods s = Ok (commit, s') -> _popups s' = _popups s.
Proof.
  unfold _handleChar, bind.
  destruct (_flushBuffer_frame s) as (_ & _ & Hp & _).
  repeat branch; intros H; ok_inv; fields; auto.
Qed.

Lemma pasteLoop_popups (fuel : nat) (cmd : wstring) s (bufferSize cmdBeg bufferBeg : nat) s' :
  pasteLoop fuel cmd s bufferSize cmdBeg bufferBeg = inr (Ok s') -> _popups s' = _popups s.
Proof.
  revert cmdBeg bufferBeg. induction fuel as [|fuel IH]; intros cmdBeg bufferBeg; simpl.
  - discriminate.
  - unfold bind. repeat branch; intros H; ok_inv; fields; auto.
    eapply IH; eassumption.
Qed.

(** The three shapes a popup stack can have. *)
Lemma popupStackShape_cases (popups : list Popup) :
  popupStackShape popups <->
  popups = [] \/ (exists p, popups = [p])
  \/ (exists p0 p1, popups = [p0; p1] /\ kind p0 = CommandList /\ kind p1 = CommandNumber).
Proof.
  unfold popupStackShape. split.
  - intros [Hlen Hkinds].
    destruct popups as [|p0 [|p1 [|p2 rest]]]; simpl in *; try lia; eauto.
    destruct (Hkinds eq_refl) as [H0 H1]. injection H0 as H0. injection H1 as H1.
    right; right; eauto.
  - intros [->|[[p ->]|(p0 & p1 & -> & H0 & H1)]]; simpl; split; try lia.
    intros _. now rewrite H0, H1.
Qed.

End PopupFacts.

(* ------------------------------------------------------------------ *)
(** ** The shape of the popup stack *)

Section StackShape.

Context {Screen History Aliases Writer : Type}.
Context {text_api : TextApi}.
Context {screen_api : ScreenApi Screen}.
Context {history_api : HistoryApi History}.
Context {client_api : ClientApi Aliases Writer}.

Implicit Types s : State Screen History Aliases Writer.

(** Without a popup on screen a virtual key opens at most one. *)
Lemma _handleVkey_popups (fuel : nat) (vkey mods : Z) s s' :
  _popups s = [] ->
  _handleVkey fuel vkey mods s = inr (Ok s') ->
  _popups s' = [] \/ exists popup, _popups s' = [popup].
Proof.
  intros Hnone. unfold _handleVkey, with_history_of, bind.
  repeat branch; intros H; ok_inv; fields; auto;
    try match goal with
        | H : _popupPush _ _ = Ok _ |- _ =>
            apply _popupPush_effect in H; destruct H as ([H|[H|(p & H & _)]] & _);
            rewrite H, ?Hnone; simpl; eauto
        | H : pasteLoop _ _ _ _ _ _ = inr (Ok _) |- _ =>
            apply pasteLoop_popups in H; rewrite H; auto
        | H : _handleChar _ _ _ = Ok ?p |- _ =>
            destruct p; apply _handleChar_popups in H; fields; rewrite H; auto
        end.
Qed.

Lemma set_back_popup_shape (popup popup' : Popup) s :
  back (_popups s) = Some popup -> kind popup' = kind popup ->
  popupStackShape (_popups s) ->
  popupStackShape (removelast (_popups s) ++ [popup']).
Proof.
  intros Hback Hkind Hshape. apply popupStackShape_cases in Hshape.
  apply popupStackShape_cases.
  destruct Hshape as [E|[[p E]|(p0 & p1 & E & H0 & H1)]]; rewrite E in *.
  - discriminate.
  - right; left. simpl. eauto.
  - right; right. exists p0, popup'. simpl. repeat split; auto.
    unfold back in Hback; simpl in Hback. injection Hback as <-. congruence.
Qed.

(** Input handed to the top popup keeps the stack in shape. *)
Lemma _popupHandleInput_shape (wch vkey mods : Z) s (commit : bool) s' :
  popupStackShape (_popups s) ->
  _popupHandleInput wch vkey mods s = Ok (commit, s') ->
  popupStackShape (_popups s').
Proof.
  intros Hshape. unfold _popupHandleInput.
  destruct (back (_popups s)) as [popup|] eqn:Hback.
  2:{ intros H; ok_inv. assumption. }
  assert (Hempty : popupStackShape (@nil Popup)) by (apply popupStackShape_cases; auto).
  destruct (kind popup) eqn:Hkind.
  - unfold _popupHandleCopyToCharInput, bind.
    repeat branch; intros H; ok_inv; fields; auto.
  - unfold _popupHandleCopyFromCharInput, bind.
    repeat branch; intros H; ok_inv; fields; auto.
  - unfold _popupHandleCommandNumberInput, bind.
    repeat branch; intros H; ok_inv; fields; auto;
      apply (set_back_popup_shape popup); auto.
  - assert (Hone : _popups s = [popup]).
    { apply popupStackShape_cases in Hshape.
      destruct Hshape as [E|[[p E]|(p0 & p1 & E & H0 & H1)]]; rewrite E in Hback;
        unfold back in Hback; simpl in Hback; try discriminate;
        injection Hback as <-; congruence. }
    assert (Hpush : forall s1, _popupPush CommandNumber s = Ok s1 -> popupStackShape (_popups s1)).
    { intros s1 H. apply _popupPush_effect in H.
      destruct H as ([H|[H|(p & H & Hk)]] & _); rewrite H; auto.
      rewrite Hone. apply popupStackShape_cases. right; right.
      exists popup, p. auto. }
    unfold _popupHandleCommandListInput, bind.
    repeat branch; intros H; ok_inv; fields; auto;
      try (apply (set_back_popup_shape popup); auto; fail);
      try match goal with
          | H : _handleChar _ _ _ = Ok _ |- _ =>
              apply _handleChar_popups in H; fields; rewrite H; auto
          | H : _popupDrawCommandList _ _ _ = (_, _) |- _ =>
              apply (f_equal snd) in H; cbn [snd] in H; rewrite <- H;
              apply (set_back_popup_shape popup); [assumption|reflexivity|assumption]
          end.
Qed.

Lemma loopBody_shape (fuel : nat) (event : InputEvent) s (turn : Turn) :
  popupStackShape (_popups s) ->
  loopBody fuel event s = inr (Ok turn) ->
  popupStackShape (_popups (turnState turn)).
Proof.
  intros Hshape. unfold loopBody.
  destruct event as [token|]; [|discriminate].
  destruct (_popups s) as [|p ps] eqn:Hp.
  - destruct (isKey token).
    + destruct (_handleVkey fuel (charOrVkey token) (modifiers token) s) as [[]|[s'|e]] eqn:H;
        try discriminate.
      intros Ht; ok_inv. fields.
      apply _handleVkey_popups in H; [|assumption].
      apply popupStackShape_cases. destruct H as [->|[q ->]]; eauto.
    + unfold bind.
      destruct (_handleChar (charOrVkey token) (modifiers token) s) as [[commit s']|e] eqn:H;
        [|discriminate].
      apply _handleChar_popups in H. fields.
      intros Ht; ok_inv. destruct commit; fields; rewrite H, Hp; assumption.
  - unfold bind.
    destruct (_popupHandleInput _ _ (modifiers token) s) as [[commit s']|e] eqn:H;
      [|discriminate].
    rewrite <- Hp in Hshape. apply _popupHandleInput_shape in H; [|assumption].
    fields. intros Ht; ok_inv. destruct commit; assumption.
Qed.

(** C6. In every reachable state the popup stack holds at most two popups,
    and when it holds two the bottom one is a CommandList and the top one a
    CommandNumber. *)
Theorem C6_popupStack s :
  reachable s -> popupStackShape (_popups s).
Proof.
  induction 1 as [s Hstart|s fuel event turn _ IH Hturn|s _ IH|s _ IH|s _ IH].
  - rewrite Hstart. apply popupStackShape_cases; auto.
  - eapply loopBody_shape; eassumption.
  - destruct (_flushBuffer_frame s) as (_ & _ & Hp & _). now rewrite Hp.
  - unfold EraseBeforeResize. branch; fields; apply popupStackShape_cases; auto.
  - unfold RedrawAfterResize.
    destruct (_flushBuffer_frame (_markAsDirty s)) as (_ & _ & Hp & _). now rewrite Hp.
Qed.

End StackShape.

Lemma C6_popupStack_witness :
  let s0 := Host.fresh 0 (Some Host.history3) [] 64 in
  let s1 := turnState (Host.turnOf (Host.key VK_F7 0) s0) in
  let s2 := turnState (Host.turnOf (Host.key VK_F9 0) s1) in
  length (_popups s2) = 2%nat /\ popupStackShape (_popups s2).
Proof.
  intros s0 s1 s2. split; [reflexivity|].
  apply C6_popupStack.
  apply (reach_turn s1 8 (Host.key VK_F9 0)); [|vm_compute; reflexivity].
  apply (reach_turn s0 8 (Host.key VK_F7 0)); [|vm_compute; reflexivity].
  apply reach_start. reflexivity.
Defined.

(* ------------------------------------------------------------------ *)
(** ** The caret stays inside the buffer *)

Lemma find_from_bounds (s : wstring) (ch : wchar) (start idx : nat) :
  Str.find_from s ch start = Some idx -> (start <= idx < start + length s)%nat.
Proof.
  revert start. induction s as [|c rest IH]; intros start; simpl; [discriminate|].
  destruct (c =? ch).
  - intros H; injection H as <-. lia.
  - intros H. apply IH in H. lia.
Qed.

(** [find] answers with a position at or after the start and inside the text. *)
Lemma find_bounds (s : wstring) (ch : wchar) (pos idx : nat) :
  Str.find s ch pos = Some idx -> (pos <= idx < Str.size s)%nat.
Proof.
  unfold Str.find, Str.size. intros H. apply find_from_bounds in H.
  rewrite length_skipn in H. lia.
Qed.

(** Turns boolean comparisons in the hypotheses into propositions. *)
Ltac bools :=
  repeat match goal with
  | H : negb _ = true |- _ => apply negb_true_iff in H
  | H : negb _ = false |- _ => apply negb_false_iff in H
  | H : (_ <? _)%nat = true |- _ => apply Nat.ltb_lt in H
  | H : (_ <? _)%nat = false |- _ => apply Nat.ltb_ge in H
  | H : (_ <=? _)%nat = true |- _ => apply Nat.leb_le in H
  | H : (_ <=? _)%nat = false |- _ => apply Nat.leb_gt in H
  | H : (_ =? _)%nat = true |- _ => apply Nat.eqb_eq in H
  | H : (_ =? _)%nat = false |- _ => apply Nat.eqb_neq in H
  end.

(** [a - b] on [size_t] is the subtraction of lengths when it does not wrap. *)
Lemma size_sub_le (a b : nat) : (b <= a)%nat -> size_sub a b = (a - b)%nat.
Proof.
  intros H. unfold size_sub.
  replace (b <=? a)%nat with true by (symmetry; now apply Nat.leb_le). reflexivity.
Qed.

(** [fields], on the goal alone. *)
Ltac goal_fields :=
  cbn [_buffer _bufferCursor _bufferDirty _insertMode _controlKeyState _distanceCursor
       _distanceEnd _popups _history _screenInfo _ctrlWakeupMask _exeName _userBuffer
       InputMode gciInsertMode gciFlags aliases pendingInput
       with_buffer with_cursor with_dirty with_insertMode with_controlKeyState
       with_distances with_popups with_history with_screen with_gciFlags with_aliases
       with_pendingInput _markAsDirty _replaceBuffer _popupsDone set_back_popup
       fst snd turnState].

(** Computes the lengths of the strings the [std::wstring] operations build. *)
Ltac lengths :=
  unfold caretInBounds; goal_fields; unfold Str.size;
  repeat (rewrite ?length_app, ?length_firstn, ?length_skipn; cbn [length]).

Section CaretFacts.

Context {Screen History Aliases Writer : Type}.
Context {text_api : TextApi}.
Context {screen_api : ScreenApi Screen}.
Context {history_api : HistoryApi History}.
Context {client_api : ClientApi Aliases Writer}.

Implicit Types s : State Screen History Aliases Writer.

(** What the editor relies on from the grapheme helpers: a step back does not
    go forward, and a step forth from inside the text stays inside it. *)
Hypothesis GraphemePrev_le : forall text i, (GraphemePrev text i <= i)%nat.
Hypothesis GraphemeNext_le :
  forall text i, (i <= Str.size text)%nat -> (GraphemeNext text i <= Str.size text)%nat.

Lemma _flushBuffer_caret s : caretInBounds (_flushBuffer s).
Proof.
  unfold caretInBounds. destruct (_flushBuffer_frame s) as (Hb & Hc & _).
  rewrite Hb, Hc. lia.
Qed.

(** [_handleChar] returns, and leaves the caret inside the buffer; a carriage
    return does so from any state. *)
Lemma _handleChar_caret (wch mods : Z) s :
  caretInBounds s \/ wch = UNICODE_CARRIAGERETURN ->
  exists commit s', _handleChar wch mods s = Ok (commit, s') /\ caretInBounds s'.
Proof.
  intros Hin. unfold _handleChar.
  pose proof (_flushBuffer_caret s) as Hf. unfold caretInBounds, Str.size in Hf, Hin.
  pose proof (_wordPrev_le DelimiterClass (_buffer s) (_bufferCursor s)) as Hw.
  pose proof (GraphemePrev_le (_buffer s) (_bufferCursor s)) as Hp.
  unfold bind, Str.insert, Str.erase, Str.replace_char, Str.size.
  repeat branch; bools;
    try (destruct Hin as [Hin| ->]; [|discriminate]);
    try lia;
    (do 2 eexists; split; [reflexivity|]); ok_inv; lengths; lia.
Qed.

Lemma pasteLoop_caret (fuel : nat) (cmd : wstring) s (bufferSize cmdBeg bufferBeg : nat) s' :
  caretInBounds s ->
  pasteLoop fuel cmd s bufferSize cmdBeg bufferBeg = inr (Ok s') -> caretInBounds s'.
Proof.
  intros Hin. revert cmdBeg bufferBeg.
  induction fuel as [|fuel IH]; intros cmdBeg bufferBeg; simpl; [discriminate|].
  unfold bind, Str.append_sub, Str.substr.
  repeat branch; intros H; ok_inv; eauto; lengths; lia.
Qed.

Lemma _popupPush_caret (k : PopupKind) s s' :
  caretInBounds s -> _popupPush k s = Ok s' -> caretInBounds s'.
Proof.
  intros Hin H. apply _popupPush_effect in H. destruct H as (_ & Hb & Hc & _).
  unfold caretInBounds in *. rewrite Hb. destruct Hc as [-> | ->]; lia.
Qed.

Lemma _handleVkey_caret (fuel : nat) (vkey mods : Z) s s' :
  caretInBounds s ->
  _handleVkey fuel vkey mods s = inr (Ok s') -> caretInBounds s'.
Proof.
  intros Hin.
  pose proof (_wordPrev_le DelimiterClass (_buffer s) (_bufferCursor s)) as Hw.
  pose proof (_wordNext_le DelimiterClass (_buffer s) (_bufferCursor s) Hin) as Hw'.
  pose proof (GraphemePrev_le (_buffer s) (_bufferCursor s)) as Hp.
  pose proof (GraphemeNext_le (_buffer s) (_bufferCursor s) Hin) as Hn.
  assert (Hin' := Hin). unfold caretInBounds, Str.size in Hin', Hn, Hw'.
  unfold _handleVkey, with_history_of.
  unfold Str.erase, Str.erase_from, Str.replace, Str.substr, Str.size, bind.
  repeat branch; intros H; ok_inv;
    try match goal with
        | H : _popupPush _ _ = Ok _ |- _ => now apply _popupPush_caret in H
        | H : pasteLoop _ _ _ _ _ _ = inr (Ok _) |- _ => now apply pasteLoop_caret in H
        | H : _handleChar ?w ?m ?st = Ok ?p |- _ =>
            destruct (_handleChar_caret w m st (or_introl Hin)) as (c & st' & E & Hst');
            rewrite E in H; ok_inv; exact Hst'
        end;
    try assumption;
    lengths; bools; first [lia | rewrite size_sub_le by lia; lia].
Qed.

Lemma _popupHandleInput_caret (wch vkey mods : Z) s (commit : bool) s' :
  caretInBounds s ->
  _popupHandleInput wch vkey mods s = Ok (commit, s') -> caretInBounds s'.
Proof.
  intros Hin. unfold _popupHandleInput.
  destruct (back (_popups s)) as [popup|]; [|intros H; ok_inv; assumption].
  assert (Hin' := Hin). unfold caretInBounds, Str.size in Hin'.
  destruct (kind popup).
  - unfold _popupHandleCopyToCharInput, Str.replace, Str.substr, Str.size, bind.
    repeat branch; intros H; ok_inv;
      try match goal with H : Str.find _ _ _ = Some _ |- _ => apply find_bounds in H end;
      try assumption;
      unfold Str.size in *; lengths; bools; first [lia | rewrite size_sub_le by lia; lia].
  - unfold _popupHandleCopyFromCharInput, Str.erase, Str.size, bind.
    repeat branch; intros H; ok_inv;
      try match goal with H : Str.find _ _ _ = Some _ |- _ => apply find_bounds in H end;
      try assumption;
      unfold Str.size in *; lengths; bools; lia.
  - unfold _popupHandleCommandNumberInput, bind.
    repeat branch; intros H; ok_inv; try assumption; lengths; lia.
  - unfold _popupHandleCommandListInput, bind.
    repeat branch; intros H; ok_inv;
      try match goal with
          | H : _popupPush _ _ = Ok _ |- _ => now apply _popupPush_caret in H
          | H : _handleChar ?w ?m ?st = Ok _ |- _ =>
              destruct (_handleChar_caret w m st (or_intror eq_refl)) as (c & st' & E & Hst');
              rewrite E in H; ok_inv; exact Hst'
          end;
      try assumption; lengths; lia.
Qed.

Lemma loopBody_caret (fuel : nat) (event : InputEvent) s (turn : Turn) :
  caretInBounds s ->
  loopBody fuel event s = inr (Ok turn) -> caretInBounds (turnState turn).
Proof.
  intros Hin. unfold loopBody, bind.
  destruct event as [token|]; [|discriminate].
  destruct (_handleChar_caret (charOrVkey token) (modifiers token) s (or_introl Hin))
    as (c & st' & E & Hst').
  rewrite E.
  repeat branch; intros H; ok_inv; fields; auto;
    try match goal with
        | H : _handleVkey _ _ _ _ = inr (Ok _) |- _ => now apply _handleVkey_caret in H
        | H : _popupHandleInput _ _ _ _ = Ok (_, _) |- _ =>
            now apply _popupHandleInput_caret in H
        | H : _popupHandleInput _ _ _ _ = Ok ?p |- _ =>
            destruct p; now apply _popupHandleInput_caret in H
        end.
Qed.

Lemma _readCharInputLoop_caret (fuel : nat) (input : list InputEvent) s
      (done : bool) s' (rest : list InputEvent) :
  caretInBounds s ->
  _readCharInputLoop fuel input s = inr (Ok (done, s', rest)) -> caretInBounds s'.
Proof.
  revert s. induction input as [|event input IH]; intros s Hin; simpl.
  - intros H; ok_inv. assumption.
  - destruct (loopBody fuel event s) as [[]|[[st|st]|e]] eqn:E; try discriminate.
    + apply loopBody_caret in E; [|assumption]. apply IH. exact E.
    + apply loopBody_caret in E; [|assumption].
      intros H; ok_inv. exact E.
Qed.

(** C1 (amended). Given grapheme helpers that stay within the text, every
    handler keeps [0 <= caret <= length of the buffer]: [_handleChar] returns
    and keeps it, [_handleVkey] and [_popupHandleInput] keep it whenever they
    return, and so does any run of the input loop over any sequence of
    events. *)
Theorem C1_caretInBounds s :
  caretInBounds s ->
  (forall wch mods,
      exists commit s', _handleChar wch mods s = Ok (commit, s') /\ caretInBounds s')
  /\ (forall fuel vkey mods s',
         _handleVkey fuel vkey mods s = inr (Ok s') -> caretInBounds s')
  /\ (forall wch vkey mods commit s',
         _popupHandleInput wch vkey mods s = Ok (commit, s') -> caretInBounds s')
  /\ (forall fuel input done s' rest,
         _readCharInputLoop fuel input s = inr (Ok (done, s', rest)) -> caretInBounds s').
Proof.
  intros Hin. repeat split.
  - intros wch mods. apply _handleChar_caret. now left.
  - intros fuel vkey mods s'. now apply _handleVkey_caret.
  - intros wch vkey mods commit s'. now apply _popupHandleInput_caret.
  - intros fuel input done s' rest. now apply _readCharInputLoop_caret.
Qed.

End CaretFacts.

(** The grapheme helpers of the small host keep the contract. *)
Lemma Host_graphemePrev_le (text : wstring) (i : nat) :
  (Host.graphemePrev text i <= i)%nat.
Proof.
  unfold Host.graphemePrev. destruct i as [|j]; [lia|].
  etransitivity; [apply back_while_le|]. lia.
Qed.

Lemma Host_graphemeNext_le (text : wstring) (i : nat) :
  (i <= Str.size text)%nat -> (Host.graphemeNext text i <= Str.size text)%nat.
Proof.
  intros Hi. unfold Host.graphemeNext.
  destruct (i <? Str.size text)%nat eqn:E; [|lia].
  apply Nat.ltb_lt in E. apply forth_while_le. lia.
Qed.

Lemma C1_caretInBounds_witness :
  let s := Host.editing 0 (Some Host.history3) [104; 105] 1 in
  (forall wch mods,
      exists commit s', _handleChar wch mods s = Ok (commit, s') /\ caretInBounds s')
  /\ (forall fuel vkey mods s',
         _handleVkey fuel vkey mods s = inr (Ok s') -> caretInBounds s')
  /\ (forall wch vkey mods commit s',
         _popupHandleInput wch vkey mods s = Ok (commit, s') -> caretInBounds s')
  /\ (forall fuel input done s' rest,
         _readCharInputLoop fuel input s = inr (Ok (done, s', rest)) -> caretInBounds s').
Proof.
  intros s.
  apply (@C1_caretInBounds _ _ _ _ Host.text Host.screen Host.history Host.client
           Host_graphemePrev_le Host_graphemeNext_le s).
  unfold caretInBounds. simpl. lia.
Defined.

(** C1, as stated, fails in its second half: typing U+0301, Home and then "e"
    leaves the buffer "e" U+0301 with the caret at 1 when the queue runs dry
    and [Read] flushes and suspends; 1 is inside the grapheme "e" U+0301, whose
    boundaries are 0 and 2. *)
Lemma C1_graphemeBoundary_stated_fail :
  let s0 := Host.fresh 0 None [] 64 in
  exists s',
    Read 8 true [Host.char 0x301; Host.key VK_HOME 0; Host.char 101] s0
      = inr (Ok (false, s', [], None))
    /\ _buffer s' = [101; 0x301]
    /\ _bufferCursor s' = 1%nat
    /\ onGraphemeBoundary (_buffer s') (_bufferCursor s') = false
    /\ onGraphemeBoundary (_buffer s') 0 = true
    /\ onGraphemeBoundary (_buffer s') 2 = true.
Proof.
  eexists. split; [vm_compute; reflexivity|].
  vm_compute. repeat split.
Qed.

(* ------------------------------------------------------------------ *)
(** ** The two distances of the echo *)

Section DistanceFacts.

Context {Screen History Aliases Writer : Type}.
Context {text_api : TextApi}.
Context {screen_api : ScreenApi Screen}.
Context {history_api : HistoryApi History}.
Context {client_api : ClientApi Aliases Writer}.

Implicit Types s : State Screen History Aliases Writer.

(** What the echo relies on from the text-buffer writer: writing moves the
    cursor forward, and the cells of a text written in two parts fit an
    [int] together. *)
Hypothesis cells_forward :
  forall (scr : Screen) (text : wstring), 0 <= snd (_writeChars scr text).
Hypothesis cells_fit :
  forall (scr : Screen) (text text' : wstring),
    snd (_writeChars scr text) + snd (_writeChars (fst (_writeChars scr text)) text')
    <= INT_MAX.










End DistanceFacts.

Section DistanceInvariant.

Context {Screen History Aliases Writer : Type}.
Context {text_api : TextApi}.
Context {screen_api : ScreenApi Screen}.
Context {history_api : HistoryApi History}.
Context {client_api : ClientApi Aliases Writer}.

Implicit Types s : State Screen History Aliases Writer.


End DistanceInvariant.




(* ------------------------------------------------------------------ *)
(** ** [find] *)

Lemma find_from_none (s : wstring) (ch : wchar) (start : nat) :
  (forall j, (j < length s)%nat -> nth j s 0 <> ch) -> Str.find_from s ch start = None.
Proof.
  revert start. induction s as [|c rest IH]; intros start Hno; simpl; [reflexivity|].
  destruct (c =? ch) eqn:E.
  - apply Z.eqb_eq in E. exfalso. apply (Hno O); simpl; [lia|assumption].
  - apply IH. intros j Hj. apply (Hno (S j)). simpl; lia.
Qed.

(** No occurrence at or after [pos] means [npos]. *)
Lemma find_none (s : wstring) (ch : wchar) (pos : nat) :
  (forall i, (pos <= i < Str.size s)%nat -> Str.at_ s i <> ch) -> Str.find s ch pos = None.
Proof.
  intros Hno. unfold Str.find. apply find_from_none.
  intros j Hj. rewrite length_skipn in Hj. rewrite nth_skipn.
  apply Hno. unfold Str.size. lia.
Qed.



Lemma find_from_at (s : wstring) (ch : wchar) (start idx : nat) :
  Str.find_from s ch start = Some idx ->
  nth (idx - start) s 0 = ch /\ forall j, (j < idx - start)%nat -> nth j s 0 <> ch.
Proof.
  revert start. induction s as [|c rest IH]; intros start; simpl; [discriminate|].
  destruct (c =? ch) eqn:E.
  - intros H; injection H as <-. rewrite Nat.sub_diag. apply Z.eqb_eq in E.
    split; [assumption|]. intros j Hj; lia.
  - intros H. pose proof (find_from_bounds _ _ _ _ H) as Hb.
    apply IH in H. destruct H as [Hat Hno].
    replace (idx - start)%nat with (S (idx - S start)) by lia.
    split; [assumption|].
    intros [|j] Hj; [now apply Z.eqb_neq in E|]. apply Hno. lia.
Qed.

(** What [find] answers is an occurrence, and the first one from [pos] on. *)
Lemma find_some (s : wstring) (ch : wchar) (pos idx : nat) :
  Str.find s ch pos = Some idx ->
  (pos <= idx < Str.size s)%nat /\ Str.at_ s idx = ch
  /\ forall i, (pos <= i < idx)%nat -> Str.at_ s i <> ch.
Proof.
  intros H. pose proof (find_bounds _ _ _ _ H) as Hb. split; [assumption|].
  unfold Str.find in H. apply find_from_at in H. destruct H as [Hat Hno].
  rewrite nth_skipn in Hat. replace (pos + (idx - pos))%nat with idx in Hat by lia.
  split; [assumption|].
  intros i Hi. specialize (Hno (i - pos)%nat ltac:(lia)).
  rewrite nth_skipn in Hno. now replace (pos + (i - pos))%nat with i in Hno by lia.
Qed.

(* ------------------------------------------------------------------ *)
(** ** Popup input and the keys that never commit *)

Section PopupInput.

Context {Screen History Aliases Writer : Type}.
Context {text_api : TextApi}.
Context {screen_api : ScreenApi Screen}.
Context {history_api : HistoryApi History}.
Context {client_api : ClientApi Aliases Writer}.

Implicit Types s : State Screen History Aliases Writer.

(** C10. A character given to the CopyToChar popup that does not occur in the
    last command at or after the caret leaves the buffer and the caret as they
    are and dismisses the popups. *)
Theorem C10_copyToChar_miss s (popup : Popup) (h : History) (wch mods : Z) :
  back (_popups s) = Some popup ->
  kind popup = CopyToChar ->
  _history s = Some h ->
  (forall i, (_bufferCursor s <= i < Str.size (GetLastCommand h))%nat ->
             Str.at_ (GetLastCommand h) i <> wch) ->
  _popupHandleInput wch 0 mods s = Ok (false, _popupsDone s)
  /\ _buffer (_popupsDone s) = _buffer s
  /\ _bufferCursor (_popupsDone s) = _bufferCursor s
  /\ _bufferDirty (_popupsDone s) = _bufferDirty s
  /\ _popups (_popupsDone s) = [].
Proof.
  intros Hback Hkind Hh Hno.
  split; [|repeat split].
  unfold _popupHandleInput. rewrite Hback, Hkind.
  unfold _popupHandleCopyToCharInput. rewrite Hh.
  rewrite (find_none _ _ _ Hno). reflexivity.
Qed.

(** The wakeup branch of [_handleChar], spelled out. *)
Lemma _handleChar_wakeup s (wch : wchar) (mods : Z) :
  0 <= wch < 32 ->
  Z.testbit (_ctrlWakeupMask s) wch = true ->
  caretInBounds s ->
  _handleChar wch mods s =
    Ok (true,
        with_controlKeyState mods
          (with_cursor (S (_bufferCursor s))
             (with_buffer (firstn (_bufferCursor s) (_buffer s)
                             ++ wch :: skipn (_bufferCursor s) (_buffer s))
                (_flushBuffer s)))).
Proof.
  intros Hw Hbit Hcaret. unfold caretInBounds in Hcaret.
  unfold _handleChar.
  rewrite wakeup_guard, Hbit by lia.
  replace (wch <? SPACE) with true by (symmetry; apply Z.ltb_lt; unfold SPACE; lia).
  cbn [andb].
  destruct (_flushBuffer_frame s) as (Hb & Hc & _).
  rewrite Hb, Hc, Nat.min_l by assumption.
  unfold Str.insert.
  replace (Str.size (_buffer s) <? _bufferCursor s)%nat with false
    by (symmetry; apply Nat.ltb_ge; assumption).
  reflexivity.
Qed.

(** C9. A virtual key handled while no popup is shown never ends the read:
    whatever turn the loop takes on it is a [Continue]. F6 in particular hands
    0x1a to [_handleChar] and drops its answer: with bit 0x1a set in the wakeup
    mask [_handleChar] alone would commit, yet the loop goes on, from the
    state in which 0x1a was inserted and [_controlKeyState] overwritten. *)
Theorem C9_vkey_never_commits (fuel : nat) (token : Token) s :
  _popups s = [] ->
  isKey token = true ->
  (forall turn, loopBody fuel (Input token) s = inr (Ok turn) ->
                turn = Continue (turnState turn))
  /\ (charOrVkey token = VK_F6 ->
      Z.testbit (_ctrlWakeupMask s) 0x1a = true ->
      caretInBounds s ->
      let s' :=
        with_controlKeyState (modifiers token)
          (with_cursor (S (_bufferCursor s))
             (with_buffer (firstn (_bufferCursor s) (_buffer s)
                             ++ 0x1a :: skipn (_bufferCursor s) (_buffer s))
                (_flushBuffer s))) in
      _handleChar 0x1a (modifiers token) s = Ok (true, s')
      /\ loopBody fuel (Input token) s = inr (Ok (Continue s'))
      /\ forall input, _readCharInputLoop fuel (Input token :: input) s
                       = _readCharInputLoop fuel input s').
Proof.
  intros Hnone Hkey. split.
  - intros turn. unfold loopBody. rewrite Hnone, Hkey.
    destruct (_handleVkey fuel (charOrVkey token) (modifiers token) s) as [[]|[st|e]];
      try discriminate.
    cbn [bind]. intros H; ok_inv. reflexivity.
  - intros HF6 Hbit Hcaret s'.
    pose proof (_handleChar_wakeup s 0x1a (modifiers token) ltac:(lia) Hbit Hcaret) as Hchar.
    fold s' in Hchar.
    assert (Hbody : loopBody fuel (Input token) s = inr (Ok (Continue s'))).
    { unfold loopBody. rewrite Hnone, Hkey, HF6.
      unfold _handleVkey. cbn [Z.eqb VK_F6 VK_ESCAPE VK_HOME VK_END VK_LEFT VK_F1 VK_RIGHT
                               VK_INSERT VK_DELETE VK_UP VK_F5 VK_DOWN VK_PRIOR VK_NEXT
                               VK_F2 VK_F3 VK_F4 Pos.eqb orb].
      rewrite Hchar. reflexivity. }
    repeat split; [assumption|assumption|].
    intros input. cbn [_readCharInputLoop]. rewrite Hbody. reflexivity.
Qed.

End PopupInput.

(** C7 fails on the empty digit buffer: F9 opens the CommandNumber popup and
    Enter, with no digit typed, makes [std::stoi] throw; the edit buffer is
    not replaced and the popup is not dismissed. *)
Lemma C7_enter_without_digits :
  _readCharInputLoop 8 [Host.key VK_F9 0; Host.char UNICODE_CARRIAGERETURN]
    (Host.fresh 0 (Some Host.history3) [] 64)
  = inr (Throw invalid_argument).
Proof. vm_compute. reflexivity. Qed.

Lemma C10_copyToChar_miss_witness :
  let s0 := Host.editing 0 (Some Host.history3) [116] 1 in
  let s := turnState (Host.turnOf (Host.key VK_F2 0) s0) in
  length (_popups s) = 1%nat
  /\ _popupHandleInput 122 0 0 s = Ok (false, _popupsDone s)
  /\ _buffer (_popupsDone s) = _buffer s
  /\ _bufferCursor (_popupsDone s) = _bufferCursor s
  /\ _bufferDirty (_popupsDone s) = _bufferDirty s
  /\ _popups (_popupsDone s) = [].
Proof.
  intros s0 s. split; [reflexivity|].
  eapply (C10_copyToChar_miss s).
  - vm_compute. reflexivity.
  - reflexivity.
  - vm_compute. reflexivity.
  - intros i Hi. vm_compute in Hi.
    assert (E : i = 1%nat \/ i = 2%nat \/ i = 3%nat \/ i = 4%nat) by lia.
    destruct E as [->|[->|[->| ->]]]; vm_compute; discriminate.
Defined.

Lemma C9_vkey_never_commits_witness :
  let s := Host.editing (Z.shiftl 1 26) None [97] 1 in
  let token := {| charOrVkey := VK_F6; isKey := true; modifiers := 8 |} in
  exists s',
    _handleChar 0x1a 8 s = Ok (true, s')
    /\ loopBody 8 (Input token) s = inr (Ok (Continue s'))
    /\ _buffer s' = [97; 26] /\ _controlKeyState s' = 8.
Proof.
  intros s token.
  destruct (C9_vkey_never_commits 8 token s eq_refl eq_refl) as [_ HF6].
  destruct (HF6 eq_refl eq_refl ltac:(unfold caretInBounds; simpl; lia)) as (Hc & Hb & _).
  eexists. split; [exact Hc|]. split; [exact Hb|]. split; reflexivity.
Defined.

(* ------------------------------------------------------------------ *)
(** ** The post-commit pipeline *)

Section PostCommit.

Context {Screen History Aliases Writer : Type}.
Context {text_api : TextApi}.
Context {screen_api : ScreenApi Screen}.
Context {history_api : HistoryApi History}.
Context {client_api : ClientApi Aliases Writer}.

Implicit Types s : State Screen History Aliases Writer.


End PostCommit.


(* ------------------------------------------------------------------ *)
(** ** More on the word motions *)

Section WordMotionMore.

Variable DC : wchar -> Z.

(** X1. A word motion always makes progress and never leaves the text: from
    a position past the start [_wordPrev] moves strictly back, and from a
    position before the end [_wordNext] moves strictly forth and stops at the
    end at the latest. *)
Theorem X1_wordMotion_progress (chars : wstring) (position : nat) :
  ((0 < position)%nat -> (_wordPrev DC chars position < position)%nat)
  /\ ((position < Str.size chars)%nat ->
      (position < _wordNext DC chars position <= Str.size chars)%nat).
Proof.
  split.
  - intros Hpos. unfold _wordPrev.
    destruct (position =? 0)%nat eqn:E; [apply Nat.eqb_eq in E; lia|].
    eapply Nat.le_lt_trans; [apply back_while_le|].
    eapply Nat.le_lt_trans; [apply back_while_le|]. lia.
  - intros Hlt. split.
    + unfold _wordNext.
      replace (position <? Str.size chars)%nat with true by (symmetry; now apply Nat.ltb_lt).
      eapply Nat.lt_le_trans; [|apply forth_while_ge].
      eapply Nat.lt_le_trans; [|apply forth_while_ge]. lia.
    + apply _wordNext_le. lia.
Qed.

(** X2. [_wordPrev] stops at the start of a run: the result is 0, or the
    character before it is of another delimiter class than the character
    at it. *)
Theorem X2_wordPrev_lands (chars : wstring) (position : nat) :
  (0 < position)%nat ->
  let r := _wordPrev DC chars position in
  r = O \/ DC (Str.at_ chars (r - 1)) <> DC (Str.at_ chars r).
Proof.
  intros Hpos r. subst r. unfold _wordPrev.
  replace (position =? 0)%nat with false by (symmetry; apply Nat.eqb_neq; lia).
  set (isSpace := fun p => Str.at_ chars p =? SPACE).
  set (q := back_while isSpace (position - 1)).
  set (dc := DC (Str.at_ chars q)).
  set (sameBefore := fun p => DC (Str.at_ chars (p - 1)) =? dc).
  set (r := back_while sameBefore q).
  change (r = O \/ DC (Str.at_ chars (r - 1)) <> DC (Str.at_ chars r)).
  assert (Hr : (r <= q)%nat) by apply back_while_le.
  assert (Hclass : DC (Str.at_ chars r) = dc).
  { destruct (Nat.eq_dec r q) as [->|Hne]; [reflexivity|].
    assert (H : sameBefore (S r) = true) by (apply (back_while_run sameBefore q); fold r; lia).
    unfold sameBefore in H. replace (S r - 1)%nat with r in H by lia.
    now apply Z.eqb_eq in H. }
  destruct (back_while_stop sameBefore q) as [H|H]; fold r in H; [now left|].
  right. rewrite Hclass. unfold sameBefore in H. now apply Z.eqb_neq in H.
Qed.

(** X3. [_wordNext] skips the spaces that follow the run it crossed: it stops
    at the end of the text or on a character that is not a space. *)
Theorem X3_wordNext_lands (chars : wstring) (position : nat) :
  (position < Str.size chars)%nat ->
  let n := _wordNext DC chars position in
  n = Str.size chars \/ Str.at_ chars n <> SPACE.
Proof.
  intros Hlt n. subst n. unfold _wordNext.
  replace (position <? Str.size chars)%nat with true by (symmetry; now apply Nat.ltb_lt).
  set (dc := DC (Str.at_ chars (S position - 1))).
  set (sameAfter := fun p => dc =? DC (Str.at_ chars p)).
  set (isSpace := fun p => Str.at_ chars p =? SPACE).
  set (a := forth_while sameAfter (Str.size chars) (Str.size chars - S position) (S position)).
  set (n := forth_while isSpace (Str.size chars) (Str.size chars - a) a).
  change (n = Str.size chars \/ Str.at_ chars n <> SPACE).
  assert (Ha : (a <= Str.size chars)%nat) by (apply forth_while_le; lia).
  destruct (forth_while_stop isSpace (Str.size chars) (Str.size chars - a) a Ha (Nat.le_refl _))
    as [H|H]; fold n in H; [now left|].
  right. unfold isSpace in H. now apply Z.eqb_neq in H.
Qed.

End WordMotionMore.

Lemma X1_wordMotion_progress_witness :
  let text : wstring := [102; 111; 111; 32; 98; 97; 114] in
  (_wordPrev Host.delimiterClass text 7 < 7)%nat
  /\ (2 < _wordNext Host.delimiterClass text 2 <= 7)%nat.
Proof.
  intros text. destruct (X1_wordMotion_progress Host.delimiterClass text 7) as [Hprev _].
  destruct (X1_wordMotion_progress Host.delimiterClass text 2) as [_ Hnext].
  split; [apply Hprev; lia|apply Hnext; simpl; lia].
Defined.

Lemma X2_wordPrev_lands_witness :
  let text : wstring := [102; 111; 111; 32; 98; 97; 114] in
  _wordPrev Host.delimiterClass text 7 = O
  \/ Host.delimiterClass (Str.at_ text (_wordPrev Host.delimiterClass text 7 - 1))
     <> Host.delimiterClass (Str.at_ text (_wordPrev Host.delimiterClass text 7)).
Proof. intros text. apply (X2_wordPrev_lands Host.delimiterClass text 7). lia. Defined.

Lemma X3_wordNext_lands_witness :
  let text : wstring := [102; 111; 111; 32; 98; 97; 114] in
  _wordNext Host.delimiterClass text 0 = Str.size text
  \/ Str.at_ text (_wordNext Host.delimiterClass text 0) <> SPACE.
Proof. intros text. apply (X3_wordNext_lands Host.delimiterClass text 0). simpl. lia. Defined.

(* ------------------------------------------------------------------ *)
(** ** Screen geometry and the echo engine *)

Section GeometryFacts.

Context {Screen : Type}.
Context {screen_api : ScreenApi Screen}.

(** X4. [_offsetPosition] answers inside the grid, at the linearOffset offset of
    the start plus the distance, clamped to [0, W * H]. *)
Theorem X4_offsetPosition_clamps (scr : Screen) (pos : point) (distance : Z) :
  let w := sz_width (BufferDimensions scr) in
  let h := sz_height (BufferDimensions scr) in
  0 < w <= INT_MAX -> 0 <= h <= INT_MAX ->
  let p := _offsetPosition scr pos distance in
  0 <= pt_x p < w /\ 0 <= pt_y p <= h
  /\ linearOffset w p = Z.max 0 (Z.min (w * h) (linearOffset w pos + distance)).
Proof.
  intros w h Hw Hh p. subst p. unfold _offsetPosition, linearOffset. fold w h.
  set (lin := w * pt_y pos + pt_x pos + distance).
  set (off := if lin <? 0 then 0 else if lin >? w * h then w * h else lin).
  assert (Hoff : off = Z.max 0 (Z.min (w * h) lin) /\ 0 <= off <= w * h).
  { unfold off. destruct (lin <? 0) eqn:E1; [apply Z.ltb_lt in E1|apply Z.ltb_ge in E1].
    - split; nia.
    - destruct (lin >? w * h) eqn:E2; [apply Z.gtb_lt in E2|rewrite Z.gtb_ltb in E2; apply Z.ltb_ge in E2].
      + split; nia.
      + split; lia. }
  destruct Hoff as [Hmax Hrange]. rewrite <- Hmax.
  rewrite Z.rem_mod_nonneg, Z.quot_div_nonneg by lia.
  pose proof (Z.mod_pos_bound off w ltac:(lia)) as Hmod.
  pose proof (Z.div_pos off w ltac:(lia) ltac:(lia)) as Hdiv0.
  assert (Hdiv : off / w <= h) by (apply Z.div_le_upper_bound; nia).
  unfold INT_MAX in *.
  rewrite !i32_small by (unfold INT_MAX; lia). cbn [pt_x pt_y].
  pose proof (Z.div_mod off w ltac:(lia)). lia.
Qed.

(** X5. Offsets add up, and so undo each other: moving a position of the
    grid by [a] and then by [b] is moving it by [a + b], as long as the first
    move is not clamped; in particular moving by [a] and then by [- a] leads
    back to the start. *)
Theorem X5_offsetPosition_composes (scr : Screen) (pos : point) (a b : Z) :
  let w := sz_width (BufferDimensions scr) in
  let h := sz_height (BufferDimensions scr) in
  0 < w <= INT_MAX -> 0 <= h <= INT_MAX ->
  0 <= pt_x pos < w -> 0 <= pt_y pos ->
  0 <= linearOffset w pos + a <= w * h ->
  linearOffset w pos <= w * h ->
  _offsetPosition scr (_offsetPosition scr pos a) b = _offsetPosition scr pos (a + b)
  /\ _offsetPosition scr (_offsetPosition scr pos a) (- a) = pos.
Proof.
  intros w h Hw Hh Hx Hy Ha Hin.
  assert (Hstep : forall d, 0 <= linearOffset w pos + d <= w * h ->
            _offsetPosition scr pos d
            = {| pt_x := (linearOffset w pos + d) mod w; pt_y := (linearOffset w pos + d) / w |}).
  { intros d Hd. unfold _offsetPosition, linearOffset in *. fold w h.
    replace (w * pt_y pos + pt_x pos + d <? 0) with false by (symmetry; apply Z.ltb_ge; lia).
    replace (w * pt_y pos + pt_x pos + d >? w * h) with false
      by (symmetry; rewrite Z.gtb_ltb; apply Z.ltb_ge; lia).
    rewrite Z.rem_mod_nonneg, Z.quot_div_nonneg by lia.
    pose proof (Z.mod_pos_bound (w * pt_y pos + pt_x pos + d) w ltac:(lia)).
    pose proof (Z.div_pos (w * pt_y pos + pt_x pos + d) w ltac:(lia) ltac:(lia)).
    assert ((w * pt_y pos + pt_x pos + d) / w <= h) by (apply Z.div_le_upper_bound; nia).
    unfold INT_MAX in *. rewrite !i32_small by (unfold INT_MAX; lia). reflexivity. }
  assert (Hlin : forall d, 0 <= linearOffset w pos + d <= w * h ->
            linearOffset w (_offsetPosition scr pos d) = linearOffset w pos + d).
  { intros d Hd. rewrite (Hstep d Hd). unfold linearOffset at 1. cbn [pt_x pt_y].
    pose proof (Z.div_mod (linearOffset w pos + d) w ltac:(lia)). lia. }
  assert (Hsame : forall p q d, linearOffset w p = linearOffset w q ->
            _offsetPosition scr p d = _offsetPosition scr q d).
  { intros p q d E. unfold _offsetPosition. fold w h. unfold linearOffset in E. now rewrite E. }
  split.
  - unfold _offsetPosition at 1 3. fold w h.
    change (w * pt_y (_offsetPosition scr pos a) + pt_x (_offsetPosition scr pos a))
      with (linearOffset w (_offsetPosition scr pos a)).
    change (w * pt_y pos + pt_x pos) with (linearOffset w pos).
    rewrite (Hlin a Ha). now rewrite Z.add_assoc.
  - transitivity (_offsetPosition scr pos 0).
    + unfold _offsetPosition at 1 3. fold w h.
      change (w * pt_y (_offsetPosition scr pos a) + pt_x (_offsetPosition scr pos a))
        with (linearOffset w (_offsetPosition scr pos a)).
      change (w * pt_y pos + pt_x pos) with (linearOffset w pos).
      rewrite (Hlin a Ha). now replace (linearOffset w pos + a + - a) with (linearOffset w pos + 0) by lia.
    + rewrite Hstep by (unfold linearOffset in *; nia). rewrite Z.add_0_r. unfold linearOffset.
      destruct pos as [x y]. cbn [pt_x pt_y] in *. f_equal.
      * replace (w * y + x) with (x + y * w) by lia.
        rewrite Z.mod_add by lia. apply Z.mod_small; lia.
      * replace (w * y + x) with (x + y * w) by lia.
        rewrite Z.div_add by lia. rewrite Z.div_small by lia. lia.
Qed.

End GeometryFacts.

Lemma X4_offsetPosition_clamps_witness :
  let p := _offsetPosition Host.grid0 {| pt_x := 5; pt_y := 0 |} (- 10) in
  0 <= pt_x p < 80 /\ 0 <= pt_y p <= 300
  /\ linearOffset 80 p = Z.max 0 (Z.min (80 * 300) (linearOffset 80 {| pt_x := 5; pt_y := 0 |} + - 10)).
Proof.
  intros p.
  refine (X4_offsetPosition_clamps Host.grid0 {| pt_x := 5; pt_y := 0 |} (- 10) _ _);
    unfold INT_MAX; simpl; lia.
Defined.

Lemma X5_offsetPosition_composes_witness :
  let pos := {| pt_x := 78; pt_y := 2 |} in
  _offsetPosition Host.grid0 (_offsetPosition Host.grid0 pos 5) 7 = _offsetPosition Host.grid0 pos (5 + 7)
  /\ _offsetPosition Host.grid0 (_offsetPosition Host.grid0 pos 5) (- 5) = pos.
Proof.
  intros pos.
  refine (X5_offsetPosition_composes Host.grid0 pos 5 7 _ _ _ _ _ _);
    unfold INT_MAX, linearOffset; simpl; lia.
Defined.

Section EchoMore.

Context {Screen History Aliases Writer : Type}.
Context {text_api : TextApi}.
Context {screen_api : ScreenApi Screen}.
Context {history_api : HistoryApi History}.
Context {client_api : ClientApi Aliases Writer}.

Implicit Types s : State Screen History Aliases Writer.

Lemma with_cursor_same s : with_cursor (_bufferCursor s) s = s.
Proof. destruct s; reflexivity. Qed.

Lemma _flushBuffer_when_clean s :
  _bufferDirty s = false ->
  _flushBuffer s = with_cursor (Nat.min (_bufferCursor s) (Str.size (_buffer s))) s.
Proof.
  intros D. unfold _flushBuffer. cbn [_bufferDirty with_cursor]. now rewrite D.
Qed.

(** X6. Flushing twice in a row is flushing once. *)
Theorem X6_flushBuffer_idempotent s :
  _flushBuffer (_flushBuffer s) = _flushBuffer s.
Proof.
  rewrite (_flushBuffer_when_clean (_flushBuffer s)) by apply _flushBuffer_clean.
  destruct (_flushBuffer_frame s) as (Hb & Hc & _).
  rewrite Hb, Hc.
  replace (Nat.min (Nat.min (_bufferCursor s) (Str.size (_buffer s))) (Str.size (_buffer s)))
    with (Nat.min (_bufferCursor s) (Str.size (_buffer s))) by lia.
  rewrite <- Hc. apply with_cursor_same.
Qed.

(** A flush draws nothing when there is nothing new to draw or when
    input is not echoed: the screen and both distances stay as they were. *)
Theorem _flushBuffer_quiet s :
  _bufferDirty s = false \/ echoInput s = false ->
  _screenInfo (_flushBuffer s) = _screenInfo s
  /\ _distanceCursor (_flushBuffer s) = _distanceCursor s
  /\ _distanceEnd (_flushBuffer s) = _distanceEnd s.
Proof.
  intros Hquiet. unfold _flushBuffer.
  cbn [_bufferDirty with_cursor].
  destruct (_bufferDirty s); cbn [negb]; [|repeat split].
  destruct Hquiet as [H|H]; [discriminate|].
  unfold echoInput in *. cbn [InputMode with_cursor]. rewrite H. repeat split.
Qed.

(** X7. [EraseBeforeResize] dismisses every popup and zeroes both distances,
    given the distances were in order; the buffer and the caret are not
    touched. *)
Theorem X7_EraseBeforeResize s :
  0 <= _distanceCursor s <= _distanceEnd s ->
  let s' := EraseBeforeResize s in
  _popups s' = [] /\ _distanceCursor s' = 0 /\ _distanceEnd s' = 0
  /\ _buffer s' = _buffer s /\ _bufferCursor s' = _bufferCursor s.
Proof.
  intros Hdist s'. subst s'. unfold EraseBeforeResize.
  cbn [_distanceEnd _distanceCursor _popupsDone with_popups with_screen].
  destruct (_distanceEnd s =? 0) eqn:E.
  - apply Z.eqb_eq in E. cbn [_popups _distanceCursor _distanceEnd _buffer _bufferCursor
                              _popupsDone with_popups with_screen].
    repeat split; lia.
  - repeat split.
Qed.

End EchoMore.

Lemma _flushBuffer_quiet_example :
  let s := Host.fresh 0 None [] 64 in
  _screenInfo (_flushBuffer s) = _screenInfo s
  /\ _distanceCursor (_flushBuffer s) = _distanceCursor s
  /\ _distanceEnd (_flushBuffer s) = _distanceEnd s.
Proof. intros s. apply (_flushBuffer_quiet s). left. reflexivity. Defined.

Lemma X7_EraseBeforeResize_witness :
  let s := _flushBuffer (Host.editing 0 None [104; 105] 1) in
  _distanceEnd s = 2
  /\ _popups (EraseBeforeResize s) = [] /\ _distanceCursor (EraseBeforeResize s) = 0
  /\ _distanceEnd (EraseBeforeResize s) = 0
  /\ _buffer (EraseBeforeResize s) = _buffer s
  /\ _bufferCursor (EraseBeforeResize s) = _bufferCursor s.
Proof.
  intros s. split; [reflexivity|].
  apply (X7_EraseBeforeResize s). vm_compute. split; discriminate.
Defined.

(* ------------------------------------------------------------------ *)
(** ** More on [_handleChar] *)

Section CharMore.

Context {Screen History Aliases Writer : Type}.
Context {text_api : TextApi}.
Context {screen_api : ScreenApi Screen}.
Context {history_api : HistoryApi History}.
Context {client_api : ClientApi Aliases Writer}.

Implicit Types s : State Screen History Aliases Writer.

(** X8. [_handleChar] signals the commit for exactly two kinds of input: a
    control character whose bit is set in the wakeup mask, and carriage
    return. *)
Theorem X8_handleChar_commits_iff s (wch mods : Z) (commit : bool) s' :
  0 <= wch ->
  _handleChar wch mods s = Ok (commit, s') ->
  commit = ((wch <? 32) && Z.testbit (_ctrlWakeupMask s) wch)
           || (wch =? UNICODE_CARRIAGERETURN).
Proof.
  intros Hw. unfold _handleChar. rewrite wakeup_guard by assumption.
  change SPACE with 32.
  destruct ((wch <? 32) && Z.testbit (_ctrlWakeupMask s) wch); cbn [orb].
  - unfold bind. branch; intros H; ok_inv. reflexivity.
  - destruct (wch =? UNICODE_CARRIAGERETURN).
    + intros H; ok_inv. reflexivity.
    + unfold bind. repeat branch; intros H; ok_inv; reflexivity.
Qed.

(** The guard under which a character is ordinary text: not a wakeup
    character, not carriage return, and not a backspace in processed mode. *)
Lemma _handleChar_text s (wch mods : Z) :
  0 <= wch ->
  (wch <? 32) && Z.testbit (_ctrlWakeupMask s) wch = false ->
  wch <> UNICODE_CARRIAGERETURN ->
  ((wch =? EXTKEY_ERASE_PREV_WORD) || (wch =? UNICODE_BACKSPACE)) && processedInput s = false ->
  _handleChar wch mods s =
    (b <- (if _insertMode s
           then Str.insert (_buffer s) (_bufferCursor s) wch
           else Str.replace_char (_buffer s) (_bufferCursor s)
                  (size_sub (GraphemeNext (_buffer s) (_bufferCursor s)) (_bufferCursor s)) wch) ;;
     Ok (false, _markAsDirty (with_cursor (S (_bufferCursor s)) (with_buffer b s)))).
Proof.
  intros Hw Hwake Hcr Hbs. unfold _handleChar.
  rewrite wakeup_guard by assumption. change SPACE with 32. rewrite Hwake.
  replace (wch =? UNICODE_CARRIAGERETURN) with false by (symmetry; now apply Z.eqb_neq).
  rewrite Hbs. reflexivity.
Qed.

(** X9. An ordinary character typed in insert mode, or typed at the end of
    the buffer in either mode, is inserted at the caret: the text before and
    after the caret is kept, the caret moves one code unit on, the buffer is
    marked dirty and the read goes on. Backspace is such a character when
    processed input is off. *)
Theorem X9_handleChar_inserts s (wch mods : Z) :
  0 <= wch ->
  (wch <? 32) && Z.testbit (_ctrlWakeupMask s) wch = false ->
  wch <> UNICODE_CARRIAGERETURN ->
  ((wch =? EXTKEY_ERASE_PREV_WORD) || (wch =? UNICODE_BACKSPACE)) && processedInput s = false ->
  caretInBounds s ->
  _insertMode s = true \/ _bufferCursor s = Str.size (_buffer s) ->
  _handleChar wch mods s =
    Ok (false,
        with_dirty true
          (with_cursor (S (_bufferCursor s))
             (with_buffer (firstn (_bufferCursor s) (_buffer s)
                             ++ wch :: skipn (_bufferCursor s) (_buffer s)) s))).
Proof.
  intros Hw Hwake Hcr Hbs Hin Hmode. unfold caretInBounds in Hin.
  rewrite _handleChar_text by assumption.
  unfold Str.insert, Str.replace_char.
  replace (Str.size (_buffer s) <? _bufferCursor s)%nat with false
    by (symmetry; now apply Nat.ltb_ge).
  destruct (_insertMode s); [reflexivity|].
  destruct Hmode as [|Hend]; [discriminate|].
  cbn [bind]. unfold _markAsDirty. do 4 f_equal.
  rewrite !skipn_all2; [reflexivity| |]; unfold Str.size in *; lia.
Qed.

(** X10. In overwrite mode an ordinary character typed inside the buffer
    replaces the whole grapheme at the caret by that one code unit: the text
    before the caret and the text after the grapheme are kept, and the buffer
    does not grow. *)
Theorem X10_handleChar_overwrites s (wch mods : Z) :
  0 <= wch ->
  (wch <? 32) && Z.testbit (_ctrlWakeupMask s) wch = false ->
  wch <> UNICODE_CARRIAGERETURN ->
  ((wch =? EXTKEY_ERASE_PREV_WORD) || (wch =? UNICODE_BACKSPACE)) && processedInput s = false ->
  _insertMode s = false ->
  let next := GraphemeNext (_buffer s) (_bufferCursor s) in
  (_bufferCursor s < next <= Str.size (_buffer s))%nat ->
  let text := firstn (_bufferCursor s) (_buffer s) ++ wch :: skipn next (_buffer s) in
  _handleChar wch mods s =
    Ok (false, with_dirty true (with_cursor (S (_bufferCursor s)) (with_buffer text s)))
  /\ (Str.size text <= Str.size (_buffer s))%nat.
Proof.
  intros Hw Hwake Hcr Hbs Hmode next Hnext text.
  rewrite _handleChar_text by assumption. rewrite Hmode.
  unfold Str.replace_char.
  replace (Str.size (_buffer s) <? _bufferCursor s)%nat with false
    by (symmetry; apply Nat.ltb_ge; lia).
  fold next. rewrite size_sub_le by lia.
  replace (_bufferCursor s + (next - _bufferCursor s))%nat with next by lia.
  split; [reflexivity|].
  unfold text, Str.size in *. rewrite length_app, length_firstn. cbn [length].
  rewrite length_skipn. lia.
Qed.

(** X11. Backspace and Ctrl+Backspace in processed mode erase the text
    between the position found by [GraphemePrev] or [_wordPrev] and the
    caret, put the caret there, mark the buffer dirty, raise the
    accessibility signal and let the read go on; at the start of the line
    nothing is erased. *)
Theorem X11_handleChar_backspace s (wch mods : Z) :
  wch = UNICODE_BACKSPACE \/ wch = EXTKEY_ERASE_PREV_WORD ->
  Z.testbit (_ctrlWakeupMask s) wch = false ->
  processedInput s = true ->
  caretInBounds s ->
  let pos := if wch =? EXTKEY_ERASE_PREV_WORD
             then _wordPrev DelimiterClass (_buffer s) (_bufferCursor s)
             else GraphemePrev (_buffer s) (_bufferCursor s) in
  (pos <= _bufferCursor s)%nat ->
  let text := firstn pos (_buffer s) ++ skipn (_bufferCursor s) (_buffer s) in
  _handleChar wch mods s =
    Ok (false,
        with_screen (SignalTextChanged (_screenInfo s))
          (with_dirty true (with_cursor pos (with_buffer text s))))
  /\ (_bufferCursor s = O -> text = _buffer s).
Proof.
  intros Hwch Hbit Hproc Hin pos Hpos text. unfold caretInBounds in Hin.
  split.
  - unfold _handleChar.
    rewrite wakeup_guard, Hbit by (destruct Hwch as [-> | ->]; cbv; discriminate).
    rewrite andb_false_r.
    replace (wch =? UNICODE_CARRIAGERETURN) with false
      by (destruct Hwch as [-> | ->]; reflexivity).
    replace ((wch =? EXTKEY_ERASE_PREV_WORD) || (wch =? UNICODE_BACKSPACE)) with true
      by (destruct Hwch as [-> | ->]; reflexivity).
    rewrite Hproc. cbn [andb]. fold pos.
    unfold Str.erase.
    replace (Str.size (_buffer s) <? pos)%nat with false by (symmetry; apply Nat.ltb_ge; lia).
    rewrite size_sub_le by assumption.
    replace (pos + (_bufferCursor s - pos))%nat with (_bufferCursor s) by lia.
    reflexivity.
  - intros Hzero. unfold text. rewrite Hzero in *.
    replace pos with O by lia. reflexivity.
Qed.

End CharMore.

Lemma X8_handleChar_commits_iff_witness :
  let s := Host.editing 512 None [97] 1 in
  exists s', _handleChar 9 0 s = Ok (true, s')
             /\ true = ((9 <? 32) && Z.testbit (_ctrlWakeupMask s) 9) || (9 =? UNICODE_CARRIAGERETURN).
Proof.
  intros s.
  destruct (_handleChar 9 0 s) as [[commit s']|e] eqn:E; [|vm_compute in E; discriminate].
  pose proof (X8_handleChar_commits_iff s 9 0 commit s' ltac:(lia) E) as H.
  exists s'. vm_compute in H. subst commit. split; reflexivity.
Defined.

Lemma X9_handleChar_inserts_witness :
  let s := with_insertMode false (Host.editing 0 None [97; 98] 2) in
  _handleChar 99 0 s =
    Ok (false, with_dirty true (with_cursor 3 (with_buffer [97; 98; 99] s))).
Proof.
  intros s. apply (X9_handleChar_inserts s 99 0); try reflexivity.
  - lia.
  - discriminate.
  - unfold caretInBounds. simpl. lia.
  - right. reflexivity.
Defined.

Lemma X10_handleChar_overwrites_witness :
  let s := with_insertMode false (Host.editing 0 None [101; 0x301; 98] 0) in
  _handleChar 120 0 s =
    Ok (false, with_dirty true (with_cursor 1 (with_buffer [120; 98] s)))
  /\ Nat.le (Str.size [120; 98]) (Str.size (_buffer s)).
Proof.
  intros s. refine (X10_handleChar_overwrites s 120 0 _ _ _ _ _ _); try reflexivity.
  - lia.
  - discriminate.
  - vm_compute. lia.
Defined.

Lemma X11_handleChar_backspace_witness :
  let s := Host.editing 0 None [102; 111; 111; 32; 98; 97; 114] 7 in
  _handleChar EXTKEY_ERASE_PREV_WORD 0 s =
    Ok (false,
        with_screen (SignalTextChanged (_screenInfo s))
          (with_dirty true (with_cursor 4 (with_buffer [102; 111; 111; 32] s))))
  /\ (_bufferCursor s = O -> [102; 111; 111; 32] = _buffer s).
Proof.
  intros s. refine (X11_handleChar_backspace s EXTKEY_ERASE_PREV_WORD 0 _ _ _ _ _); try reflexivity.
  - now right.
  - unfold caretInBounds. simpl. lia.
  - vm_compute. lia.
Defined.

(* ------------------------------------------------------------------ *)
(** ** More on [_handleVkey] *)

(** Decides the tests of the key chain of [_handleVkey] for a given key. *)
Ltac key_chain :=
  unfold _handleVkey;
  cbn [Z.eqb Pos.eqb orb andb negb
       VK_ESCAPE VK_PRIOR VK_NEXT VK_END VK_HOME VK_LEFT VK_UP VK_RIGHT VK_DOWN VK_INSERT
       VK_DELETE VK_F1 VK_F2 VK_F3 VK_F4 VK_F5 VK_F6 VK_F7 VK_F8 VK_F9 VK_F10].

Section VkeyMore.

Context {Screen History Aliases Writer : Type}.
Context {text_api : TextApi}.
Context {screen_api : ScreenApi Screen}.
Context {history_api : HistoryApi History}.
Context {client_api : ClientApi Aliases Writer}.

Implicit Types s : State Screen History Aliases Writer.

(** X12. Without a command history ([_history] is null) the history keys do
    nothing at all: Up, F5, Down, PgUp, PgDn, F2, F3, F7, F8 and F9, and
    Right or F1 at the end of the buffer, return the state as it was. *)
Theorem X12_handleVkey_without_history (fuel : nat) (vkey mods : Z) s :
  _history s = None ->
  In vkey [VK_UP; VK_F5; VK_DOWN; VK_PRIOR; VK_NEXT; VK_F2; VK_F3; VK_F7; VK_F8; VK_F9]
  \/ ((vkey = VK_F1 \/ vkey = VK_RIGHT) /\ _bufferCursor s = Str.size (_buffer s)) ->
  _handleVkey fuel vkey mods s = inr (Ok s).
Proof.
  intros Hh Hkey.
  destruct Hkey as [Hin|[Hkey Hend]].
  - cbn [In] in Hin.
    repeat (destruct Hin as [<-|Hin]);
      try contradiction; key_chain; unfold with_history_of; rewrite Hh; try reflexivity.
    repeat branch; reflexivity.
  - destruct Hkey as [-> | ->]; key_chain; rewrite Hend, Nat.eqb_refl; cbn [negb];
      unfold with_history_of; rewrite Hh; reflexivity.
Qed.

(** X13. Home puts the caret at 0 and End at the end of the buffer; with
    Ctrl held Home also erases what is before the caret and End what is after
    it. A caret already there leaves the state untouched. *)
Theorem X13_handleVkey_home_end (fuel : nat) (mods : Z) s :
  caretInBounds s ->
  let ctrl := WI_IsAnyFlagSet mods (Z.lor LEFT_CTRL_PRESSED RIGHT_CTRL_PRESSED) in
  let c := _bufferCursor s in
  let kept_right := if ctrl then skipn c (_buffer s) else _buffer s in
  let kept_left := if ctrl then firstn c (_buffer s) else _buffer s in
  _handleVkey fuel VK_HOME mods s =
    inr (Ok (if (0 <? c)%nat
             then with_dirty true (with_cursor O (with_buffer kept_right s))
             else s))
  /\ _handleVkey fuel VK_END mods s =
       inr (Ok (if (c <? Str.size (_buffer s))%nat
                then with_dirty true
                       (with_cursor (Str.size kept_left) (with_buffer kept_left s))
                else s)).
Proof.
  intros Hin ctrl c kept_right kept_left. unfold caretInBounds in Hin. fold c in Hin.
  split.
  - key_chain. fold ctrl c. destruct (0 <? c)%nat; [|reflexivity].
    unfold kept_right. destruct ctrl; [|reflexivity].
    unfold Str.erase. cbn [Nat.ltb Nat.leb bind firstn app Nat.add]. reflexivity.
  - key_chain. fold ctrl c. destruct (c <? Str.size (_buffer s))%nat; [|reflexivity].
    unfold kept_left. destruct ctrl; [|reflexivity].
    unfold Str.erase_from. fold c.
    replace (Str.size (_buffer s) <? c)%nat with false by (symmetry; now apply Nat.ltb_ge).
    reflexivity.
Qed.

(** X14. Delete erases the grapheme at the caret and leaves the caret where
    it is; at the end of the buffer it does nothing. *)
Theorem X14_handleVkey_delete (fuel : nat) (mods : Z) s :
  let c := _bufferCursor s in
  let next := GraphemeNext (_buffer s) c in
  (c <= next)%nat ->
  _handleVkey fuel VK_DELETE mods s =
    inr (Ok (if (c <? Str.size (_buffer s))%nat
             then with_dirty true (with_buffer (firstn c (_buffer s) ++ skipn next (_buffer s)) s)
             else s)).
Proof.
  intros c next Hnext. key_chain. fold c next.
  destruct (c <? Str.size (_buffer s))%nat eqn:E; [|reflexivity].
  apply Nat.ltb_lt in E.
  unfold Str.erase.
  replace (Str.size (_buffer s) <? c)%nat with false by (symmetry; apply Nat.ltb_ge; lia).
  rewrite size_sub_le by assumption.
  replace (c + (next - c))%nat with next by lia. reflexivity.
Qed.

(** X15. F3 copies the tail of the last command: when the last command is
    longer than the caret position, the buffer keeps what is before the
    caret, continues with the last command from that position on, and keeps
    whatever it held beyond the length of the last command; the caret ends at
    the length of the last command. A shorter last command changes nothing. *)
Theorem X15_handleVkey_F3 (fuel : nat) (mods : Z) s (h : History) :
  _history s = Some h ->
  caretInBounds s ->
  let last := GetLastCommand h in
  let c := _bufferCursor s in
  _handleVkey fuel VK_F3 mods s =
    inr (Ok (if (c <? Str.size last)%nat
             then with_dirty true
                    (with_cursor (Str.size last)
                       (with_buffer (firstn c (_buffer s) ++ skipn c last
                                       ++ skipn (Str.size last) (_buffer s)) s))
             else s)).
Proof.
  intros Hh Hin last c. unfold caretInBounds in Hin. fold c in Hin.
  key_chain. unfold with_history_of. rewrite Hh. fold last c.
  destruct (c <? Str.size last)%nat eqn:E; [|reflexivity].
  apply Nat.ltb_lt in E.
  unfold Str.replace, Str.substr.
  replace (Str.size (_buffer s) <? c)%nat with false by (symmetry; apply Nat.ltb_ge; lia).
  replace (Str.size last <? c)%nat with false by (symmetry; apply Nat.ltb_ge; lia).
  rewrite size_sub_le by lia. cbn [bind].
  replace (c + (Str.size last - c))%nat with (Str.size last) by lia.
  rewrite (firstn_all2 (skipn c last)) by (rewrite length_skipn; unfold Str.size; lia).
  reflexivity.
Qed.

(** The paste loop ends within [size cmd - cmdBeg + 1] iterations when
    [GraphemeNext] advances inside the text. *)
Lemma pasteLoop_returns (fuel : nat) (cmd : wstring) s (bufferSize cmdBeg bufferBeg : nat) :
  (forall text i, (i < Str.size text)%nat -> (i < GraphemeNext text i)%nat) ->
  (Str.size cmd - cmdBeg < fuel)%nat ->
  exists r, pasteLoop fuel cmd s bufferSize cmdBeg bufferBeg = inr r.
Proof.
  intros Hadv. revert cmdBeg bufferBeg.
  induction fuel as [|fuel IH]; intros cmdBeg bufferBeg Hfuel; [lia|].
  cbn [pasteLoop].
  destruct (cmdBeg <? Str.size cmd)%nat eqn:E; [|eauto].
  apply Nat.ltb_lt in E.
  destruct (bufferSize <=? bufferBeg)%nat; [eauto|].
  apply IH. specialize (Hadv cmd cmdBeg E). lia.
Qed.

(** X16. [_handleVkey] returns for every key: the only loop in it, the one
    that pastes a grapheme of the last command, ends when [GraphemeNext]
    advances inside the text and is given more iterations than the last
    command has code units. *)
Theorem X16_handleVkey_returns (fuel : nat) (vkey mods : Z) s :
  (forall text i, (i < Str.size text)%nat -> (i < GraphemeNext text i)%nat) ->
  (forall h, _history s = Some h -> (Str.size (GetLastCommand h) < fuel)%nat) ->
  exists r, _handleVkey fuel vkey mods s = inr r.
Proof.
  intros Hadv Hfuel. unfold _handleVkey.
  repeat match goal with
         | |- exists r, (if ?c then _ else _) = inr r => destruct c
         | |- exists r, inr _ = inr r => eexists; reflexivity
         end.
  unfold with_history_of. destruct (_history s) as [h|] eqn:Hh; [|eauto].
  apply pasteLoop_returns; [assumption|]. specialize (Hfuel h eq_refl). lia.
Qed.

(** Insert flips the insert mode and nothing else of the edit state;
    pressed twice it restores the mode. *)
Theorem _handleVkey_insert_twice (fuel : nat) (mods : Z) s :
  exists s1 s2,
    _handleVkey fuel VK_INSERT mods s = inr (Ok s1)
    /\ _handleVkey fuel VK_INSERT mods s1 = inr (Ok s2)
    /\ _insertMode s1 = negb (_insertMode s)
    /\ _insertMode s2 = _insertMode s
    /\ _buffer s2 = _buffer s /\ _bufferCursor s2 = _bufferCursor s
    /\ _screenInfo s1
       = SetCursorDBMode (_screenInfo s) (negb (Bool.eqb (negb (_insertMode s)) (gciInsertMode s))).
Proof.
  do 2 eexists. split; [key_chain; reflexivity|]. split; [key_chain; reflexivity|].
  cbn [_insertMode _buffer _bufferCursor _screenInfo gciInsertMode
       _markAsDirty with_screen with_insertMode with_dirty].
  rewrite negb_involutive. repeat split.
Qed.

End VkeyMore.

Lemma Host_graphemeNext_advances (text : wstring) (i : nat) :
  (i < Str.size text)%nat -> (i < Host.graphemeNext text i)%nat.
Proof.
  intros Hi. unfold Host.graphemeNext.
  replace (i <? Str.size text)%nat with true by (symmetry; now apply Nat.ltb_lt).
  eapply Nat.lt_le_trans; [|apply forth_while_ge]. lia.
Qed.

Lemma X12_handleVkey_without_history_witness :
  let s := Host.editing 0 None [97; 98] 2 in
  _handleVkey 8 VK_UP 0 s = inr (Ok s) /\ _handleVkey 8 VK_RIGHT 0 s = inr (Ok s).
Proof.
  intros s. split.
  - apply (X12_handleVkey_without_history 8 VK_UP 0 s); [reflexivity|].
    left. simpl. auto.
  - apply (X12_handleVkey_without_history 8 VK_RIGHT 0 s); [reflexivity|].
    right. split; [now right|reflexivity].
Defined.

Lemma X13_handleVkey_home_end_witness :
  let s := Host.editing 0 None [97; 98; 99] 1 in
  _handleVkey 8 VK_HOME LEFT_CTRL_PRESSED s =
    inr (Ok (with_dirty true (with_cursor 0 (with_buffer [98; 99] s))))
  /\ _handleVkey 8 VK_END LEFT_CTRL_PRESSED s =
       inr (Ok (with_dirty true (with_cursor 1 (with_buffer [97] s)))).
Proof.
  intros s. refine (X13_handleVkey_home_end 8 LEFT_CTRL_PRESSED s _).
  unfold caretInBounds. simpl. lia.
Defined.

Lemma X14_handleVkey_delete_witness :
  let s := Host.editing 0 None [97; 101; 0x301; 98] 1 in
  _handleVkey 8 VK_DELETE 0 s = inr (Ok (with_dirty true (with_buffer [97; 98] s))).
Proof.
  intros s. refine (X14_handleVkey_delete 8 0 s _). vm_compute. lia.
Defined.

Lemma X15_handleVkey_F3_witness :
  let s := Host.editing 0 (Some Host.history3) [120; 121] 1 in
  _handleVkey 8 VK_F3 0 s =
    inr (Ok (with_dirty true (with_cursor 5 (with_buffer [120; 104; 114; 101; 101] s)))).
Proof.
  intros s. refine (X15_handleVkey_F3 8 0 s Host.history3 _ _); [reflexivity|].
  unfold caretInBounds. simpl. lia.
Defined.

Lemma X16_handleVkey_returns_witness :
  let s := Host.editing 0 (Some Host.history3) [120; 121] 2 in
  exists r, _handleVkey 8 VK_RIGHT 0 s = inr r.
Proof.
  intros s.
  apply (@X16_handleVkey_returns _ _ _ _ Host.text Host.screen Host.history Host.client
           8 VK_RIGHT 0 s).
  - exact Host_graphemeNext_advances.
  - intros h Hh. injection Hh as <-. vm_compute. lia.
Defined.

(* ------------------------------------------------------------------ *)
(** ** More on the popups *)

Lemma find_from_none_inv (s : wstring) (ch : wchar) (start : nat) :
  Str.find_from s ch start = None -> forall j, (j < length s)%nat -> nth j s 0 <> ch.
Proof.
  revert start. induction s as [|c rest IH]; intros start; simpl; [intros _ j Hj; lia|].
  destruct (c =? ch) eqn:E; [discriminate|].
  intros H [|j] Hj; [now apply Z.eqb_neq in E|].
  apply (IH (S start) H). lia.
Qed.

(** [npos] means no occurrence at or after [pos]. *)
Lemma find_none_inv (s : wstring) (ch : wchar) (pos : nat) :
  Str.find s ch pos = None ->
  forall i, (pos <= i < Str.size s)%nat -> Str.at_ s i <> ch.
Proof.
  unfold Str.find, Str.size, Str.at_. intros H i Hi.
  pose proof (find_from_none_inv _ _ _ H (i - pos)%nat) as Hno.
  rewrite length_skipn, nth_skipn in Hno.
  replace (pos + (i - pos))%nat with i in Hno by lia. apply Hno. lia.
Qed.

Section PopupMore.

Context {Screen History Aliases Writer : Type}.
Context {text_api : TextApi}.
Context {screen_api : ScreenApi Screen}.
Context {history_api : HistoryApi History}.
Context {client_api : ClientApi Aliases Writer}.

Implicit Types s : State Screen History Aliases Writer.

(** X17. A viewport without room for one cell of content inside the border
    (width or height of at most 2) makes [_popupPush] give up before it
    touches anything: no popup, no flush, the state as it was. *)
Theorem X17_popupPush_no_room (k : PopupKind) s (proposed : size2) :
  proposedSize k s = Ok proposed ->
  let viewport := ViewportDimensions (_screenInfo s) in
  - 2 ^ 31 + 2 <= sz_width viewport <= INT_MAX ->
  - 2 ^ 31 + 2 <= sz_height viewport <= INT_MAX ->
  sz_width viewport <= 2 \/ sz_height viewport <= 2 ->
  _popupPush k s = Ok s.
Proof.
  intros Hprop viewport Hw Hh Hsmall. unfold _popupPush. rewrite Hprop. cbn [bind].
  fold viewport. cbn [sz_width sz_height].
  unfold INT_MAX in *.
  rewrite !i32_small by (unfold INT_MAX; lia).
  match goal with |- (if negb ?c then _ else _) = _ => replace c with false; [reflexivity|] end.
  symmetry. apply andb_false_iff.
  destruct Hsmall; [left|right]; rewrite Z.gtb_ltb; apply Z.ltb_ge; lia.
Qed.

(** X18. Escape dismisses the popups whatever their kind: the stack is
    emptied, the read goes on, and the buffer, the caret and the dirty flag
    are as they were. *)
Theorem X18_popup_escape s (popup : Popup) (mods : Z) :
  back (_popups s) = Some popup ->
  _popupHandleInput 0 VK_ESCAPE mods s = Ok (false, _popupsDone s)
  /\ _popups (_popupsDone s) = []
  /\ _buffer (_popupsDone s) = _buffer s
  /\ _bufferCursor (_popupsDone s) = _bufferCursor s
  /\ _bufferDirty (_popupsDone s) = _bufferDirty s.
Proof.
  intros Hback. split; [|repeat split].
  unfold _popupHandleInput. rewrite Hback.
  destruct (kind popup); try reflexivity.
  unfold _popupHandleCommandListInput. destruct (_history s); reflexivity.
Qed.

(** X19. A character given to the CopyFromChar popup erases the text from
    the caret up to, and not including, its first occurrence at or after the
    caret; when it does not occur, everything from the caret on is erased.
    The caret stays, the buffer is marked dirty and the popups are dismissed. *)
Theorem X19_copyFromChar s (popup : Popup) (wch mods : Z) :
  back (_popups s) = Some popup ->
  kind popup = CopyFromChar ->
  caretInBounds s ->
  let c := _bufferCursor s in
  let stop := match Str.find (_buffer s) wch c with
              | Some idx => idx
              | None => Str.size (_buffer s)
              end in
  _popupHandleInput wch 0 mods s =
    Ok (false,
        _popupsDone (with_dirty true (with_buffer (firstn c (_buffer s) ++ skipn stop (_buffer s)) s)))
  /\ (c <= stop <= Str.size (_buffer s))%nat
  /\ (stop < Str.size (_buffer s) -> Str.at_ (_buffer s) stop = wch)%nat
  /\ (forall i, (c <= i < stop)%nat -> Str.at_ (_buffer s) i <> wch).
Proof.
  intros Hback Hkind Hin c stop. unfold caretInBounds in Hin. fold c in Hin.
  assert (Hstop : (c <= stop <= Str.size (_buffer s))%nat
                  /\ (stop < Str.size (_buffer s) -> Str.at_ (_buffer s) stop = wch)%nat
                  /\ (forall i, (c <= i < stop)%nat -> Str.at_ (_buffer s) i <> wch)).
  { unfold stop. destruct (Str.find (_buffer s) wch c) as [idx|] eqn:F.
    - apply find_some in F. destruct F as (Hb & Hat & Hno). repeat split; auto; lia.
    - split; [lia|]. split; [lia|].
      intros i Hi. apply (find_none_inv _ _ _ F). lia. }
  split; [|exact Hstop].
  unfold _popupHandleInput. rewrite Hback, Hkind.
  unfold _popupHandleCopyFromCharInput. cbn [Z.eqb negb]. fold c.
  replace (match Str.find (_buffer s) wch c with
           | Some idx => Nat.min idx (Str.size (_buffer s))
           | None => Str.size (_buffer s)
           end) with stop.
  2:{ unfold stop. destruct (Str.find (_buffer s) wch c) as [idx|] eqn:F; [|reflexivity].
      apply find_bounds in F. lia. }
  unfold Str.erase.
  replace (Str.size (_buffer s) <? c)%nat with false by (symmetry; apply Nat.ltb_ge; lia).
  rewrite size_sub_le by lia.
  replace (c + (stop - c))%nat with stop by lia.
  reflexivity.
Qed.


(** X20. A character given to the CopyToChar popup that occurs in the last
    command at or after the caret copies the last command from the caret up
    to, and not including, that occurrence over the buffer, replacing as many
    code units as it copies; the caret ends at the occurrence and the popups
    are dismissed. *)
Theorem X20_copyToChar_hit s (popup : Popup) (h : History) (wch mods : Z) (idx : nat) :
  back (_popups s) = Some popup ->
  kind popup = CopyToChar ->
  _history s = Some h ->
  caretInBounds s ->
  let c := _bufferCursor s in
  let cmd := GetLastCommand h in
  Str.find cmd wch c = Some idx ->
  _popupHandleInput wch 0 mods s =
    Ok (false,
        _popupsDone
          (with_dirty true
             (with_cursor idx
                (with_buffer (firstn c (_buffer s) ++ firstn (idx - c) (skipn c cmd)
                                ++ skipn idx (_buffer s)) s)))).
Proof.
  intros Hback Hkind Hh Hin c cmd Hfind. unfold caretInBounds in Hin. fold c in Hin.
  pose proof (find_bounds _ _ _ _ Hfind) as Hb.
  unfold _popupHandleInput. rewrite Hback, Hkind.
  unfold _popupHandleCopyToCharInput. cbn [Z.eqb negb]. rewrite Hh. fold cmd c.
  rewrite Hfind. unfold Str.replace, Str.substr.
  replace (Str.size (_buffer s) <? c)%nat with false by (symmetry; apply Nat.ltb_ge; lia).
  replace (Str.size cmd <? c)%nat with false by (symmetry; apply Nat.ltb_ge; lia).
  rewrite size_sub_le by lia. cbn [bind].
  replace (c + (idx - c))%nat with idx by lia.
  reflexivity.
Qed.

Lemma digits_all (ds : list wchar) (acc : Z) (count : nat) :
  Forall (fun d => 48 <= d <= 57) ds ->
  digits ds acc count
  = (fold_left (fun acc d => acc * 10 + (d - 48)) ds acc, (count + length ds)%nat).
Proof.
  revert acc count. induction ds as [|d ds IH]; intros acc count Hall; simpl.
  - f_equal. lia.
  - inversion Hall as [|? ? Hd Hds]; subst.
    unfold iswdigit.
    replace (48 <=? d) with true by (symmetry; apply Z.leb_le; lia).
    replace (d <=? 57) with true by (symmetry; apply Z.leb_le; lia).
    cbn [andb]. rewrite IH by assumption. f_equal. lia.
Qed.

Lemma decimal_bound (ds : list wchar) (acc : Z) :
  Forall (fun d => 48 <= d <= 57) ds -> 0 <= acc ->
  0 <= fold_left (fun acc d => acc * 10 + (d - 48)) ds acc
    < (acc + 1) * 10 ^ Z.of_nat (length ds).
Proof.
  revert acc. induction ds as [|d ds IH]; intros acc Hall Hacc.
  - simpl. lia.
  - inversion Hall as [|? ? Hd Hds]; subst. cbn [fold_left length].
    specialize (IH (acc * 10 + (d - 48)) Hds ltac:(lia)).
    rewrite Nat2Z.inj_succ, Z.pow_succ_r by lia.
    split; [lia|]. nia.
Qed.

Lemma array_set_app (typed padding : list wchar) (v : wchar) :
  padding <> [] ->
  array_set (typed ++ padding) (length typed) v = typed ++ v :: tl padding.
Proof.
  intros Hpad. induction typed as [|d typed IH]; simpl.
  - destruct padding; [contradiction|reflexivity].
  - now rewrite IH.
Qed.

Lemma c_str_digits (typed rest : list wchar) :
  Forall (fun d => 48 <= d <= 57) typed -> c_str (typed ++ 0 :: rest) = typed.
Proof.
  induction 1 as [|d typed Hd _ IH]; simpl; [reflexivity|].
  replace (d =? 0) with false by (symmetry; apply Z.eqb_neq; lia).
  now rewrite IH.
Qed.

(** [std::stoi] on one to five digits followed by the NUL. *)
Lemma stoi_digits (typed rest : list wchar) :
  Forall (fun d => 48 <= d <= 57) typed ->
  (1 <= length typed <= 5)%nat ->
  stoi (typed ++ 0 :: rest) = Ok (decimalValue typed).
Proof.
  intros Hall Hlen. unfold stoi. rewrite c_str_digits by assumption.
  destruct typed as [|d typed]; [simpl in Hlen; lia|].
  inversion Hall as [|? ? Hd Hds]; subst.
  assert (Hskip : skip_space (d :: typed) = d :: typed).
  { simpl. unfold iswspace, SPACE.
    replace (d <=? 13) with false by (symmetry; apply Z.leb_gt; lia).
    replace (d =? 32) with false by (symmetry; apply Z.eqb_neq; lia).
    now rewrite andb_false_r. }
  rewrite Hskip.
  match goal with
  | |- context [let '(_, _) := ?m in _] =>
      assert (Hsign : m = (false, d :: typed))
  end.
  { destruct d as [|p|p]; try lia.
    do 6 (destruct p as [p|p|]; try reflexivity; try lia). }
  rewrite Hsign. rewrite digits_all by assumption.
  cbn [Nat.add length Nat.eqb].
  pose proof (decimal_bound (d :: typed) 0 Hall ltac:(lia)) as Hb.
  fold (decimalValue (d :: typed)) in Hb |- *.
  assert (10 ^ Z.of_nat (length (d :: typed)) <= 10 ^ 5)
    by (apply Z.pow_le_mono_r; lia).
  unfold INT_MAX.
  replace (decimalValue (d :: typed) <? - 2 ^ 31) with false by (symmetry; apply Z.ltb_ge; lia).
  replace (decimalValue (d :: typed) >? 2 ^ 31 - 1) with false
    by (symmetry; rewrite Z.gtb_ltb; apply Z.ltb_ge; lia).
  reflexivity.
Qed.

(** X21. Enter in the CommandNumber popup after one to five digits replaces
    the edit buffer by the command the history retrieves for the number the
    digits denote, puts the caret at its end and dismisses the popups. *)
Theorem X21_commandNumber_enter s (popup : Popup) (h : History) (mods : Z)
        (typed padding : list wchar) :
  back (_popups s) = Some popup ->
  kind popup = CommandNumber ->
  _history s = Some h ->
  cn_buffer (commandNumber popup) = typed ++ padding ->
  cn_bufferSize (commandNumber popup) = length typed ->
  padding <> [] ->
  Forall (fun d => 48 <= d <= 57) typed ->
  (1 <= length typed <= 5)%nat ->
  let retrieved := RetrieveNth h (decimalValue typed) in
  exists s',
    _popupHandleInput UNICODE_CARRIAGERETURN 0 mods s = Ok (false, s')
    /\ _buffer s' = fst retrieved
    /\ _bufferCursor s' = Str.size (fst retrieved)
    /\ _history s' = Some (snd retrieved)
    /\ _popups s' = [].
Proof.
  intros Hback Hkind Hh Hbuf Hsize Hpad Hall Hlen retrieved.
  unfold _popupHandleInput. rewrite Hback, Hkind.
  unfold _popupHandleCommandNumberInput. cbn [Z.eqb negb UNICODE_CARRIAGERETURN Pos.eqb].
  cbn [cn_buffer cn_bufferSize]. rewrite Hbuf, Hsize, array_set_app by assumption.
  rewrite stoi_digits by assumption. cbn [bind _history set_back_popup with_popups].
  rewrite Hh. fold retrieved. destruct retrieved as [str h'].
  eexists. split; [reflexivity|]. repeat split.
Qed.

End PopupMore.

(** X23. [integerLog10] is the number of decimal digits minus one: for a
    32-bit value other than 0 it answers the [k] with
    [10^k <= v < 10^(k+1)], and 0 for 0. *)
Theorem X23_integerLog10 (v : Z) :
  0 <= v < 2 ^ 32 ->
  0 <= integerLog10 v <= 9
  /\ (v = 0 -> integerLog10 v = 0)
  /\ (0 < v -> 10 ^ integerLog10 v <= v < 10 ^ (integerLog10 v + 1)).
Proof.
  intros Hv. unfold integerLog10. rewrite Z.mod_small by lia.
  repeat match goal with
         | |- context [?a >=? ?b] =>
             let E := fresh "E" in
             destruct (a >=? b) eqn:E; rewrite Z.geb_leb in E;
             [apply Z.leb_le in E|apply Z.leb_gt in E]
         end;
    (split; [lia|]); (split; [intros; lia|]); intros Hpos; simpl Z.add; split; try lia.
Qed.

Lemma X23_integerLog10_witness :
  0 <= integerLog10 4096 <= 9
  /\ (4096 = 0 -> integerLog10 4096 = 0)
  /\ (0 < 4096 -> 10 ^ integerLog10 4096 <= 4096 < 10 ^ (integerLog10 4096 + 1)).
Proof. apply (X23_integerLog10 4096). lia. Defined.

Section PopupDraw.

Context {Screen History Aliases Writer : Type}.
Context {text_api : TextApi}.
Context {screen_api : ScreenApi Screen}.
Context {history_api : HistoryApi History}.
Context {client_api : ClientApi Aliases Writer}.

Implicit Types s : State Screen History Aliases Writer.

(** X22. Redrawing the command list brings the selection and the window back
    into range: afterwards the selected index is a valid history index, the
    window of [height = min(popup height, history count)] rows lies inside
    the history, and the selection is one of its rows. *)
Theorem X22_popupDrawCommandList_clamps (h : History) (scr : Screen) (popup : Popup) :
  let count := GetNumberOfCommands h in
  let height := Z.min (rect_height (contentRect popup)) count in
  1 <= count < 2 ^ 30 ->
  1 <= rect_height (contentRect popup) ->
  - 2 ^ 30 <= cl_top (commandList popup) <= 2 ^ 30 ->
  - 2 ^ 31 <= cl_selected (commandList popup) <= INT_MAX ->
  let cl := commandList (snd (_popupDrawCommandList h scr popup)) in
  0 <= cl_selected cl < count
  /\ 0 <= cl_top cl /\ cl_top cl + height <= count
  /\ cl_top cl <= cl_selected cl < cl_top cl + height
  /\ cl_dirtyHeight cl = height.
Proof.
  intros count height Hcount Hrect Htop Hsel cl. subst cl.
  unfold _popupDrawCommandList. cbn [snd commandList with_commandList cl_top cl_selected cl_dirtyHeight].
  fold count. fold height.
  assert (Hheight : 1 <= height <= count) by (unfold height; lia).
  unfold INT_MAX in *.
  rewrite (i32_small (count - 1)) by (unfold INT_MAX; lia).
  rewrite (i32_small (count - height)) by (unfold INT_MAX; lia).
  rewrite (i32_small (cl_top (commandList popup) + height)) by (unfold INT_MAX; lia).
  set (sel := clamp (cl_selected (commandList popup)) 0 (count - 1)).
  assert (Hsel' : 0 <= sel <= count - 1).
  { unfold sel, clamp. repeat branch; lia. }
  rewrite (i32_small (sel - height + 1)) by (unfold INT_MAX; lia).
  unfold clamp.
  repeat branch;
    repeat match goal with
           | H : (_ <? _) = true |- _ => apply Z.ltb_lt in H
           | H : (_ <? _) = false |- _ => apply Z.ltb_ge in H
           | H : (_ >=? _) = true |- _ => rewrite Z.geb_leb in H; apply Z.leb_le in H
           | H : (_ >=? _) = false |- _ => rewrite Z.geb_leb in H; apply Z.leb_gt in H
           end; lia.
Qed.

(** The carriage-return branch of [_handleChar], spelled out. *)
Lemma _handleChar_carriageReturn s (mods : Z) :
  Z.testbit (_ctrlWakeupMask s) UNICODE_CARRIAGERETURN = false ->
  _handleChar UNICODE_CARRIAGERETURN mods s =
    Ok (true,
        with_dirty true
          (with_cursor (Str.size (_buffer s ++ _newlineSuffix s))
             (with_buffer (_buffer s ++ _newlineSuffix s) s))).
Proof.
  intros Hbit. unfold _handleChar.
  rewrite wakeup_guard, Hbit by (unfold UNICODE_CARRIAGERETURN; lia).
  rewrite andb_false_r. reflexivity.
Qed.

(** X24. Enter in the CommandList popup picks the selected command and
    commits it at once: the buffer becomes that command followed by the
    newline suffix, the caret is at its end, the popups are dismissed and the
    read is done (carriage return not being a wakeup character). *)
Theorem X24_commandList_enter s (popup : Popup) (h : History) (vkey mods : Z) :
  back (_popups s) = Some popup ->
  kind popup = CommandList ->
  _history s = Some h ->
  Z.testbit (_ctrlWakeupMask s) UNICODE_CARRIAGERETURN = false ->
  let retrieved := RetrieveNth h (cl_selected (commandList popup)) in
  exists s',
    _popupHandleInput UNICODE_CARRIAGERETURN vkey mods s = Ok (true, s')
    /\ _buffer s' = fst retrieved ++ _newlineSuffix s
    /\ _bufferCursor s' = Str.size (_buffer s')
    /\ _bufferDirty s' = true
    /\ _history s' = Some (snd retrieved)
    /\ _popups s' = [].
Proof.
  intros Hback Hkind Hh Hbit retrieved.
  unfold _popupHandleInput. rewrite Hback, Hkind.
  unfold _popupHandleCommandListInput. rewrite Hh.
  cbn [Z.eqb UNICODE_CARRIAGERETURN Pos.eqb]. fold retrieved.
  destruct retrieved as [str h'].
  rewrite _handleChar_carriageReturn by exact Hbit.
  eexists. split; [reflexivity|]. repeat split.
Qed.

End PopupDraw.

Lemma X17_popupPush_no_room_witness :
  let narrow :=
    {| Host.g_cursor := {| pt_x := 0; pt_y := 0 |};
       Host.g_size := {| sz_width := 80; sz_height := 300 |};
       Host.g_viewportOrigin := {| pt_x := 0; pt_y := 0 |};
       Host.g_viewportSize := {| sz_width := 2; sz_height := 25 |};
       Host.g_popupShown := false; Host.g_doubleCursor := false; Host.g_signals := O |} in
  let s := with_screen narrow (Host.editing 0 (Some Host.history3) [97] 1) in
  _popupPush CopyFromChar s = Ok s.
Proof.
  intros narrow s.
  refine (X17_popupPush_no_room CopyFromChar s _ eq_refl _ _ _);
    unfold INT_MAX; simpl; lia.
Defined.

Lemma X18_popup_escape_witness :
  let s := turnState (Host.turnOf (Host.key VK_F4 0) (Host.editing 0 None [97] 1)) in
  length (_popups s) = 1%nat
  /\ _popupHandleInput 0 VK_ESCAPE 0 s = Ok (false, _popupsDone s)
  /\ _popups (_popupsDone s) = []
  /\ _buffer (_popupsDone s) = _buffer s
  /\ _bufferCursor (_popupsDone s) = _bufferCursor s
  /\ _bufferDirty (_popupsDone s) = _bufferDirty s.
Proof.
  intros s. split; [reflexivity|].
  eapply (X18_popup_escape s). vm_compute. reflexivity.
Defined.

Lemma X19_copyFromChar_witness :
  let s := turnState (Host.turnOf (Host.key VK_F4 0)
                        (Host.editing 0 None [97; 98; 99; 88; 100] 0)) in
  _popupHandleInput 88 0 0 s =
    Ok (false, _popupsDone (with_dirty true (with_buffer [88; 100] s))).
Proof.
  intros s.
  refine (proj1 (X19_copyFromChar s _ 88 0 _ _ _)).
  - vm_compute. reflexivity.
  - reflexivity.
  - unfold caretInBounds. vm_compute. lia.
Defined.

Lemma X20_copyToChar_hit_witness :
  let s := turnState (Host.turnOf (Host.key VK_F2 0)
                        (Host.editing 0 (Some Host.history3) [120] 0)) in
  _popupHandleInput 114 0 0 s =
    Ok (false, _popupsDone (with_dirty true (with_cursor 2 (with_buffer [116; 104] s)))).
Proof.
  intros s.
  refine (X20_copyToChar_hit s _ Host.history3 114 0 2 _ _ _ _ _).
  - vm_compute. reflexivity.
  - reflexivity.
  - reflexivity.
  - unfold caretInBounds. vm_compute. lia.
  - reflexivity.
Defined.

Lemma X21_commandNumber_enter_witness :
  let s0 := Host.fresh 0 (Some Host.history3) [] 64 in
  let s1 := turnState (Host.turnOf (Host.key VK_F9 0) s0) in
  let s := turnState (Host.turnOf (Host.char 49) s1) in
  exists s',
    _popupHandleInput UNICODE_CARRIAGERETURN 0 0 s = Ok (false, s')
    /\ _buffer s' = [116; 119; 111]
    /\ _bufferCursor s' = 3%nat
    /\ _popups s' = [].
Proof.
  intros s0 s1 s.
  destruct (X21_commandNumber_enter s
              (match back (_popups s) with Some p => p | None => Build_Popup CopyToChar
                   (Build_rect 0 0 0 0) (Build_rect 0 0 0 0) [] (Build_CommandNumberData [] O)
                   (Build_CommandListData 0 0 0) end)
              Host.history3 0 [49] [32; 32; 32; 32; 32])
    as (s' & Hrun & Hbuf & Hcaret & _ & Hpop);
    try (vm_compute; reflexivity).
  - discriminate.
  - repeat constructor; lia.
  - simpl. lia.
  - exists s'. repeat split; assumption.
Defined.

Lemma X22_popupDrawCommandList_clamps_witness :
  let popup :=
    {| kind := CommandList;
       contentRect := {| left := 20; top := 7; right := 60; bottom := 17 |};
       backupRect := {| left := 19; top := 6; right := 61; bottom := 18 |};
       backup := [];
       commandNumber := {| cn_buffer := []; cn_bufferSize := O |};
       commandList := {| cl_top := 5; cl_selected := INT_MAX; cl_dirtyHeight := 0 |} |} in
  let cl := commandList (snd (_popupDrawCommandList Host.history3 Host.grid0 popup)) in
  0 <= cl_selected cl < 3
  /\ 0 <= cl_top cl /\ cl_top cl + 3 <= 3
  /\ cl_top cl <= cl_selected cl < cl_top cl + 3
  /\ cl_dirtyHeight cl = 3.
Proof.
  intros popup cl.
  refine (X22_popupDrawCommandList_clamps Host.history3 Host.grid0 popup _ _ _ _);
    vm_compute; repeat split; first [reflexivity | discriminate].
Defined.

Lemma X24_commandList_enter_witness :
  let s := turnState (Host.turnOf (Host.key VK_F7 0) (Host.fresh 0 (Some Host.history3) [] 64)) in
  exists s',
    _popupHandleInput UNICODE_CARRIAGERETURN 0 0 s = Ok (true, s')
    /\ _buffer s' = [116; 104; 114; 101; 101; 13; 10]
    /\ _popups s' = [].
Proof.
  intros s.
  destruct (X24_commandList_enter s
              (match back (_popups s) with Some p => p | None => Build_Popup CopyToChar
                   (Build_rect 0 0 0 0) (Build_rect 0 0 0 0) [] (Build_CommandNumberData [] O)
                   (Build_CommandListData 0 0 0) end)
              Host.history3 0 0)
    as (s' & Hrun & Hbuf & _ & _ & _ & Hpop);
    try (vm_compute; reflexivity).
  exists s'. repeat split; assumption.
Defined.

(* ------------------------------------------------------------------ *)
(** ** The input loop and the pipeline, end to end *)

Section LoopMore.

Context {Screen History Aliases Writer : Type}.
Context {text_api : TextApi}.
Context {screen_api : ScreenApi Screen}.
Context {history_api : HistoryApi History}.
Context {client_api : ClientApi Aliases Writer}.

Implicit Types s : State Screen History Aliases Writer.

(** X25. Events are handled strictly in order and a commit stops the loop
    where it stands: running the loop on a queue [a ++ b] is running it on
    [a] and, if that ends without a commit, going on with [b] from the state
    reached; if [a] commits, [b] is left in the queue behind what [a] left. *)
Theorem X25_readCharInputLoop_app (fuel : nat) (a b : list InputEvent) s :
  _readCharInputLoop fuel (a ++ b) s =
    match _readCharInputLoop fuel a s with
    | inr (Ok (false, s', _)) => _readCharInputLoop fuel b s'
    | inr (Ok (true, s', rest)) => inr (Ok (true, s', rest ++ b))
    | other => other
    end.
Proof.
  revert s. induction a as [|event a IH]; intros s; [reflexivity|].
  cbn [app _readCharInputLoop].
  destruct (loopBody fuel event s) as [[]|[[s'|s']|e]]; try reflexivity.
  apply IH.
Qed.

(** X26. What the post-commit pipeline records. A line that ends in the
    newline suffix, input being echoed, is added to the history without the
    suffix; a read ended otherwise (a wakeup character, or echo off) leaves
    the history and the buffer alone and hands the whole buffer to
    [Consume]. Either way the ignore-next-key-up flag is set and the stored
    modifiers are reported. *)
Theorem X26_postCommit_history (isUnicode : bool) s :
  let post := _handlePostCharInputLoop isUnicode s in
  let suffix := _newlineSuffix s in
  (echoInput s = true -> Str.ends_with (_buffer s) suffix = true ->
   _history (post_state post)
   = option_map (fun h => Add h (Str.remove_suffix (_buffer s) (Str.size suffix))
                            (WI_IsFlagSet (gciFlags s) CONSOLE_HISTORY_NODUP))
       (_history s))
  /\ (echoInput s = false \/ Str.ends_with (_buffer s) suffix = false ->
      _history (post_state post) = _history s
      /\ _buffer (post_state post) = _buffer s
      /\ post_lineCount post = 1%nat
      /\ post_consumeInput post = _buffer s)
  /\ gciFlags (post_state post) = Z.lor (gciFlags s) CONSOLE_IGNORE_NEXT_KEYUP
  /\ post_controlKeyState post = _controlKeyState s.
Proof.
  intros post suffix. subst post suffix.
  unfold _handlePostCharInputLoop, with_history_of.
  destruct (echoInput s) eqn:Hecho.
  2:{ cbn zeta. destruct (Consume isUnicode (_buffer s) (_userBuffer s)) as [rest writer].
      cbn -[size_sub]. split; [discriminate|]. repeat split. }
  destruct (Str.ends_with (_buffer s) (_newlineSuffix s)) eqn:Hends.
  2:{ cbn zeta. destruct (Consume isUnicode (_buffer s) (_userBuffer s)) as [rest writer].
      cbn -[size_sub]. split; [discriminate|]. repeat split. }
  set (stripped := Str.remove_suffix (_buffer s) (Str.size (_newlineSuffix s))).
  set (nodup := WI_IsFlagSet (gciFlags s) CONSOLE_HISTORY_NODUP).
  set (s1 := match _history s with
             | Some h => with_history (Some (Add h stripped nodup)) s
             | None => s
             end).
  assert (H1 : _history s1 = option_map (fun h => Add h stripped nodup) (_history s)
               /\ gciFlags s1 = gciFlags s /\ _controlKeyState s1 = _controlKeyState s)
    by (unfold s1; destruct (_history s) eqn:E; cbn [option_map]; rewrite ?E;
        (split; [reflexivity|split; reflexivity])).
  destruct H1 as (Hh & Hg & Hk).
  destruct (MatchAndCopyAlias (aliases s1) stripped (_exeName s1) 1%nat) as [alias_ lineCount].
  set (s2 := match alias_ with [] => s1 | _ => with_buffer alias_ s1 end).
  assert (H2 : _history s2 = _history s1 /\ gciFlags s2 = gciFlags s1
               /\ _controlKeyState s2 = _controlKeyState s1)
    by (unfold s2; destruct alias_; (split; [reflexivity|split; reflexivity])).
  destruct H2 as (Hh2 & Hg2 & Hk2).
  cbn zeta.
  match goal with |- context [Consume isUnicode ?i ?w] => destruct (Consume isUnicode i w) as [rest writer] end.
  cbn -[size_sub Nat.ltb]. rewrite Hh2, Hg2, Hk2, Hh, Hg, Hk.
  split; [reflexivity|]. split; [|split; reflexivity].
  intros [H|H]; discriminate.
Qed.

End LoopMore.

Lemma X26_postCommit_history_witness :
  let s := Host.editing 512 (Some Host.history3) [97; 98; 9] 3 in
  let post := _handlePostCharInputLoop true s in
  _history (post_state post) = _history s
  /\ _buffer (post_state post) = _buffer s
  /\ post_lineCount post = 1%nat
  /\ post_consumeInput post = _buffer s.
Proof.
  intros s post.
  destruct (X26_postCommit_history true s) as (_ & Hquiet & _).
  apply Hquiet. right. reflexivity.
Defined.

(* ------------------------------------------------------------------ *)
(** ** The WSL distribution generator *)

Lemma getline_split (s : wstring) (delim : wchar) :
  (exists rest, s = WslDistroGenerator.getline s delim ++ rest)
  /\ ~ In delim (WslDistroGenerator.getline s delim).
Proof.
  induction s as [|c s [[rest IH] Hno]]; simpl.
  - split; [now exists []|auto].
  - destruct (c =? delim) eqn:E.
    + split; [now exists (c :: s)|auto].
    + apply Z.eqb_neq in E. split.
      * exists rest. simpl. now rewrite <- IH.
      * simpl. intros [H|H]; auto.
Qed.

Lemma find_first_of_spec (s set : wstring) (start : nat) :
  match WslDistroGenerator.find_first_of s set start with
  | Some idx =>
      (start <= idx < start + length s)%nat
      /\ forall c, In c (firstn (idx - start) s) -> ~ In c set
  | None => forall c, In c s -> ~ In c set
  end.
Proof.
  revert start. induction s as [|c s IH]; intros start; simpl; [auto|].
  destruct (existsb (Z.eqb c) set) eqn:E.
  - split; [lia|]. rewrite Nat.sub_diag. simpl. auto.
  - assert (Hc : ~ In c set).
    { intros Hin.
      assert (T : existsb (Z.eqb c) set = true)
        by (apply existsb_exists; exists c; split; [assumption|apply Z.eqb_refl]).
      congruence. }
    specialize (IH (S start)).
    destruct (WslDistroGenerator.find_first_of s set (S start)) as [idx|].
    + destruct IH as [Hb Hno]. split; [lia|].
      replace (idx - start)%nat with (S (idx - S start)) by lia. simpl.
      intros x [<-|Hx]; auto.
    + intros x [<-|Hx]; auto.
Qed.

(** X27. A profile made from a line of [wsl --list] is named by the start of
    that line: the name is a prefix of the line, holds no space, no opening
    parenthesis and no carriage return, so that a trailing "(Default)" is cut
    off with or without a space before it, and the command line is
    "wsl.exe -d " followed by the name. *)
Theorem X27_profileOfLine_name (wline : wstring) (profile : WslDistroGenerator.Profile) :
  WslDistroGenerator.profileOfLine wline = Some profile ->
  let name := WslDistroGenerator.Name profile in
  (exists rest, wline = name ++ rest)
  /\ ~ In 32 name /\ ~ In 40 name /\ ~ In 13 name
  /\ WslDistroGenerator.Commandline profile = WslDistroGenerator.CommandlinePrefix ++ name.
Proof.
  unfold WslDistroGenerator.profileOfLine.
  destruct (getline_split wline 13) as [[rest Hrest] Hcr].
  set (distName := WslDistroGenerator.getline wline 13) in *.
  destruct (WslDistroGenerator.wstring_eqb _ _); [discriminate|].
  pose proof (find_first_of_spec distName [40; 32] O) as Hspec.
  destruct (WslDistroGenerator.find_first_of distName [40; 32] O) as [idx|].
  - destruct Hspec as [Hb Hno]. rewrite Nat.sub_0_r in Hno.
    replace (idx <? Str.size distName)%nat with true
      by (symmetry; apply Nat.ltb_lt; unfold Str.size; lia).
    intros H; injection H as <-. cbn [WslDistroGenerator.Name WslDistroGenerator.Commandline].
    split.
    { exists (skipn idx distName ++ rest).
      now rewrite app_assoc, firstn_skipn. }
    repeat split.
    + intros Hin. apply (Hno 32 Hin). simpl; auto.
    + intros Hin. apply (Hno 40 Hin). simpl; auto.
    + intros Hin. apply Hcr.
      rewrite <- (firstn_skipn idx distName). apply in_or_app. now left.
  - intros H; injection H as <-. cbn [WslDistroGenerator.Name WslDistroGenerator.Commandline].
    split; [now exists rest|].
    repeat split; auto.
    + intros Hin. apply (Hspec 32 Hin). simpl; auto.
    + intros Hin. apply (Hspec 40 Hin). simpl; auto.
Qed.

Lemma getline_app_prefix (prefix rest : wstring) (delim : wchar) :
  ~ In delim prefix ->
  WslDistroGenerator.getline (prefix ++ rest) delim
  = prefix ++ WslDistroGenerator.getline rest delim.
Proof.
  induction prefix as [|c prefix IH]; intros Hno; simpl; [reflexivity|].
  replace (c =? delim) with false
    by (symmetry; apply Z.eqb_neq; intros ->; apply Hno; simpl; auto).
  rewrite IH; [reflexivity|]. intros H; apply Hno; simpl; auto.
Qed.

(** X28. The utility distributions of Docker are hidden, and only they: a
    line yields no profile exactly when it starts with "docker-desktop". *)
Theorem X28_profileOfLine_docker (wline : wstring) :
  WslDistroGenerator.profileOfLine wline = None
  <-> exists rest, wline = WslDistroGenerator.DockerDistributionPrefix ++ rest.
Proof.
  unfold WslDistroGenerator.profileOfLine, WslDistroGenerator.wstring_eqb.
  set (docker := WslDistroGenerator.DockerDistributionPrefix).
  assert (Hdocker : ~ In 13 docker) by (unfold docker; simpl; intuition discriminate).
  destruct (getline_split wline 13) as [[rest Hrest] _].
  set (distName := WslDistroGenerator.getline wline 13) in *.
  destruct (list_eq_dec Z.eq_dec _ docker) as [E|E].
  - split; [intros _|reflexivity].
    assert (Hlen : (Str.size docker <= Str.size distName)%nat).
    { apply (f_equal (@length wchar)) in E. rewrite length_firstn in E.
      unfold Str.size in *. lia. }
    rewrite Nat.min_r in E by exact Hlen.
    exists (skipn (Str.size docker) distName ++ rest).
    rewrite app_assoc. rewrite <- E at 1. rewrite firstn_skipn. exact Hrest.
  - split; [discriminate|]. intros [tail Htail]. exfalso. apply E.
    unfold distName. rewrite Htail, getline_app_prefix by assumption.
    rewrite firstn_app.
    replace (Nat.min (Str.size (docker ++ WslDistroGenerator.getline tail 13)) (Str.size docker))
      with (length docker) by (unfold Str.size; rewrite length_app; lia).
    rewrite firstn_all, Nat.sub_diag. simpl. reflexivity.
Qed.

Lemma X27_profileOfLine_name_witness :
  let wline : wstring := [85; 98; 117; 110; 116; 117; 40; 68; 101; 102; 41; 13] in
  exists profile,
    WslDistroGenerator.profileOfLine wline = Some profile
    /\ WslDistroGenerator.Name profile = [85; 98; 117; 110; 116; 117]
    /\ ~ In 40 (WslDistroGenerator.Name profile)
    /\ WslDistroGenerator.Commandline profile
       = WslDistroGenerator.CommandlinePrefix ++ WslDistroGenerator.Name profile.
Proof.
  intros wline.
  destruct (WslDistroGenerator.profileOfLine wline) as [profile|] eqn:E;
    [|vm_compute in E; discriminate].
  destruct (X27_profileOfLine_name wline profile E) as (_ & _ & Hparen & _ & Hcmd).
  exists profile. split; [reflexivity|].
  split; [vm_compute in E; injection E as <-; reflexivity|].
  split; assumption.
Defined.

Lemma X28_profileOfLine_docker_witness :
  WslDistroGenerator.profileOfLine
    (WslDistroGenerator.DockerDistributionPrefix ++ [45; 100; 97; 116; 97; 13]) = None.
Proof.
  apply (proj2 (X28_profileOfLine_docker _)). exists [45; 100; 97; 116; 97; 13]. reflexivity.
Defined.
